(** * Retro transcriber back end: up-sot detection and export rendering

    A shallow embedding of [src/routes/transcription.py] (the keyword
    detector [detect_up_sots]) and of [src/routes/export.py] (the three
    document generators and the EDL route), with the properties the
    specification states about them.

    Modelling conventions.
    - A Python [str] is a Rocq [string]; a character is a code point below
      256.  On that range [str.isspace] and [str.lower] are Python's.
      [str.upper] and [str.title] are Python's on the ASCII range only (the
      upper-case forms of three Latin-1 letters are not one code point
      below 256), so what is stated about them is stated of ASCII
      strings.  Transcripts
      with code points from 256 up, where [str.lower] can make a string
      longer, are the subject of the module [Wide].
    - A Python [int] is a [Z].  A Python [float] is an IEEE binary64 value,
      a [spec_float] operated at precision 53 and maximal exponent 1024.
    - A dict literal whose keys are fixed is a record; a dict read through
      [.get(key, default)] has optional fields; the glyph table of the
      markdown generator is a [gmap]; the [set] of seen timestamps is a
      [gset].
    - An exception is a value of [py_error]; code that may raise returns a
      [result]. *)

From Stdlib Require Import ZArith QArith Qround Ascii String SpecFloat
  DecimalString.
From stdpp Require Import base gmap strings list sorting.

Local Close Scope Q_scope.
Local Open Scope string_scope.
Local Open Scope list_scope.
Local Open Scope Z_scope.

(** ** Text primitives *)

Module Text.

(** [re.split(r'[.!?]+', text)]: the character class of the separator. *)
Definition is_terminal (c : ascii) : bool :=
  Ascii.eqb c "." || Ascii.eqb c "!" || Ascii.eqb c "?".

(** The units between maximal runs of terminal punctuation.  [in_run] tells
    that the previous character belonged to a separator run; the head of the
    result is the unit being read. *)
Fixpoint split_from (in_run : bool) (s : string) : list string :=
  match s with
  | EmptyString => [EmptyString]
  | String c s' =>
      if is_terminal c then
        if in_run then split_from true s'
        else EmptyString :: split_from true s'
      else
        match split_from false s' with
        | u :: us => String c u :: us
        | [] => [String c EmptyString]
        end
  end.

Definition re_split (text : string) : list string := split_from false text.

(** [str.isspace] on one character: the ASCII blanks and separators,
    U+0085 and U+00A0. *)
Definition isspace (c : ascii) : bool :=
  let n := nat_of_ascii c in
  ((9 <=? n)%nat && (n <=? 13)%nat) || ((28 <=? n)%nat && (n <=? 32)%nat)
  || (n =? 133)%nat || (n =? 160)%nat.

Fixpoint lstrip (s : string) : string :=
  match s with
  | EmptyString => EmptyString
  | String c s' => if isspace c then lstrip s' else s
  end.

Fixpoint rstrip (s : string) : string :=
  match s with
  | EmptyString => EmptyString
  | String c s' =>
      match rstrip s' with
      | EmptyString => if isspace c then EmptyString else String c EmptyString
      | r => String c r
      end
  end.

Definition strip (s : string) : string := rstrip (lstrip s).

Definition map_chars (f : ascii -> ascii) : string -> string :=
  fix go s :=
    match s with
    | EmptyString => EmptyString
    | String c s' => String (f c) (go s')
    end.

Definition is_upper (c : ascii) : bool :=
  let n := nat_of_ascii c in (65 <=? n)%nat && (n <=? 90)%nat.

Definition is_lower (c : ascii) : bool :=
  let n := nat_of_ascii c in (97 <=? n)%nat && (n <=? 122)%nat.

(** The Latin-1 capitals U+00C0 to U+00DE, the multiplication sign U+00D7
    apart. *)
Definition is_latin1_upper (c : ascii) : bool :=
  let n := nat_of_ascii c in
  (192 <=? n)%nat && (n <=? 222)%nat && negb (n =? 215)%nat.

Definition lower_char (c : ascii) : ascii :=
  if is_upper c || is_latin1_upper c
  then ascii_of_nat (nat_of_ascii c + 32) else c.

Definition upper_char (c : ascii) : ascii :=
  if is_lower c then ascii_of_nat (nat_of_ascii c - 32) else c.

(** [str.lower], and [str.upper] on ASCII strings. *)
Definition lower : string -> string := map_chars lower_char.
Definition upper : string -> string := map_chars upper_char.

(** [s.startswith(p)]. *)
Fixpoint startswith (p s : string) : bool :=
  match p, s with
  | EmptyString, _ => true
  | String a p', String b s' => Ascii.eqb a b && startswith p' s'
  | String _ _, EmptyString => false
  end.

(** [sub in s]. *)
Fixpoint contains (sub s : string) : bool :=
  startswith sub s ||
  match s with
  | EmptyString => false
  | String _ s' => contains sub s'
  end.

(** [s[:n]]. *)
Fixpoint take (n : nat) (s : string) : string :=
  match n, s with
  | S n', String c s' => String c (take n' s')
  | _, _ => EmptyString
  end.

(** [s.replace(a, b)] for one-character [a] and [b]. *)
Definition replace_char (a b : ascii) : string -> string :=
  map_chars (fun c => if Ascii.eqb c a then b else c).

(** [str.title] on ASCII strings: a cased character is upper-cased when
    the character before it is not cased, lower-cased otherwise. *)
Definition is_cased (c : ascii) : bool := is_upper c || is_lower c.

Fixpoint title_from (prev_cased : bool) (s : string) : string :=
  match s with
  | EmptyString => EmptyString
  | String c s' =>
      String (if prev_cased then lower_char c else upper_char c)
             (title_from (is_cased c) s')
  end.

Definition title (s : string) : string := title_from false s.

(** ["\n".join(lines)]. *)
Fixpoint join (sep : string) (lines : list string) : string :=
  match lines with
  | [] => EmptyString
  | [l] => l
  | l :: ls => l +:+ sep +:+ join sep ls
  end.

(** [c * n] for a one-character string. *)
Fixpoint repeat_char (c : ascii) (n : nat) : string :=
  match n with
  | O => EmptyString
  | S n' => String c (repeat_char c n')
  end.

Definition newline : string := String (ascii_of_nat 10) EmptyString.

End Text.

(** ** Exceptions *)

Inductive py_error :=
  | ValueError      (** [int(nan)] *)
  | OverflowError   (** [int(inf)] *)
  | ZeroDivisionError
  | OtherException (name : string)
      (** any other class, as the file system or [send_file] raise *).

Inductive result (A : Type) :=
  | Ok (a : A)
  | Raise (e : py_error).
Arguments Ok {A} a.
Arguments Raise {A} e.

Global Instance result_ret : MRet result := fun A a => Ok a.
Global Instance result_bind : MBind result := fun A B k r =>
  match r with
  | Ok a => k a
  | Raise e => Raise e
  end.

Global Instance result_fmap : FMap result := fun A B f r =>
  match r with
  | Ok a => Ok (f a)
  | Raise e => Raise e
  end.

Definition is_ok {A : Type} (r : result A) : Prop :=
  match r with Ok _ => True | Raise _ => False end.

(** A loop whose body may raise: the results in order, or the first
    exception. *)
Fixpoint for_each {A B : Type} (body : A -> result B) (xs : list A)
    : result (list B) :=
  match xs with
  | [] => Ok []
  | x :: xs' => b ← body x; bs ← for_each body xs'; Ok (b :: bs)
  end.

(** ** Python numbers *)

Module Num.

Definition prec : Z := 53.
Definition emax : Z := 1024.

(** The binary64 value nearest to an integer (the conversion Python applies
    to an [int] operand of a mixed operation). *)
Definition of_Z (z : Z) : spec_float := binary_normalize prec emax z 0 false.

(** A decimal literal [n/d] with [d] a power of ten, correctly rounded. *)
Definition literal (n d : Z) : spec_float :=
  SFdiv prec emax (of_Z n) (of_Z d).

Definition fadd := SFadd prec emax.
Definition fsub := SFsub prec emax.
Definition fmul := SFmul prec emax.
Definition fdiv := SFdiv prec emax.
Definition fltb := SFltb.

Definition is_zero (x : spec_float) : bool :=
  match x with S754_zero _ => true | _ => false end.

Definition sign_bit (x : spec_float) : bool :=
  match x with
  | S754_zero s | S754_infinity s | S754_finite s _ _ => s
  | S754_nan => false
  end.

(** C's [fmod]: the remainder of the magnitudes, exact, with the sign of
    [x]. *)
Definition fmod (x y : spec_float) : spec_float :=
  match x, y with
  | S754_nan, _ | _, S754_nan => S754_nan
  | S754_infinity _, _ => S754_nan
  | _, S754_zero _ => S754_nan
  | S754_zero _, _ => x
  | S754_finite _ _ _, S754_infinity _ => x
  | S754_finite sx mx ex, S754_finite _ my ey =>
      let e := Z.min ex ey in
      let r := (Zpos mx * 2 ^ (ex - e)) mod (Zpos my * 2 ^ (ey - e)) in
      binary_normalize prec emax (cond_Zopp sx r) e sx
  end.

(** C's [floor]. *)
Definition floor (x : spec_float) : spec_float :=
  match x with
  | S754_finite s m e =>
      if 0 <=? e then x
      else binary_normalize prec emax (cond_Zopp s (Zpos m) / 2 ^ (- e)) 0 s
  | _ => x
  end.

(** [copysign(0.0, x)]. *)
Definition zero_like (x : spec_float) : spec_float := S754_zero (sign_bit x).

(** [float.__floordiv__], as CPython's [_float_div_mod] computes it. *)
Definition float_floordiv (vx wx : spec_float) : result spec_float :=
  if is_zero wx then Raise ZeroDivisionError
  else
    let mod_ := fmod vx wx in
    let div := fdiv (fsub vx mod_) wx in
    let div :=
      if negb (is_zero mod_)
         && negb (Bool.eqb (fltb wx (S754_zero false))
                           (fltb mod_ (S754_zero false)))
      then fsub div (of_Z 1) else div in
    if negb (is_zero div) then
      let floordiv := floor div in
      Ok (if fltb (literal 5 10) (fsub div floordiv)
          then fadd floordiv (of_Z 1) else floordiv)
    else Ok (zero_like (fdiv vx wx)).

(** [float.__mod__], as CPython's [float_rem] computes it. *)
Definition float_mod (vx wx : spec_float) : result spec_float :=
  if is_zero wx then Raise ZeroDivisionError
  else
    let mod_ := fmod vx wx in
    if negb (is_zero mod_) then
      if negb (Bool.eqb (fltb wx (S754_zero false))
                        (fltb mod_ (S754_zero false)))
      then Ok (fadd mod_ wx) else Ok mod_
    else Ok (zero_like wx).

(** [int(x)] for a float: truncation toward zero. *)
Definition float_to_int (x : spec_float) : result Z :=
  match x with
  | S754_nan => Raise ValueError
  | S754_infinity _ => Raise OverflowError
  | S754_zero _ => Ok 0
  | S754_finite s m e =>
      Ok (cond_Zopp s (if 0 <=? e then Zpos m * 2 ^ e
                       else Zpos m / 2 ^ (- e)))
  end.

(** A JSON number as Python reads it; [Float f] holds a binary64 value
    ([valid_binary prec emax f] is true). *)
Inductive number :=
  | Int (z : Z)
  | Float (f : spec_float).

(** [x // d], [x % d] and [x * d] for an [int] literal [d]. *)
Definition floordiv (x : number) (d : Z) : result number :=
  match x with
  | Int z => if d =? 0 then Raise ZeroDivisionError else Ok (Int (z / d))
  | Float f => Float <$> float_floordiv f (of_Z d)
  end.

Definition modulo (x : number) (d : Z) : result number :=
  match x with
  | Int z => if d =? 0 then Raise ZeroDivisionError else Ok (Int (z mod d))
  | Float f => Float <$> float_mod f (of_Z d)
  end.

Definition mul (x : number) (d : Z) : number :=
  match x with
  | Int z => Int (z * d)
  | Float f => Float (fmul f (of_Z d))
  end.

(** [int(x)]. *)
Definition to_int (x : number) : result Z :=
  match x with
  | Int z => Ok z
  | Float f => float_to_int f
  end.

(** The exact value of a number on the extended line, in units of
    [2^-1074] (every finite binary64 value is a whole number of them);
    [None] for a NaN. *)
Inductive ext :=
  | NegInf
  | Fin (units : Z)
  | PosInf.

Definition value (x : number) : option ext :=
  match x with
  | Int z => Some (Fin (z * 2 ^ 1074))
  | Float S754_nan => None
  | Float (S754_infinity s) => Some (if s then NegInf else PosInf)
  | Float (S754_zero _) => Some (Fin 0)
  | Float (S754_finite s m e) =>
      Some (Fin (cond_Zopp s (Z.shiftl (Zpos m) (e + 1074))))
  end.

Definition ext_ltb (a b : ext) : bool :=
  match a, b with
  | NegInf, NegInf => false
  | NegInf, _ => true
  | Fin _, NegInf => false
  | Fin x, Fin y => x <? y
  | Fin _, PosInf => true
  | PosInf, _ => false
  end.

(** [x < y]: numbers compare by exact value; a NaN is below nothing and
    nothing is below it. *)
Definition ltb (x y : number) : bool :=
  match value x, value y with
  | Some a, Some b => ext_ltb a b
  | _, _ => false
  end.

(** [x > 0]. *)
Definition positive (x : number) : bool := ltb (Int 0) x.

End Num.


(** ** The detector, [detect_up_sots] *)

(** The dict appended by the detector: all four keys are always present. *)
Record UpSot := mkUpSot {
  timestamp : Z;
  type : string;
  description : string;
  confidence : spec_float
}.

Definition key_phrases : list string :=
  [ "thank you"; "welcome"; "fascinating"; "absolutely"; "unique";
    "challenge"; "opportunity"; "important"; "key"; "significant";
    "advice"; "perspective"; "innovative"; "breakthrough"; "solution";
    "problem"; "ethics"; "future"; "looking ahead"; "in conclusion" ].

Definition question_indicators : list string :=
  [ "can you tell us"; "can you walk us through"; "what do you see";
    "how does"; "what advice"; "what makes"; "how do you" ].

Definition topic_starters : list string :=
  [ "speaking of"; "looking ahead"; "moving on"; "now"; "finally" ].

(** [for x in xs: if test(x): up_sots.append(item); break]: what the loop
    appends. *)
Fixpoint append_on_first {A B : Type} (test : A -> bool) (xs : list A)
    (item : B) : list B :=
  match xs with
  | [] => []
  | x :: xs' => if test x then [item] else append_on_first test xs' item
  end.

(** [f'{label}{sentence[:100]}...' if len(sentence) > 100 else
    f'{label}{sentence}']. *)
Definition describe (label sentence : string) : string :=
  if (100 <? String.length sentence)%nat
  then label +:+ Text.take 100 sentence +:+ "..."
  else label +:+ sentence.

(** One iteration of the scan loop, for the pair [(i, sentence)] of
    [enumerate(sentences)]: the dicts it appends to [up_sots], in order. *)
Definition scan_sentence (i : Z) (raw : string) : list UpSot :=
  let sentence := Text.lower (Text.strip raw) in
  if (String.length sentence <? 10)%nat then []
  else
    let timestamp := i * 3 in
    append_on_first (fun indicator => Text.contains indicator sentence)
      question_indicators
      (mkUpSot timestamp "question" (describe "Question: " sentence)
               (Num.literal 8 10))
    ++
    append_on_first
      (fun phrase => Text.contains phrase sentence
                     && (30 <? String.length sentence)%nat)
      key_phrases
      (mkUpSot timestamp "key_moment" (describe "Key point: " sentence)
               (Num.literal 7 10))
    ++
    append_on_first (fun starter => Text.startswith starter sentence)
      topic_starters
      (mkUpSot timestamp "topic_transition"
               (describe "Topic change: " sentence) (Num.literal 9 10)).

(** [enumerate(xs)], counting from [i]. *)
Fixpoint enumerate_from {A : Type} (i : Z) (xs : list A) : list (Z * A) :=
  match xs with
  | [] => []
  | x :: xs' => (i, x) :: enumerate_from (i + 1) xs'
  end.

(** The list [up_sots] when the scan loop ends. *)
Definition scan (sentences : list string) : list UpSot :=
  flat_map (fun p => scan_sentence (fst p) (snd p))
           (enumerate_from 0 sentences).

(** The duplicate-removing loop, started with the given [seen_timestamps];
    the result is what it appends to [unique_up_sots]. *)
Fixpoint remove_duplicates (seen_timestamps : gset Z) (up_sots : list UpSot)
    : list UpSot :=
  match up_sots with
  | [] => []
  | up_sot :: rest =>
      if decide (timestamp up_sot ∈ seen_timestamps)
      then remove_duplicates seen_timestamps rest
      else up_sot ::
           remove_duplicates ({[ timestamp up_sot ]} ∪ seen_timestamps) rest
  end.

(** [sorted(xs, key=key)] for keys compared by [lt]: a stable sort that, as
    Python's, only ever asks whether one key is below another. *)
Section Sorted.
Context {A K : Type} (lt : K -> K -> bool) (key : A -> K).

Fixpoint insert_sorted (x : A) (xs : list A) : list A :=
  match xs with
  | [] => [x]
  | y :: ys =>
      if lt (key y) (key x) then y :: insert_sorted x ys else x :: xs
  end.

Fixpoint py_sorted (xs : list A) : list A :=
  match xs with
  | [] => []
  | x :: xs' => insert_sorted x (py_sorted xs')
  end.
End Sorted.

Definition detect_up_sots (text : string) : list UpSot :=
  let sentences := Text.re_split text in
  let up_sots := scan sentences in
  let unique_up_sots := remove_duplicates ∅ up_sots in
  py_sorted Z.ltb timestamp unique_up_sots.


(** ** Reading aids for the text primitives *)

(** Every character of [s] satisfies [p]. *)
Fixpoint all_chars (p : ascii -> bool) (s : string) : bool :=
  match s with
  | EmptyString => true
  | String c s' => p c && all_chars p s'
  end.

(** [str.isascii]: every code point is below 128, the range on which the
    case mappings of [Text] are all Python's and none changes the length
    of a string. *)
Definition ascii_only (s : string) : bool :=
  all_chars (fun c => (nat_of_ascii c <? 128)%nat) s.

(** ** Reading aids for the detector *)

(** The three tests of the scan loop, on the trimmed lower-cased unit. *)
Definition is_question (sentence : string) : bool :=
  existsb (fun indicator => Text.contains indicator sentence)
          question_indicators.

Definition is_key_moment (sentence : string) : bool :=
  existsb (fun phrase => Text.contains phrase sentence
                         && (30 <? String.length sentence)%nat)
          key_phrases.

Definition is_topic_transition (sentence : string) : bool :=
  existsb (fun starter => Text.startswith starter sentence) topic_starters.

(** The three dict literals of the scan loop. *)
Definition question_of (i : Z) (sentence : string) : UpSot :=
  mkUpSot (i * 3) "question" (describe "Question: " sentence)
          (Num.literal 8 10).

Definition key_moment_of (i : Z) (sentence : string) : UpSot :=
  mkUpSot (i * 3) "key_moment" (describe "Key point: " sentence)
          (Num.literal 7 10).

Definition topic_transition_of (i : Z) (sentence : string) : UpSot :=
  mkUpSot (i * 3) "topic_transition" (describe "Topic change: " sentence)
          (Num.literal 9 10).

Definition when {B : Type} (b : bool) (item : B) : list B :=
  if b then [item] else [].

(** What survives of one block of candidates: its first element. *)
Definition first_of {B : Type} (xs : list B) : list B :=
  match xs with
  | [] => []
  | x :: _ => [x]
  end.

Definition kept (sentences : list (Z * string)) : list UpSot :=
  flat_map (fun p => first_of (scan_sentence (fst p) (snd p))) sentences.

Definition ascending (a b : UpSot) : Prop := timestamp a < timestamp b.

(** ** Sample transcripts *)

(** A unit that matches all three rules. *)
Definition outlook_text : string :=
  "Looking ahead, what do you see as the biggest opportunities and challenges in the AI space?".

Definition outlook_sentence : string :=
  "looking ahead, what do you see as the biggest opportunities and challenges in the ai space".

(** A short unit followed by a question. *)
Definition short_then_question : string :=
  "Hi. Can you tell us about it".

(** The opening of the transcript [transcribe_audio] hands to the
    detector. *)
Definition interview_opening : string :=
  "Welcome to today's interview. I'm here with John Smith, CEO of TechCorp, to discuss the company's innovative approach to artificial intelligence and machine learning. John, thank you for joining us today. Can you tell us about your background and how you got started in the tech industry?".

Definition background_sentence : string :=
  "Can you tell us about your background and how you got started in the tech industry".

(** ** The detector on transcripts of any code points *)

(** The same function, [detect_up_sots], with a [str] as the list of its
    code points.  [str.lower] needs the case table of the code points it
    meets; this module holds it for the code points below 256 and for
    U+0130, whose lower-case form is two code points long, and gives no
    result for a transcript with other code points.  On a transcript of
    code points below 256 it returns what [detect_up_sots] above returns
    (lemma [wide_detect_up_sots]). *)
Module Wide.

Definition str : Type := list N.

Definition of_string (s : string) : str :=
  N_of_ascii <$> list_ascii_of_string s.

(** [re.split(r'[.!?]+', text)]. *)
Definition is_terminal (c : N) : bool :=
  (c =? 46)%N || (c =? 33)%N || (c =? 63)%N.

Fixpoint split_from (in_run : bool) (s : str) : list str :=
  match s with
  | [] => [[]]
  | c :: s' =>
      if is_terminal c then
        if in_run then split_from true s'
        else [] :: split_from true s'
      else
        match split_from false s' with
        | u :: us => (c :: u) :: us
        | [] => [[c]]
        end
  end.

Definition re_split (text : str) : list str := split_from false text.

(** [str.isspace] on one code point. *)
Definition isspace (c : N) : bool :=
  ((9 <=? c)%N && (c <=? 13)%N) || ((28 <=? c)%N && (c <=? 32)%N)
  || (c =? 133)%N || (c =? 160)%N || (c =? 5760)%N
  || ((8192 <=? c)%N && (c <=? 8202)%N)
  || (c =? 8232)%N || (c =? 8233)%N || (c =? 8239)%N || (c =? 8287)%N
  || (c =? 12288)%N.

Fixpoint lstrip (s : str) : str :=
  match s with
  | [] => []
  | c :: s' => if isspace c then lstrip s' else s
  end.

Fixpoint rstrip (s : str) : str :=
  match s with
  | [] => []
  | c :: s' =>
      match rstrip s' with
      | [] => if isspace c then [] else [c]
      | r => c :: r
      end
  end.

Definition strip (s : str) : str := rstrip (lstrip s).

(** The lower-case form of one code point, where this module holds it. *)
Definition lower_char (c : N) : option str :=
  if (c <? 256)%N then Some [N_of_ascii (Text.lower_char (ascii_of_N c))]
  else if (c =? 304)%N then Some [105; 775]%N
  else None.

(** [str.lower]. *)
Definition lower (s : str) : option str :=
  parts ← mapM lower_char s; Some (concat parts).

(** [s.startswith(p)]. *)
Fixpoint startswith (p s : str) : bool :=
  match p, s with
  | [], _ => true
  | a :: p', b :: s' => (a =? b)%N && startswith p' s'
  | _ :: _, [] => false
  end.

(** [sub in s]. *)
Fixpoint contains (sub s : str) : bool :=
  startswith sub s ||
  match s with
  | [] => false
  | _ :: s' => contains sub s'
  end.

Record UpSot := mkUpSot {
  timestamp : Z;
  type : string;
  description : str;
  confidence : spec_float
}.

Definition describe (label : string) (sentence : str) : str :=
  if (100 <? length sentence)%nat
  then of_string label ++ take 100 sentence ++ of_string "..."
  else of_string label ++ sentence.

(** One iteration of the scan loop. *)
Definition scan_sentence (i : Z) (raw : str) : option (list UpSot) :=
  sentence ← lower (strip raw);
  Some
    (if (length sentence <? 10)%nat then []
     else
       let timestamp := i * 3 in
       append_on_first
         (fun indicator => contains (of_string indicator) sentence)
         question_indicators
         (mkUpSot timestamp "question" (describe "Question: " sentence)
                  (Num.literal 8 10))
       ++
       append_on_first
         (fun phrase => contains (of_string phrase) sentence
                        && (30 <? length sentence)%nat)
         key_phrases
         (mkUpSot timestamp "key_moment" (describe "Key point: " sentence)
                  (Num.literal 7 10))
       ++
       append_on_first
         (fun starter => startswith (of_string starter) sentence)
         topic_starters
         (mkUpSot timestamp "topic_transition"
                  (describe "Topic change: " sentence) (Num.literal 9 10))).

Definition scan (sentences : list str) : option (list UpSot) :=
  blocks ← mapM (fun p => scan_sentence (fst p) (snd p))
                (enumerate_from 0 sentences);
  Some (concat blocks).

Fixpoint remove_duplicates (seen_timestamps : gset Z) (up_sots : list UpSot)
    : list UpSot :=
  match up_sots with
  | [] => []
  | up_sot :: rest =>
      if decide (timestamp up_sot ∈ seen_timestamps)
      then remove_duplicates seen_timestamps rest
      else up_sot ::
           remove_duplicates ({[ timestamp up_sot ]} ∪ seen_timestamps) rest
  end.

Definition detect_up_sots (text : str) : option (list UpSot) :=
  let sentences := re_split text in
  up_sots ← scan sentences;
  let unique_up_sots := remove_duplicates ∅ up_sots in
  Some (py_sorted Z.ltb timestamp unique_up_sots).

(** "how does" followed by U+0130, the capital I with a dot above. *)
Definition how_does_dotted : str := of_string "how does" ++ [304%N].

End Wide.

(** An up-sot of the detector over 8-bit characters, with its description
    as code points. *)
Definition widen (u : UpSot) : Wide.UpSot :=
  Wide.mkUpSot (timestamp u) (type u) (Wide.of_string (description u))
               (confidence u).
(** ** Formatting integers *)

Module Fmt.

(** [str(z)]. *)
Definition str (z : Z) : string := NilZero.string_of_int (Z.to_int z).

(** [s.rjust(width, fill)]. *)
Definition rjust (fill : ascii) (width : nat) (s : string) : string :=
  Text.repeat_char fill (width - String.length s) +:+ s.

(** [f"{z:0{width}d}"]: padded with zeros after the sign. *)
Definition zero_padded (width : nat) (z : Z) : string :=
  if z <? 0 then "-" +:+ rjust "0" (width - 1) (str (- z))
  else rjust "0" width (str z).

(** [f"{z:{width}d}"]: padded with spaces on the left. *)
Definition space_padded (width : nat) (z : Z) : string :=
  rjust " " width (str z).

End Fmt.

(** ** The documents of [export.py] *)

(** An element of the request's [up_sots] array: each key may be absent and
    is then read through [.get(key, default)]. *)
Record up_sot := mk_up_sot {
  get_timestamp : option Num.number;
  get_type : option string;
  get_description : option string;
  get_confidence : option Num.number
}.

(** The detector's dict as the export routes receive it back. *)
Definition jsonify (u : UpSot) : up_sot :=
  mk_up_sot (Some (Num.Int (timestamp u))) (Some (type u))
            (Some (description u)) (Some (Num.Float (confidence u))).

Definition timestamp_or_0 (u : up_sot) : Num.number :=
  default (Num.Int 0) (get_timestamp u).
Definition description_or_default (u : up_sot) : string :=
  default "Key moment" (get_description u).
Definition type_or_default (u : up_sot) : string :=
  default "key_moment" (get_type u).
Definition confidence_or_0 (u : up_sot) : Num.number :=
  default (Num.Float (S754_zero false)) (get_confidence u).

(** [sorted(up_sots, key=lambda x: x.get('timestamp', 0))].  The order of
    the result is the one Python gives whenever no key is a NaN: the keys
    are then ordered by [<], and a list has one stable sorted arrangement.
    With a NaN among the keys, Python's merge sort can return another
    arrangement than this one and can swap entries of equal key; what
    this file states about the order of the result is stated of lists
    without a NaN key. *)
Definition sorted_up_sots (up_sots : list up_sot) : list up_sot :=
  py_sorted Num.ltb timestamp_or_0 up_sots.

(** Lines 138-143 of [generate_edl]: the [HH:MM:SS:FF] timecode. *)
Definition timecode (timestamp : Num.number) : result string :=
  q ← Num.floordiv timestamp 3600; hours ← Num.to_int q;
  r ← Num.modulo timestamp 3600; q ← Num.floordiv r 60;
  minutes ← Num.to_int q;
  r ← Num.modulo timestamp 60; seconds ← Num.to_int r;
  r ← Num.modulo timestamp 1; frames ← Num.to_int (Num.mul r 30);
  Ok (Fmt.zero_padded 2 hours +:+ ":" +:+ Fmt.zero_padded 2 minutes +:+ ":" +:+
      Fmt.zero_padded 2 seconds +:+ ":" +:+ Fmt.zero_padded 2 frames).

(** Lines 189-191 of [generate_txt] (and 242-244 of [generate_markdown]):
    the [MM:SS] display. *)
Definition time_str (timestamp : Num.number) : result string :=
  q ← Num.floordiv timestamp 60; minutes ← Num.to_int q;
  r ← Num.modulo timestamp 60; seconds ← Num.to_int r;
  Ok (Fmt.zero_padded 2 minutes +:+ ":" +:+ Fmt.zero_padded 2 seconds).

(** [f"{int(confidence * 100)}%"]. *)
Definition percent (confidence : Num.number) : result string :=
  p ← Num.to_int (Num.mul confidence 100);
  Ok (Fmt.str p +:+ "%").

(** One iteration of the loop of [generate_edl]: the lines it appends. *)
Definition edl_entry (i : Z) (u : up_sot) : result (list string) :=
  let timestamp := timestamp_or_0 u in
  let description := description_or_default u in
  let up_sot_type := type_or_default u in
  let confidence := confidence_or_0 u in
  timecode ← timecode timestamp;
  confidence_pct ← percent confidence;
  Ok [ Fmt.zero_padded 3 i +:+ "  001      V     C        " +:+ timecode +:+
         " " +:+ timecode +:+ " " +:+ timecode +:+ " " +:+ timecode;
       "* FROM CLIP NAME: " +:+ Text.upper up_sot_type;
       "* COMMENT: " +:+ description;
       "* CONFIDENCE: " +:+ confidence_pct;
       "" ].

(** The list [edl_lines] when [generate_edl] reaches its [return]. *)
Definition edl_lines (up_sots : list up_sot) (project_name : string)
    : result (list string) :=
  entries ← for_each (fun p => edl_entry (fst p) (snd p))
                     (enumerate_from 1 (sorted_up_sots up_sots));
  Ok ([ "TITLE: " +:+ project_name; "FCM: NON-DROP FRAME"; "" ]
      ++ concat entries).

Definition generate_edl (up_sots : list up_sot) (project_name : string)
    : result string :=
  Text.join Text.newline <$> edl_lines up_sots project_name.

(** One iteration of the loop of [generate_txt]. *)
Definition txt_entry (i : Z) (u : up_sot) : result (list string) :=
  let timestamp := timestamp_or_0 u in
  let description := description_or_default u in
  let up_sot_type := type_or_default u in
  let confidence := confidence_or_0 u in
  time_str ← time_str timestamp;
  confidence_line ←
    (if Num.positive confidence
     then (fun p => [ "    Confidence: " +:+ p ]) <$> percent confidence
     else Ok []);
  Ok ([ Fmt.space_padded 2 i +:+ ". [" +:+ time_str +:+ "] " +:+
          Text.upper up_sot_type;
        "    " +:+ description ]
      ++ confidence_line ++ [ "" ]).

(** The list [lines] when [generate_txt] reaches its [return]; [now] is
    [datetime.now().strftime('%Y-%m-%d %H:%M:%S')]. *)
Definition txt_lines (now : string) (transcription : string)
    (up_sots : list up_sot) (project_name : string) : result (list string) :=
  key_moments ←
    match up_sots with
    | [] => Ok []
    | _ =>
        entries ← for_each (fun p => txt_entry (fst p) (snd p))
                           (enumerate_from 1 (sorted_up_sots up_sots));
        Ok ([ "KEY MOMENTS (UP-SOTS):"; Text.repeat_char "-" 40 ]
            ++ concat entries)
    end;
  Ok ([ Text.repeat_char "=" 80;
        "INTERVIEW TRANSCRIPT: " +:+ project_name;
        "Generated: " +:+ now;
        Text.repeat_char "=" 80;
        "";
        "FULL TRANSCRIPTION:";
        Text.repeat_char "-" 40;
        transcription;
        "";
        "" ]
      ++ key_moments ++
      [ Text.repeat_char "=" 80;
        "Generated by Retro Professional Transcribe Tool";
        Text.repeat_char "=" 80 ]).

Definition generate_txt (now : string) (transcription : string)
    (up_sots : list up_sot) (project_name : string) : result string :=
  Text.join Text.newline <$> txt_lines now transcription up_sots project_name.

(** The glyph literals of [generate_markdown] hold code points above 255;
    they are kept as the UTF-8 bytes of the source file. *)
Definition glyph (bytes : list nat) : string :=
  foldr (fun n s => String (ascii_of_nat n) s) EmptyString bytes.

Definition question_glyph : string :=
  glyph [195; 176; 197; 184; 226; 128; 157; 194; 181]%nat.
Definition key_moment_glyph : string :=
  glyph [195; 176; 197; 184; 197; 184; 194; 162]%nat.
Definition topic_transition_glyph : string :=
  glyph [195; 176; 197; 184; 197; 184; 194; 163]%nat.
Definition default_glyph : string :=
  glyph [195; 162; 197; 161; 194; 170]%nat.

(** The dict literal bound to no name in the source, looked up with
    [.get(up_sot_type, default)]. *)
Definition type_colors : gmap string string :=
  {[ "question" := question_glyph;
     "key_moment" := key_moment_glyph;
     "topic_transition" := topic_transition_glyph ]}.

Definition type_color (up_sot_type : string) : string :=
  default default_glyph (type_colors !! up_sot_type).

(** [up_sot_type.replace('_', ' ').title()]. *)
Definition type_label (up_sot_type : string) : string :=
  Text.title (Text.replace_char "_" " " up_sot_type).

(** The level-3 heading of one markdown entry. *)
Definition markdown_heading (i : Z) (time_str up_sot_type : string) : string :=
  "### " +:+ Fmt.str i +:+ ". [" +:+ time_str +:+ "] " +:+
  type_color up_sot_type +:+ " " +:+ type_label up_sot_type.

(** One iteration of the loop of [generate_markdown]. *)
Definition markdown_entry (i : Z) (u : up_sot) : result (list string) :=
  let timestamp := timestamp_or_0 u in
  let description := description_or_default u in
  let up_sot_type := type_or_default u in
  let confidence := confidence_or_0 u in
  time_str ← time_str timestamp;
  confidence_lines ←
    (if Num.positive confidence
     then (fun p => [ "**Confidence:** " +:+ p; "" ]) <$> percent confidence
     else Ok []);
  Ok ([ markdown_heading i time_str up_sot_type;
        "";
        "**Description:** " +:+ description;
        "" ]
      ++ confidence_lines ++ [ "---"; "" ]).

(** The list [lines] when [generate_markdown] reaches its [return];
    [now_header] and [now_footer] are the two readings of the clock. *)
Definition markdown_lines (now_header now_footer : string)
    (transcription : string) (up_sots : list up_sot) (project_name : string)
    : result (list string) :=
  key_moments ←
    match up_sots with
    | [] => Ok []
    | _ =>
        entries ← for_each (fun p => markdown_entry (fst p) (snd p))
                           (enumerate_from 1 (sorted_up_sots up_sots));
        Ok ([ "## Key Moments (Up-Sots)"; "" ] ++ concat entries)
    end;
  Ok ([ "# Interview Transcript: " +:+ project_name;
        "";
        "**Generated:** " +:+ now_header;
        "";
        "---";
        "";
        "## Full Transcription";
        "";
        transcription;
        "";
        "---";
        "" ]
      ++ key_moments ++
      [ "## Document Information";
        "";
        "- **Tool:** Retro Professional Transcribe Tool";
        "- **Format:** Professional Interview Transcript";
        "- **Export Date:** " +:+ now_footer ]).

Definition generate_markdown (now_header now_footer : string)
    (transcription : string) (up_sots : list up_sot) (project_name : string)
    : result string :=
  Text.join Text.newline
    <$> markdown_lines now_header now_footer transcription up_sots
                       project_name.

(** ** The EDL route, [export_edl] *)

(** The JSON body of an export request. *)
Record export_request := mk_export_request {
  req_up_sots : option (list up_sot);
  req_project_name : option string;
  req_transcription : option string
}.

(** What a route answers: a JSON error object with its status code (and,
    for a caught exception, the exception appended to the message), or a
    file sent as an attachment. *)
Inductive response :=
  | JsonError (status : Z) (error : string) (cause : option py_error)
  | SendFile (content download_name mimetype : string).

(** What becomes of a generated document.  The route writes it to a
    temporary file and hands that file to [send_file] under a download
    name; both steps are inside the [try] and either can raise (the file
    system, the encoding of the file, a download name that [send_file]
    refuses).  A [delivery] tells, for a document and a download name,
    the exception raised, or [None] when the file is sent. *)
Definition delivery : Type := string -> string -> option py_error.

(** [stamp] is [datetime.now().strftime('%Y%m%d_%H%M%S')]. *)
Definition export_edl (send : delivery) (stamp : string)
    (data : export_request) : response :=
  let up_sots := default [] (req_up_sots data) in
  let project_name := default "Interview" (req_project_name data) in
  match up_sots with
  | [] => JsonError 400 "No up-sots provided" None
  | _ =>
      match generate_edl up_sots project_name with
      | Ok edl_content =>
          let download_name :=
            project_name +:+ "_upsots_" +:+ stamp +:+ ".edl" in
          match send edl_content download_name with
          | None => SendFile edl_content download_name "text/plain"
          | Some e => JsonError 500 "EDL export failed: " (Some e)
          end
      | Raise e => JsonError 500 "EDL export failed: " (Some e)
      end
  end.

(** ** Reading aids for the documents *)

(** The exact value of the sort key of an entry. *)
Definition key_value (u : up_sot) : option Num.ext :=
  Num.value (timestamp_or_0 u).

(** The sort keys are numbers other than NaN and pairwise different in
    value. *)
Definition distinct_timestamps (up_sots : list up_sot) : Prop :=
  Forall (fun u => is_Some (key_value u)) up_sots /\
  NoDup (key_value <$> up_sots).

(** The entry a record stands for once every absent key has taken its
    default. *)
Definition with_defaults (u : up_sot) : up_sot :=
  mk_up_sot (Some (timestamp_or_0 u)) (Some (type_or_default u))
            (Some (description_or_default u)) (Some (confidence_or_0 u)).

(** A record with no key at all. *)
Definition empty_up_sot : up_sot := mk_up_sot None None None None.

(** Two entries one second in, told apart by their descriptions only. *)
Definition first_at_3 : up_sot :=
  mk_up_sot (Some (Num.Int 3)) (Some "question") (Some "first")
            (Some (Num.Float (Num.literal 8 10))).

(** An entry that has a timestamp and nothing else. *)
Definition bare_at_90_5 : up_sot :=
  mk_up_sot (Some (Num.Float (Num.literal 905 10))) None None None.

Definition entry_at_9 : up_sot :=
  mk_up_sot (Some (Num.Int 9)) (Some "question") (Some "Question: x")
            (Some (Num.Float (Num.literal 8 10))).
Definition entry_at_90_5 : up_sot :=
  mk_up_sot (Some (Num.Float (Num.literal 905 10))) (Some "aside_note")
            (Some "x") (Some (Num.Float (Num.literal 9 10))).

(** The lines of the markdown document for that last entry alone. *)
Definition aside_lines : list string :=
  match markdown_lines "2024-01-01 00:00:00" "2024-01-01 00:00:00" ""
                       [entry_at_90_5] "Interview" with
  | Ok lines => lines
  | Raise _ => []
  end.

(** An entry that has a timestamp and nothing else, the timestamp being a
    NaN. *)
Definition entry_at_nan : up_sot :=
  mk_up_sot (Some (Num.Float S754_nan)) None None None.

(** [block] is a run of consecutive lines of [lines]. *)
Definition part_of (block lines : list string) : Prop :=
  exists before after, lines = before ++ block ++ after.

(** A delivery that goes through, and one that [send_file] refuses. *)
Definition sent : delivery := fun _ _ => None.
Definition refused : delivery := fun _ _ => Some ValueError.

(** ** The timecodes as the specification words them *)

Module Spec.





(** The label of a type, one character at a time: an underscore becomes a
    space; a letter is in upper case at the start of a word and in lower
    case inside one.  A word is a run of letters, so a character is inside
    a word when the character before it is a letter. *)
Definition inside_word (s : string) (n : nat) : bool :=
  match n with
  | O => false
  | S m =>
      match String.get m s with
      | Some before => Text.is_cased before
      | None => false
      end
  end.

Definition label_char (s : string) (n : nat) (c : ascii) : ascii :=
  if Ascii.eqb c "_" then " "%char
  else if inside_word s n then Text.lower_char c else Text.upper_char c.



End Spec.

(** ** Reading aids for binary64 values *)

(** Zero, or a finite value whose exponent field is at most 971 (as in
    every binary64 value) and whose magnitude is below [2^k]. *)
Definition below_pow2 (k : Z) (x : spec_float) : Prop :=
  match x with
  | S754_zero _ => True
  | S754_finite _ m e => e <= 971 /\ Zpos (digits2_pos m) + e <= k
  | S754_infinity _ | S754_nan => False
  end.

(** A JSON number the generators can turn into a timecode or a percentage:
    any [int], or a float of magnitude below [2^900]. *)
Definition moderate (x : Num.number) : Prop :=
  match x with
  | Num.Int _ => True
  | Num.Float f => below_pow2 900 f
  end.

Definition absent_or_moderate (field : option Num.number) : Prop :=
  match field with
  | None => True
  | Some x => moderate x
  end.

(** The divisors and factors the generators use, as binary64 values. *)
Definition small_constant (w : spec_float) : Prop :=
  match w with
  | S754_finite false m e =>
      -60 <= e <= 0 /\ 1 <= Zpos (digits2_pos m) + e <= 13
  | _ => False
  end.

(** ** Reading aids for the text primitives *)

(** [s] without the characters that satisfy [p]. *)
Fixpoint remove_chars (p : ascii -> bool) (s : string) : string :=
  match s with
  | EmptyString => EmptyString
  | String c s' => if p c then remove_chars p s' else String c (remove_chars p s')
  end.

Definition no_terminal (s : string) : bool :=
  all_chars (fun c => negb (Text.is_terminal c)) s.

(** ** Reading aids for the sorted entries *)

Global Instance ext_eq_dec : EqDecision Num.ext.
Proof. solve_decision. Defined.

(** [a] may come before [b] in a list sorted by timestamp: [b]'s key is not
    below [a]'s. *)
Definition not_after (a b : up_sot) : Prop :=
  Num.ltb (timestamp_or_0 b) (timestamp_or_0 a) = false.

(** No sort key of the list is a NaN. *)
Definition no_nan_timestamp (up_sots : list up_sot) : Prop :=
  Forall (fun u => is_Some (key_value u)) up_sots.

(** ** Reading aids for the documents and routes *)

(** The EDL document of two entries. *)
Definition two_entry_edl_document : string :=
  match generate_edl [entry_at_9; first_at_3] "Interview" with
  | Ok document => document
  | Raise _ => ""
  end.

(** A timestamp that is a NaN or an infinity. *)
Definition non_finite (x : Num.number) : Prop :=
  match x with
  | Num.Float S754_nan | Num.Float (S754_infinity _) => True
  | _ => False
  end.

Definition entry_with_nan_confidence : up_sot :=
  mk_up_sot (Some (Num.Int 3)) None None (Some (Num.Float S754_nan)).

(** ** The text route, [export_txt] *)

(** [now] is the clock as [generate_txt] formats it, [stamp] the clock as
    the download name formats it, [send] what becomes of the document. *)
Definition export_txt (send : delivery) (now stamp : string)
    (data : export_request) : response :=
  let transcription := default "" (req_transcription data) in
  let up_sots := default [] (req_up_sots data) in
  let project_name := default "Interview" (req_project_name data) in
  match generate_txt now transcription up_sots project_name with
  | Ok txt_content =>
      let download_name :=
        project_name +:+ "_transcript_" +:+ stamp +:+ ".txt" in
      match send txt_content download_name with
      | None => SendFile txt_content download_name "text/plain"
      | Some e => JsonError 500 "TXT export failed: " (Some e)
      end
  | Raise e => JsonError 500 "TXT export failed: " (Some e)
  end.

(** The answer of a route once its document [content] is generated: the
    file when the delivery goes through, status 500 when it raises. *)
Definition delivered (send : delivery) (failure content download_name : string)
    : response :=
  match send content download_name with
  | None => SendFile content download_name "text/plain"
  | Some e => JsonError 500 failure (Some e)
  end.

(** An entry whose timestamp and confidence are each absent, an [int], or a
    binary64 value of magnitude below [2^900]. *)
Definition renderable (u : up_sot) : Prop :=
  absent_or_moderate (get_timestamp u) /\ absent_or_moderate (get_confidence u).

(** A transcript with two up-sots. *)
Definition question_then_outlook : string :=
  "Can you tell us about it? Looking ahead, it is fine.".

(** ** Facts about the detector *)

Section DetectorFacts.

Lemma append_on_first_existsb {A B : Type} (test : A -> bool) xs (item : B) :
  append_on_first test xs item = if existsb test xs then [item] else [].
Proof.
  induction xs as [|x xs IH]; simpl; [done|].
  destruct (test x); simpl; [done | exact IH].
Qed.

Lemma scan_sentence_unfold i raw :
  scan_sentence i raw =
    let sentence := Text.lower (Text.strip raw) in
    if (String.length sentence <? 10)%nat then []
    else (when (is_question sentence) (question_of i sentence)
          ++ when (is_key_moment sentence) (key_moment_of i sentence)
          ++ when (is_topic_transition sentence)
                  (topic_transition_of i sentence))%list.
Proof.
  unfold scan_sentence; cbv zeta.
  destruct (String.length _ <? 10)%nat; [done|].
  by rewrite !append_on_first_existsb.
Qed.

Lemma scan_sentence_timestamp i raw u :
  u ∈ scan_sentence i raw -> timestamp u = i * 3.
Proof.
  rewrite scan_sentence_unfold; cbv zeta.
  destruct (String.length _ <? 10)%nat; [by intros ?%elem_of_nil|].
  unfold when.
  destruct (is_question _), (is_key_moment _), (is_topic_transition _);
    simpl; rewrite ?elem_of_cons, elem_of_nil; intros H;
    repeat destruct H as [->|H]; done.
Qed.

Lemma remove_duplicates_seen seen c r t :
  (forall u, u ∈ c -> timestamp u = t) -> t ∈ seen ->
  remove_duplicates seen (c ++ r) = remove_duplicates seen r.
Proof.
  intros Hc Ht. induction c as [|u c IH]; simpl; [done|].
  rewrite (Hc u) by apply list_elem_of_here.
  rewrite decide_True by done.
  apply IH. intros v Hv. apply Hc. by apply list_elem_of_further.
Qed.

Lemma remove_duplicates_block seen c r t :
  (forall u, u ∈ c -> timestamp u = t) -> t ∉ seen ->
  remove_duplicates seen (c ++ r) =
    (first_of c ++
     remove_duplicates (match c with [] => seen | _ => {[ t ]} ∪ seen end) r)%list.
Proof.
  intros Hc Ht. destruct c as [|u c]; simpl; [done|].
  rewrite (Hc u) by apply list_elem_of_here.
  rewrite decide_False by done. f_equal.
  apply (remove_duplicates_seen _ c r t); [|set_solver].
  intros v Hv. apply Hc. by apply list_elem_of_further.
Qed.

Lemma remove_duplicates_scan xs : forall seen i,
  (forall t, t ∈ seen -> t < i * 3) ->
  remove_duplicates seen
    (flat_map (fun p => scan_sentence (fst p) (snd p)) (enumerate_from i xs))
  = kept (enumerate_from i xs).
Proof.
  induction xs as [|x xs IH]; intros seen i Hseen; simpl; [done|].
  rewrite (remove_duplicates_block _ _ _ (i * 3)).
  - f_equal. apply IH. intros t Ht.
    destruct (scan_sentence i x); [apply Hseen in Ht; lia|].
    apply elem_of_union in Ht as [->%elem_of_singleton|Ht]; [lia|].
    apply Hseen in Ht; lia.
  - intros u. apply scan_sentence_timestamp.
  - intros Hin. apply Hseen in Hin. lia.
Qed.

Lemma first_of_subseteq {B : Type} (xs : list B) x :
  x ∈ first_of xs -> x ∈ xs.
Proof.
  destruct xs as [|y ys]; simpl; [done|].
  intros ->%list_elem_of_singleton. apply list_elem_of_here.
Qed.

Lemma kept_ascending xs : forall i,
  StronglySorted ascending (kept (enumerate_from i xs)) /\
  Forall (fun u => i * 3 <= timestamp u) (kept (enumerate_from i xs)).
Proof.
  induction xs as [|x xs IH]; intros i; simpl.
  { split; constructor. }
  destruct (IH (i + 1)) as [Hs Hb].
  assert (Hb' : Forall (fun u => i * 3 < timestamp u)
                       (kept (enumerate_from (i + 1) xs))).
  { eapply Forall_impl; [exact Hb|]. simpl. intros; lia. }
  destruct (scan_sentence i x) as [|u c] eqn:E; simpl.
  - split; [done|]. eapply Forall_impl; [exact Hb'|]. simpl. intros; lia.
  - assert (Hu : timestamp u = i * 3).
    { apply (scan_sentence_timestamp i x). rewrite E. apply list_elem_of_here. }
    split.
    + constructor; [done|]. unfold ascending. rewrite Hu. exact Hb'.
    + constructor; [lia|]. eapply Forall_impl; [exact Hb'|]. simpl. intros; lia.
Qed.

Lemma py_sorted_ascending (xs : list UpSot) :
  StronglySorted ascending xs -> py_sorted Z.ltb timestamp xs = xs.
Proof.
  induction 1 as [|x xs Hs IH Hx]; simpl; [done|].
  rewrite IH. destruct xs as [|y ys]; simpl; [done|].
  apply Forall_cons in Hx as [Hxy _]. unfold ascending in Hxy.
  by rewrite (proj2 (Z.ltb_ge _ _)) by lia.
Qed.

(** The detector returns, for each unit in scan order, the first of the
    candidates the unit yields. *)
Lemma detect_up_sots_kept text :
  detect_up_sots text = kept (enumerate_from 0 (Text.re_split text)).
Proof.
  unfold detect_up_sots, scan; cbv zeta.
  rewrite remove_duplicates_scan by (intros t Ht; set_solver).
  apply py_sorted_ascending, kept_ascending.
Qed.

Lemma elem_of_flat_map_enumerate {B : Type} (f : Z -> string -> list B) xs :
  forall k u,
  u ∈ flat_map (fun p => f (fst p) (snd p)) (enumerate_from k xs) <->
  exists (n : nat) raw, xs !! n = Some raw /\ u ∈ f (k + Z.of_nat n) raw.
Proof.
  induction xs as [|x xs IH]; intros k u; simpl.
  { split; [by intros ?%elem_of_nil | by intros (n & raw & ? & _)]. }
  rewrite elem_of_app, IH. split.
  - intros [H|(n & raw & Hn & H)].
    + exists 0%nat, x. split; [done|].
      by replace (k + Z.of_nat 0) with k by lia.
    + exists (S n), raw. split; [done|].
      by replace (k + Z.of_nat (S n)) with (k + 1 + Z.of_nat n) by lia.
  - intros ([|n] & raw & Hn & H); simpl in Hn.
    + injection Hn as ->. left.
      by replace (k + Z.of_nat 0) with k in H by lia.
    + right. exists n, raw. split; [done|].
      by replace (k + 1 + Z.of_nat n) with (k + Z.of_nat (S n)) by lia.
Qed.

Lemma elem_of_kept xs u :
  u ∈ kept (enumerate_from 0 xs) <->
  exists (n : nat) raw,
    xs !! n = Some raw /\ u ∈ first_of (scan_sentence (Z.of_nat n) raw).
Proof.
  unfold kept.
  apply (elem_of_flat_map_enumerate
           (fun i raw => first_of (scan_sentence i raw))).
Qed.

Lemma elem_of_scan xs u :
  u ∈ scan xs <->
  exists (n : nat) raw,
    xs !! n = Some raw /\ u ∈ scan_sentence (Z.of_nat n) raw.
Proof. unfold scan. apply (elem_of_flat_map_enumerate scan_sentence). Qed.

Lemma filter_all {A : Type} (P : A -> Prop) `{!forall x, Decision (P x)}
    (xs : list A) :
  Forall P xs -> filter P xs = xs.
Proof.
  induction 1 as [|x xs Hx _ IH]; [done|].
  by rewrite filter_cons_True, IH.
Qed.

Lemma filter_none {A : Type} (P : A -> Prop) `{!forall x, Decision (P x)}
    (xs : list A) :
  Forall (fun x => ~ P x) xs -> filter P xs = [].
Proof.
  induction 1 as [|x xs Hx _ IH]; [done|].
  by rewrite filter_cons_False, IH.
Qed.

Lemma first_of_timestamp i raw :
  Forall (fun u => timestamp u = i * 3) (first_of (scan_sentence i raw)).
Proof.
  apply Forall_forall. intros u Hu%first_of_subseteq.
  by apply scan_sentence_timestamp in Hu.
Qed.

(** The survivors stamped with the time of unit [n] are the survivors of
    unit [n]. *)
Lemma kept_at xs : forall k (n : nat) raw,
  xs !! n = Some raw ->
  filter (fun u => timestamp u = (k + Z.of_nat n) * 3)
         (kept (enumerate_from k xs))
  = first_of (scan_sentence (k + Z.of_nat n) raw).
Proof.
  induction xs as [|x xs IH]; intros k n raw Hn; [done|].
  simpl. rewrite filter_app. destruct n as [|n]; simpl in Hn.
  - injection Hn as ->. replace (k + Z.of_nat 0) with k by lia.
    rewrite filter_all by apply first_of_timestamp.
    rewrite filter_none; [by rewrite app_nil_r|].
    destruct (kept_ascending xs (k + 1)) as [_ Hb].
    eapply Forall_impl; [exact Hb|]. simpl. intros; lia.
  - rewrite filter_none.
    + replace (k + Z.of_nat (S n)) with (k + 1 + Z.of_nat n) by lia. by apply IH.
    + eapply Forall_impl; [apply first_of_timestamp|]. simpl. intros; lia.
Qed.

Lemma first_of_length {B : Type} (xs : list B) : (length (first_of xs) <= 1)%nat.
Proof. destruct xs; simpl; lia. Qed.

(** [str.lower] keeps the length of a string of code points below 256. *)
Lemma lower_length s : String.length (Text.lower s) = String.length s.
Proof. induction s as [|c s IH]; simpl; [done | by rewrite IH]. Qed.

Lemma scan_sentence_long i raw u :
  u ∈ scan_sentence i raw ->
  (10 <= String.length (Text.lower (Text.strip raw)))%nat.
Proof.
  unfold scan_sentence; cbv zeta.
  destruct (String.length (Text.lower (Text.strip raw)) <? 10)%nat eqn:E.
  - by intros ?%elem_of_nil.
  - intros _. apply Nat.ltb_ge in E. exact E.
Qed.

Lemma ascending_timestamps xs :
  StronglySorted ascending xs -> StronglySorted Z.lt (timestamp <$> xs).
Proof.
  induction 1 as [|x xs _ IH Hx]; simpl; constructor; [done|].
  apply Forall_fmap. exact Hx.
Qed.

Lemma StronglySorted_lt_NoDup (zs : list Z) :
  StronglySorted Z.lt zs -> NoDup zs.
Proof.
  induction 1 as [|z zs _ IH Hz]; constructor; [|done].
  intros Hin. rewrite Forall_forall in Hz. specialize (Hz z Hin). lia.
Qed.

Lemma StronglySorted_lt_le (zs : list Z) :
  StronglySorted Z.lt zs -> StronglySorted Z.le zs.
Proof.
  induction 1 as [|z zs _ IH Hz]; constructor; [done|].
  eapply Forall_impl; [exact Hz|]. simpl. intros; lia.
Qed.

Lemma detect_up_sots_ascending text :
  StronglySorted ascending (detect_up_sots text).
Proof. rewrite detect_up_sots_kept. apply kept_ascending. Qed.

Lemma detect_up_sots_at text (i : nat) raw :
  Text.re_split text !! i = Some raw ->
  filter (fun u => timestamp u = Z.of_nat i * 3) (detect_up_sots text)
  = first_of (scan_sentence (Z.of_nat i) raw).
Proof.
  intros Hi. rewrite detect_up_sots_kept.
  exact (kept_at _ 0 i raw Hi).
Qed.

End DetectorFacts.

(** ** Facts about [sorted] *)

Section SortedFacts.
Context {A K : Type} (lt : K -> K -> bool) (key : A -> K).

Let below (a b : A) : Prop := lt (key a) (key b) = true.

Hypothesis lt_trans : forall x y z,
  lt x y = true -> lt y z = true -> lt x z = true.
Hypothesis lt_asym : forall x y, lt x y = true -> lt y x = true -> False.

Lemma insert_sorted_perm x xs : insert_sorted lt key x xs ≡ₚ x :: xs.
Proof.
  induction xs as [|y ys IH]; simpl; [done|].
  destruct (lt (key y) (key x)); [|done].
  rewrite IH. apply Permutation_swap.
Qed.

Lemma py_sorted_perm xs : py_sorted lt key xs ≡ₚ xs.
Proof.
  induction xs as [|x xs IH]; simpl; [done|].
  by rewrite insert_sorted_perm, IH.
Qed.

Lemma insert_sorted_strongly x xs :
  StronglySorted below xs ->
  Forall (fun y => below x y \/ below y x) xs ->
  StronglySorted below (insert_sorted lt key x xs).
Proof.
  induction 1 as [|y ys Hys IH Hy]; intros Hx; simpl.
  { repeat constructor. }
  apply Forall_cons in Hx as [Hxy Hx].
  destruct (lt (key y) (key x)) eqn:E.
  - constructor; [by apply IH|].
    rewrite insert_sorted_perm. by constructor.
  - assert (Hb : below x y) by (destruct Hxy as [?|Hyx]; [done|]; unfold below in Hyx; congruence).
    constructor; [by constructor|].
    constructor; [done|].
    eapply Forall_impl; [exact Hy|]. simpl. intros z Hz.
    unfold below in *. by eapply lt_trans.
Qed.

Lemma py_sorted_strongly xs :
  ForallOrdPairs (fun a b => below a b \/ below b a) xs ->
  StronglySorted below (py_sorted lt key xs).
Proof.
  induction 1 as [|x xs Hx _ IH]; simpl; [constructor|].
  apply insert_sorted_strongly; [done|].
  by rewrite py_sorted_perm.
Qed.

(** Two lists with the same elements, all keys comparable, sort to the
    same list. *)
Lemma py_sorted_unique xs ys :
  xs ≡ₚ ys ->
  ForallOrdPairs (fun a b => below a b \/ below b a) xs ->
  ForallOrdPairs (fun a b => below a b \/ below b a) ys ->
  py_sorted lt key xs = py_sorted lt key ys.
Proof.
  intros Hp Hxs Hys.
  apply (StronglySorted_unique_strong below).
  - intros a b _ _ Hab Hba. exfalso. by eapply lt_asym.
  - by apply py_sorted_strongly.
  - by apply py_sorted_strongly.
  - by rewrite !py_sorted_perm.
Qed.
End SortedFacts.

Section KeyFacts.

Lemma ext_ltb_trans x y z :
  Num.ext_ltb x y = true -> Num.ext_ltb y z = true -> Num.ext_ltb x z = true.
Proof.
  destruct x, y, z; simpl; try done.
  rewrite !Z.ltb_lt. lia.
Qed.

Lemma ext_ltb_asym x y :
  Num.ext_ltb x y = true -> Num.ext_ltb y x = true -> False.
Proof. destruct x, y; simpl; try done. rewrite !Z.ltb_lt. lia. Qed.

Lemma ext_ltb_total x y :
  x <> y -> Num.ext_ltb x y = true \/ Num.ext_ltb y x = true.
Proof.
  destruct x as [|a|], y as [|b|]; simpl; auto; try done.
  intros Hne. rewrite !Z.ltb_lt.
  destruct (Z.lt_trichotomy a b) as [?|[->|?]]; auto. done.
Qed.

Lemma ltb_trans x y z :
  Num.ltb x y = true -> Num.ltb y z = true -> Num.ltb x z = true.
Proof.
  unfold Num.ltb.
  destruct (Num.value x), (Num.value y), (Num.value z); try done.
  apply ext_ltb_trans.
Qed.

Lemma ltb_asym x y : Num.ltb x y = true -> Num.ltb y x = true -> False.
Proof.
  unfold Num.ltb. destruct (Num.value x), (Num.value y); try done.
  apply ext_ltb_asym.
Qed.

Lemma distinct_timestamps_comparable up_sots :
  distinct_timestamps up_sots ->
  ForallOrdPairs
    (fun a b => Num.ltb (timestamp_or_0 a) (timestamp_or_0 b) = true \/
                Num.ltb (timestamp_or_0 b) (timestamp_or_0 a) = true)
    up_sots.
Proof.
  intros [Hsome Hnodup].
  induction up_sots as [|u us IH]; [constructor|].
  apply Forall_cons in Hsome as [Hu Hus].
  rewrite fmap_cons in Hnodup. apply NoDup_cons in Hnodup as [Hnin Hnodup].
  constructor; [|by apply IH].
  apply Forall_forall. intros v Hv.
  assert (Hv' : is_Some (key_value v)) by (rewrite Forall_forall in Hus; auto).
  destruct Hu as [a Ha], Hv' as [b Hb].
  unfold Num.ltb. fold (key_value u) (key_value v). rewrite Ha, Hb.
  apply ext_ltb_total. intros ->.
  apply Hnin. apply list_elem_of_fmap. exists v. split; [congruence | done].
Qed.

Lemma distinct_timestamps_perm xs ys :
  xs ≡ₚ ys -> distinct_timestamps xs -> distinct_timestamps ys.
Proof.
  intros Hp [Hsome Hnodup]. split.
  - by rewrite <- Hp.
  - by rewrite <- Hp.
Qed.

Lemma sorted_up_sots_perm xs ys :
  xs ≡ₚ ys -> distinct_timestamps xs ->
  sorted_up_sots xs = sorted_up_sots ys.
Proof.
  intros Hp Hd. unfold sorted_up_sots.
  apply py_sorted_unique; [apply ltb_trans | apply ltb_asym | done | |].
  - by apply distinct_timestamps_comparable.
  - by apply distinct_timestamps_comparable, (distinct_timestamps_perm xs).
Qed.

(** What the detector returns has pairwise distinct timestamps in the
    sense the generators need. *)
Lemma detect_up_sots_distinct_timestamps text :
  distinct_timestamps (jsonify <$> detect_up_sots text).
Proof.
  pose proof (StronglySorted_lt_NoDup _
                (ascending_timestamps _ (detect_up_sots_ascending text)))
    as Hnodup.
  split.
  - apply Forall_fmap, Forall_forall. intros u _. by eexists.
  - rewrite <- list_fmap_compose.
    change (key_value ∘ jsonify)
      with ((fun z => Some (Num.Fin (z * 2 ^ 1074))) ∘ timestamp).
    rewrite list_fmap_compose. apply NoDup_fmap_2; [|done].
    intros a b [=]. apply Z.mul_cancel_r in H0; [done|].
    apply Z.pow_nonzero; lia.
Qed.

End KeyFacts.

(** ** Facts about binary64 arithmetic: no overflow on moderate values *)

Section FloatFacts.

Lemma digits2_pos_size p : digits2_pos p = Pos.size p.
Proof. induction p as [p IH|p IH|]; simpl; by rewrite ?IH. Qed.

Lemma Zdigits2_log2 z : 0 < z -> Zdigits2 z = Z.log2 z + 1.
Proof.
  destruct z as [|p|p]; [lia| |lia]. intros _. simpl.
  destruct p as [p|p|]; simpl; rewrite ?digits2_pos_size; lia.
Qed.

Lemma Zdigits2_nonneg z : 0 <= Zdigits2 z.
Proof. destruct z; simpl; lia. Qed.

(** A non-negative integer has at most [k] binary digits exactly when it
    is below [2^k]. *)
Lemma Zdigits2_le z k : 0 <= z -> 0 <= k -> Zdigits2 z <= k <-> z < 2 ^ k.
Proof.
  intros Hz Hk. destruct (Z.eq_dec z 0) as [->|Hne].
  { simpl. split; [intros _; apply Z.pow_pos_nonneg; lia | lia]. }
  rewrite Zdigits2_log2 by lia.
  rewrite (Z.log2_lt_pow2 z k) by lia. lia.
Qed.

Lemma Zdigits2_pos p : Zdigits2 (Zpos p) = Zpos (digits2_pos p).
Proof. reflexivity. Qed.

Lemma Zdigits2_mul_pow2 z n :
  0 < z -> 0 <= n -> Zdigits2 (z * 2 ^ n) = Zdigits2 z + n.
Proof.
  intros Hz Hn. rewrite !Zdigits2_log2; [|lia|].
  - rewrite Z.log2_mul_pow2 by lia. lia.
  - apply Z.mul_pos_pos; [lia|]. apply Z.pow_pos_nonneg; lia.
Qed.

Lemma Zdigits2_mono a b : 0 <= a <= b -> Zdigits2 a <= Zdigits2 b.
Proof.
  intros [Ha Hab]. destruct (Z.eq_dec a 0) as [->|Hne].
  { apply Zdigits2_nonneg. }
  rewrite !Zdigits2_log2 by lia.
  pose proof (Z.log2_le_mono a b Hab). lia.
Qed.

Lemma Zdigits2_div_pow2 z n :
  0 <= z -> 0 <= n -> Zdigits2 (z / 2 ^ n) <= Z.max (Zdigits2 z - n) 0.
Proof.
  intros Hz Hn.
  assert (Hp : 0 < 2 ^ n) by (apply Z.pow_pos_nonneg; lia).
  assert (Hq : 0 <= z / 2 ^ n) by (apply Z.div_pos; lia).
  apply Zdigits2_le; [done | lia |].
  pose proof (Zdigits2_nonneg z) as Hd.
  assert (Hzb : z < 2 ^ Zdigits2 z) by (apply Zdigits2_le; lia).
  apply Z.div_lt_upper_bound; [done|].
  destruct (Z.le_gt_cases n (Zdigits2 z)) as [Hle|Hgt].
  - rewrite Z.max_l by lia. rewrite <- Z.pow_add_r by lia.
    by replace (n + (Zdigits2 z - n)) with (Zdigits2 z) by lia.
  - rewrite Z.max_r by lia. rewrite Z.pow_0_r, Z.mul_1_r.
    eapply Z.lt_le_trans; [exact Hzb|].
    apply Z.pow_le_mono_r; lia.
Qed.

Lemma Zdigits2_succ z : 0 <= z -> Zdigits2 (z + 1) <= Zdigits2 z + 1.
Proof.
  intros Hz. pose proof (Zdigits2_nonneg z) as Hd.
  apply Zdigits2_le; [lia | lia |].
  assert (Hzb : z < 2 ^ Zdigits2 z) by (apply Zdigits2_le; lia).
  rewrite Z.pow_add_r, Z.pow_1_r by lia. lia.
Qed.

Lemma Zdigits2_add a b :
  0 <= a -> 0 <= b ->
  Zdigits2 (a + b) <= Z.max (Zdigits2 a) (Zdigits2 b) + 1.
Proof.
  intros Ha Hb.
  pose proof (Zdigits2_nonneg a) as Hda. pose proof (Zdigits2_nonneg b) as Hdb.
  apply Zdigits2_le; [lia | lia |].
  assert (Hab : a < 2 ^ Z.max (Zdigits2 a) (Zdigits2 b)).
  { eapply Z.lt_le_trans; [apply Zdigits2_le; [done | | reflexivity]; lia|].
    apply Z.pow_le_mono_r; lia. }
  assert (Hbb : b < 2 ^ Z.max (Zdigits2 a) (Zdigits2 b)).
  { eapply Z.lt_le_trans; [apply Zdigits2_le; [done | | reflexivity]; lia|].
    apply Z.pow_le_mono_r; lia. }
  rewrite Z.pow_add_r, Z.pow_1_r by lia. lia.
Qed.

Lemma Zdigits2_mul a b :
  0 <= a -> 0 <= b -> Zdigits2 (a * b) <= Zdigits2 a + Zdigits2 b.
Proof.
  intros Ha Hb.
  pose proof (Zdigits2_nonneg a) as Hda. pose proof (Zdigits2_nonneg b) as Hdb.
  apply Zdigits2_le; [lia | lia |].
  assert (Hab : a < 2 ^ Zdigits2 a) by (apply Zdigits2_le; lia).
  assert (Hbb : b < 2 ^ Zdigits2 b) by (apply Zdigits2_le; lia).
  rewrite Z.pow_add_r by lia. nia.
Qed.

Lemma shr_1_m r : 0 <= shr_m r -> shr_m (shr_1 r) = shr_m r / 2.
Proof.
  destruct r as [m rb sb]; simpl. intros Hm.
  rewrite <- Z.div2_div. by destruct m as [|[p|p|]|p].
Qed.

Lemma iter_pos_shr_m n : forall r,
  0 <= shr_m r -> shr_m (SpecFloat.iter_pos shr_1 n r) = shr_m r / 2 ^ Zpos n.
Proof.
  assert (Hdiv : forall a b c, 0 <= a -> 0 < b -> 0 < c ->
            a / (b * c) = a / b / c).
  { intros. symmetry. apply Z.div_div; lia. }
  assert (Hnn : forall a b, 0 <= a -> 0 < b -> 0 <= a / b).
  { intros. apply Z.div_pos; lia. }
  induction n as [n IH|n IH|]; intros r Hr; simpl SpecFloat.iter_pos.
  - assert (Hp : 0 < 2 ^ Zpos n) by (by apply Z.pow_pos_nonneg).
    assert (HxI : 2 ^ Zpos n~1 = 2 * (2 ^ Zpos n * 2 ^ Zpos n)).
    { replace (Zpos n~1) with (1 + (Zpos n + Zpos n)) by lia.
      rewrite !Z.pow_add_r by lia. lia. }
    assert (H1 : 0 <= shr_m (shr_1 r)).
    { rewrite shr_1_m by done. apply Hnn; lia. }
    assert (H2 : 0 <= shr_m (SpecFloat.iter_pos shr_1 n (shr_1 r))).
    { rewrite IH by done. by apply Hnn. }
    rewrite IH, IH, shr_1_m by done.
    rewrite HxI, Hdiv, Hdiv; auto with zarith.
  - assert (Hp : 0 < 2 ^ Zpos n) by (by apply Z.pow_pos_nonneg).
    assert (HxO : 2 ^ Zpos n~0 = 2 ^ Zpos n * 2 ^ Zpos n).
    { replace (Zpos n~0) with (Zpos n + Zpos n) by lia.
      by rewrite Z.pow_add_r by lia. }
    assert (H2 : 0 <= shr_m (SpecFloat.iter_pos shr_1 n r)).
    { rewrite IH by done. by apply Hnn. }
    rewrite IH, IH by done.
    rewrite HxO, Hdiv; auto with zarith.
  - by rewrite shr_1_m.
Qed.

Lemma shr_record_of_loc_m m l : shr_m (shr_record_of_loc m l) = m.
Proof. by destruct l as [|[| |]]. Qed.

(** The exponent the rounding settles on, and the mantissa that is left. *)
Lemma shr_fexp_spec m e l :
  0 <= m ->
  snd (shr_fexp 53 1024 m e l) = Z.max e (fexp 53 1024 (Zdigits2 m + e)) /\
  shr_m (fst (shr_fexp 53 1024 m e l))
    = m / 2 ^ (snd (shr_fexp 53 1024 m e l) - e).
Proof.
  intros Hm. unfold shr_fexp, shr.
  destruct (fexp 53 1024 (Zdigits2 m + e) - e) as [|p|p] eqn:E; simpl.
  - rewrite shr_record_of_loc_m. split; [lia|].
    by rewrite Z.sub_diag, Z.pow_0_r, Z.div_1_r.
  - rewrite iter_pos_shr_m by (by rewrite shr_record_of_loc_m).
    rewrite shr_record_of_loc_m. split; [lia|].
    by replace (e + Zpos p - e) with (Zpos p) by lia.
  - rewrite shr_record_of_loc_m. split; [lia|].
    by rewrite Z.sub_diag, Z.pow_0_r, Z.div_1_r.
Qed.

Lemma fexp_eq x : fexp 53 1024 x = Z.max (x - 53) (-1074).
Proof. reflexivity. Qed.

Lemma round_nearest_even_bounds m l :
  m <= round_nearest_even m l <= m + 1.
Proof.
  destruct l as [|[| |]]; simpl; try lia. destruct (Z.even m); lia.
Qed.

(** Rounding a non-negative mantissa of magnitude below [2^k] neither
    overflows nor yields a NaN. *)
Lemma binary_round_aux_below s m e l k :
  0 <= m -> e <= 971 -> Zdigits2 m + e <= k -> -1074 <= k <= 1023 ->
  below_pow2 (k + 1) (binary_round_aux 53 1024 s m e l).
Proof.
  intros Hm He Hk Hrange. unfold binary_round_aux.
  destruct (shr_fexp_spec m e l Hm) as [He1 Hm1].
  destruct (shr_fexp 53 1024 m e l) as [mrs1 e1]. simpl in He1, Hm1.
  set (m1 := round_nearest_even (shr_m mrs1) (loc_of_shr_record mrs1)).
  assert (Hm1' : 0 <= shr_m mrs1).
  { rewrite Hm1. apply Z.div_pos; [done|]. apply Z.pow_pos_nonneg; lia. }
  pose proof (round_nearest_even_bounds (shr_m mrs1)
                (loc_of_shr_record mrs1)) as Hr. fold m1 in Hr.
  assert (Hd1 : Zdigits2 (shr_m mrs1) + e1 <= k).
  { rewrite Hm1.
    pose proof (Zdigits2_div_pow2 m (e1 - e) Hm ltac:(lia)).
    pose proof (Zdigits2_nonneg m).
    rewrite fexp_eq in He1. lia. }
  assert (Hdm1 : Zdigits2 m1 + e1 <= k + 1).
  { pose proof (Zdigits2_mono m1 (shr_m mrs1 + 1) ltac:(lia)).
    pose proof (Zdigits2_succ (shr_m mrs1) Hm1'). lia. }
  assert (Hm1nn : 0 <= m1) by lia.
  destruct (shr_fexp_spec m1 e1 loc_Exact Hm1nn) as [He2 Hm2].
  destruct (shr_fexp 53 1024 m1 e1 loc_Exact) as [mrs2 e2].
  simpl in He2, Hm2. rewrite fexp_eq in He1, He2.
  assert (Hm2' : 0 <= shr_m mrs2).
  { rewrite Hm2. apply Z.div_pos; [done|]. apply Z.pow_pos_nonneg; lia. }
  assert (Hd2 : Zdigits2 (shr_m mrs2) + e2 <= k + 1).
  { rewrite Hm2.
    pose proof (Zdigits2_div_pow2 m1 (e2 - e1) Hm1nn ltac:(lia)).
    pose proof (Zdigits2_nonneg m1). lia. }
  assert (He2' : e2 <= 971) by lia.
  destruct (shr_m mrs2) as [|p|p] eqn:Ep; [done| |lia].
  replace (e2 <=? 1024 - 53) with true by (symmetry; apply Z.leb_le; lia).
  simpl. rewrite Zdigits2_pos in Hd2. lia.
Qed.

Lemma pos_iter_xO m d : Zpos (Pos.iter xO m d) = Zpos m * 2 ^ Zpos d.
Proof.
  induction d as [|d IH] using Pos.peano_ind.
  - simpl. lia.
  - rewrite Pos.iter_succ, Pos2Z.inj_xO, IH, Pos2Z.inj_succ.
    rewrite Z.pow_succ_r by lia. lia.
Qed.

Lemma shl_align_spec m e e' :
  snd (shl_align m e e') = Z.min e e' /\
  Zpos (fst (shl_align m e e')) = Zpos m * 2 ^ (e - snd (shl_align m e e')).
Proof.
  unfold shl_align. destruct (e' - e) as [|p|p] eqn:E; simpl.
  - split; [lia|]. rewrite Z.sub_diag. simpl. lia.
  - split; [lia|]. rewrite Z.sub_diag. simpl. lia.
  - split; [lia|]. rewrite pos_iter_xO. do 2 f_equal. lia.
Qed.

Lemma Zdigits2_abs z : Zdigits2 (Z.abs z) = Zdigits2 z.
Proof. by destruct z. Qed.

Lemma binary_round_below s m e k :
  e <= 971 -> Zpos (digits2_pos m) + e <= k -> -1074 <= k <= 1023 ->
  below_pow2 (k + 1) (binary_round 53 1024 s m e).
Proof.
  intros He Hk Hrange. unfold binary_round.
  destruct (shl_align_spec m e (fexp 53 1024 (Zpos (digits2_pos m) + e)))
    as [Hez Hmz].
  destruct (shl_align m e _) as [mz ez]. simpl in Hez, Hmz.
  apply binary_round_aux_below; [lia | lia | | done].
  rewrite Hmz, Zdigits2_mul_pow2 by lia. rewrite Zdigits2_pos. lia.
Qed.

Lemma binary_normalize_below n e s k :
  e <= 971 -> Zdigits2 n + e <= k -> -1074 <= k <= 1023 ->
  below_pow2 (k + 1) (binary_normalize 53 1024 n e s).
Proof.
  intros He Hk Hrange. destruct n as [|p|p]; simpl; [done| |];
    by apply binary_round_below.
Qed.

Lemma below_pow2_mono k k' x : k <= k' -> below_pow2 k x -> below_pow2 k' x.
Proof. destruct x; simpl; try done. lia. Qed.

Lemma fmod_below x sy my ey kx ky :
  below_pow2 kx x ->
  ey <= 971 -> Zpos (digits2_pos my) + ey <= ky -> -1074 <= ky <= 1023 ->
  below_pow2 (ky + 1) (Num.fmod x (S754_finite sy my ey)).
Proof.
  intros Hx Hey Hky Hrange.
  destruct x as [sx|sx| |sx mx ex]; simpl in Hx |- *; try done.
  destruct Hx as [Hex Hkx].
  set (e := Z.min ex ey).
  assert (HY : 0 < Zpos my * 2 ^ (ey - e)).
  { apply Z.mul_pos_pos; [lia|]. apply Z.pow_pos_nonneg; lia. }
  pose proof (Z.mod_pos_bound (Zpos mx * 2 ^ (ex - e)) _ HY) as Hr.
  apply binary_normalize_below; [lia | | done].
  assert (Hd : Zdigits2 (cond_Zopp sx ((Zpos mx * 2 ^ (ex - e))
                                         mod (Zpos my * 2 ^ (ey - e))))
               <= Zdigits2 (Zpos my * 2 ^ (ey - e))).
  { rewrite <- Zdigits2_abs.
    replace (Z.abs (cond_Zopp sx _)) with
      ((Zpos mx * 2 ^ (ex - e)) mod (Zpos my * 2 ^ (ey - e)))
      by (destruct sx; simpl; lia).
    apply Zdigits2_mono. lia. }
  rewrite Zdigits2_mul_pow2 in Hd by lia. rewrite Zdigits2_pos in Hd. lia.
Qed.

(** The aligned mantissas met by addition and subtraction. *)
Lemma aligned_sum_digits sx mx ex sy my ey k (opp : bool) :
  Zpos (digits2_pos mx) + ex <= k -> Zpos (digits2_pos my) + ey <= k ->
  let ez := Z.min ex ey in
  let a := cond_Zopp sx (Zpos (fst (shl_align mx ex ez))) in
  let b := cond_Zopp sy (Zpos (fst (shl_align my ey ez))) in
  Zdigits2 (if opp then a - b else a + b) + ez <= k + 1.
Proof.
  intros Hx Hy ez a b.
  destruct (shl_align_spec mx ex ez) as [Hsx Hmx].
  destruct (shl_align_spec my ey ez) as [Hsy Hmy].
  rewrite Hsx in Hmx. rewrite Hsy in Hmy.
  replace (Z.min ex ez) with ez in Hmx by lia.
  replace (Z.min ey ez) with ez in Hmy by lia.
  set (A := Zpos (fst (shl_align mx ex ez))) in *.
  set (B := Zpos (fst (shl_align my ey ez))) in *.
  assert (HdA : Zdigits2 A + ez <= k).
  { rewrite Hmx, Zdigits2_mul_pow2, Zdigits2_pos by lia. lia. }
  assert (HdB : Zdigits2 B + ez <= k).
  { rewrite Hmy, Zdigits2_mul_pow2, Zdigits2_pos by lia. lia. }
  rewrite <- Zdigits2_abs.
  assert (Habs : 0 <= Z.abs (if opp then a - b else a + b) <= A + B).
  { subst a b. destruct opp, sx, sy; simpl; lia. }
  pose proof (Zdigits2_mono _ _ Habs).
  pose proof (Zdigits2_add A B ltac:(lia) ltac:(lia)). lia.
Qed.

Lemma fsub_below x y k :
  below_pow2 k x -> below_pow2 k y -> -1074 <= k <= 1022 ->
  below_pow2 (k + 2) (Num.fsub x y).
Proof.
  intros Hx Hy Hrange.
  destruct x as [sx|sx| |sx mx ex], y as [sy|sy| |sy my ey];
    simpl in Hx, Hy; try done.
  - by destruct sx, sy.
  - simpl. lia.
  - simpl. lia.
  - destruct Hx as [Hex Hkx], Hy as [Hey Hky].
    unfold Num.fsub, SFsub.
    replace (k + 2) with (k + 1 + 1) by lia.
    apply binary_normalize_below; [lia | | lia].
    exact (aligned_sum_digits sx mx ex sy my ey k true Hkx Hky).
Qed.

Lemma fadd_below x y k :
  below_pow2 k x -> below_pow2 k y -> -1074 <= k <= 1022 ->
  below_pow2 (k + 2) (Num.fadd x y).
Proof.
  intros Hx Hy Hrange.
  destruct x as [sx|sx| |sx mx ex], y as [sy|sy| |sy my ey];
    simpl in Hx, Hy; try done.
  - by destruct sx, sy.
  - simpl. lia.
  - simpl. lia.
  - destruct Hx as [Hex Hkx], Hy as [Hey Hky].
    unfold Num.fadd, SFadd.
    replace (k + 2) with (k + 1 + 1) by lia.
    apply binary_normalize_below; [lia | | lia].
    exact (aligned_sum_digits sx mx ex sy my ey k false Hkx Hky).
Qed.

Lemma fdiv_below x sy my ey k :
  below_pow2 k x ->
  -1074 <= k - ey <= 1023 -> k - (Zpos (digits2_pos my) + ey) <= 1024 ->
  below_pow2 (k - ey + 1) (Num.fdiv x (S754_finite sy my ey)).
Proof.
  intros Hx Hrange Hmag.
  destruct x as [sx|sx| |sx mx ex]; simpl in Hx |- *; try done.
  destruct Hx as [Hex Hkx].
  unfold Num.fdiv, SFdiv, SFdiv_core_binary.
  rewrite !Zdigits2_pos.
  set (e' := Z.min (fexp Num.prec Num.emax
                      (Zpos (digits2_pos mx) + ex
                       - (Zpos (digits2_pos my) + ey))) (ex - ey)).
  assert (He' : e' <= 971).
  { subst e'. change (fexp Num.prec Num.emax) with (fexp 53 1024).
    rewrite fexp_eq. lia. }
  set (m' := match ex - ey - e' with
             | 0 => Zpos mx
             | Zpos _ => Z.shiftl (Zpos mx) (ex - ey - e')
             | Zneg _ => 0
             end).
  assert (Hm' : m' = Zpos mx * 2 ^ (ex - ey - e')).
  { subst m'. destruct (ex - ey - e') as [|p|p] eqn:E; [simpl; lia| |lia].
    by rewrite Z.shiftl_mul_pow2. }
  pose proof (Z_div_mod m' (Zpos my) ltac:(lia)) as Hdm.
  destruct (Z.div_eucl m' (Zpos my)) as [q r]. destruct Hdm as [Hq Hr].
  assert (Hm'pos : 0 < m').
  { rewrite Hm'. apply Z.mul_pos_pos; [lia|]. apply Z.pow_pos_nonneg; lia. }
  assert (Hq0 : 0 <= q) by nia.
  assert (Hqm : q <= m') by nia.
  apply binary_round_aux_below; [done | done | | done].
  pose proof (Zdigits2_mono q m' ltac:(lia)) as Hd.
  rewrite Hm', Zdigits2_mul_pow2, Zdigits2_pos in Hd by lia. lia.
Qed.

Lemma floor_below x k :
  below_pow2 k x -> 0 <= k <= 1021 -> below_pow2 (k + 2) (Num.floor x).
Proof.
  intros Hx Hrange.
  destruct x as [sx|sx| |sx mx ex]; simpl in Hx |- *; try done.
  destruct Hx as [Hex Hkx].
  destruct (0 <=? ex) eqn:E; [simpl; lia|]. apply Z.leb_gt in E.
  replace (k + 2) with (k + 1 + 1) by lia.
  apply binary_normalize_below; [lia | | lia].
  assert (Hp : 0 < 2 ^ (- ex)) by (apply Z.pow_pos_nonneg; lia).
  assert (Hq : 0 <= Zpos mx / 2 ^ (- ex)) by (apply Z.div_pos; lia).
  assert (Habs : 0 <= Z.abs (cond_Zopp sx (Zpos mx) / 2 ^ (- ex))
                 <= Zpos mx / 2 ^ (- ex) + 1).
  { destruct sx; simpl.
    - pose proof (Z_div_mod (- Zpos mx) (2 ^ (- ex)) ltac:(lia)) as H1.
      pose proof (Z_div_mod (Zpos mx) (2 ^ (- ex)) ltac:(lia)) as H2.
      unfold Z.div. destruct (Z.div_eucl (- Zpos mx) _) as [q1 r1].
      destruct (Z.div_eucl (Zpos mx) _) as [q2 r2].
      assert (Hsum : 2 ^ (- ex) * (q1 + q2) + (r1 + r2) = 0) by lia.
      assert (Hq12 : -1 <= q1 + q2 <= 0) by nia.
      assert (Hq2 : 0 <= q2) by nia.
      lia.
    - lia. }
  rewrite <- Zdigits2_abs.
  pose proof (Zdigits2_mono _ _ Habs).
  pose proof (Zdigits2_succ _ Hq).
  pose proof (Zdigits2_div_pow2 (Zpos mx) (- ex) ltac:(lia) ltac:(lia)) as Hd.
  rewrite Zdigits2_pos in Hd. lia.
Qed.

Lemma fmul_below x sy my ey k :
  below_pow2 k x -> ey <= 0 ->
  -1074 <= k + (Zpos (digits2_pos my) + ey) <= 1023 ->
  below_pow2 (k + (Zpos (digits2_pos my) + ey) + 1)
             (Num.fmul x (S754_finite sy my ey)).
Proof.
  intros Hx Hey Hrange.
  destruct x as [sx|sx| |sx mx ex]; simpl in Hx |- *; try done.
  destruct Hx as [Hex Hkx].
  apply binary_round_aux_below; [lia | lia | | done].
  rewrite Pos2Z.inj_mul.
  pose proof (Zdigits2_mul (Zpos mx) (Zpos my) ltac:(lia) ltac:(lia)) as Hd.
  rewrite !Zdigits2_pos in Hd. lia.
Qed.

Lemma float_to_int_ok x k : below_pow2 k x -> is_ok (Num.float_to_int x).
Proof. by destruct x. Qed.

Local Ltac below_via K := apply (below_pow2_mono K); [lia|].

Lemma small_constant_of_Z d :
  In d [1; 30; 60; 100; 3600] -> small_constant (Num.of_Z d).
Proof.
  simpl. intros H. repeat destruct H as [<-|H]; try done; vm_compute;
    repeat split; discriminate.
Qed.

Lemma below_of_Z_1 : below_pow2 1 (Num.of_Z 1).
Proof. vm_compute. split; discriminate. Qed.

Lemma float_floordiv_below vx wx k :
  below_pow2 k vx -> small_constant wx -> 13 <= k <= 900 ->
  exists q, Num.float_floordiv vx wx = Ok q /\ below_pow2 (k + 70) q.
Proof.
  intros Hvx Hwx Hk.
  destruct wx as [sy|sy| |[|] my ey]; try done. destruct Hwx as [Hey Hmag].
  set (wx := S754_finite false my ey).
  unfold Num.float_floordiv. fold wx. simpl (Num.is_zero wx). cbv iota.
  assert (Hmod : below_pow2 (k + 1) (Num.fmod vx wx)).
  { below_via (13 + 1).
    apply (fmod_below vx false my ey k 13); [done | lia | lia | lia]. }
  assert (Hsub : below_pow2 (k + 3) (Num.fsub vx (Num.fmod vx wx))).
  { below_via (k + 1 + 2). apply (fsub_below _ _ (k + 1)); [|done|lia].
    by below_via k. }
  assert (Hdiv : below_pow2 (k + 64)
                   (Num.fdiv (Num.fsub vx (Num.fmod vx wx)) wx)).
  { below_via (k + 3 - ey + 1). apply fdiv_below; [done | lia | lia]. }
  set (div := if negb (Num.is_zero (Num.fmod vx wx)) && _ then _ else _).
  assert (Hdiv' : below_pow2 (k + 66) div).
  { subst div. destruct (negb _ && _).
    - below_via (k + 64 + 2). apply (fsub_below _ _ (k + 64)); [done| |lia].
      below_via 1. apply below_of_Z_1.
    - by below_via (k + 64). }
  destruct (negb (Num.is_zero div)).
  - eexists. split; [reflexivity|].
    assert (Hfloor : below_pow2 (k + 68) (Num.floor div)).
    { below_via (k + 66 + 2). apply (floor_below _ (k + 66)); [done | lia]. }
    destruct (Num.fltb (Num.literal 5 10) _).
    + below_via (k + 68 + 2). apply (fadd_below _ _ (k + 68)); [done| |lia].
      below_via 1. apply below_of_Z_1.
    + by below_via (k + 68).
  - eexists. split; [reflexivity | done].
Qed.

Lemma float_mod_below vx wx k :
  below_pow2 k vx -> small_constant wx ->
  exists r, Num.float_mod vx wx = Ok r /\ below_pow2 16 r.
Proof.
  intros Hvx Hwx.
  destruct wx as [sy|sy| |[|] my ey]; try done. destruct Hwx as [Hey Hmag].
  set (wx := S754_finite false my ey).
  unfold Num.float_mod. fold wx. simpl (Num.is_zero wx). cbv iota.
  assert (Hmod : below_pow2 14 (Num.fmod vx wx)).
  { below_via (13 + 1).
    apply (fmod_below vx false my ey k 13); [done | lia | lia | lia]. }
  destruct (negb (Num.is_zero (Num.fmod vx wx))); [|by eexists].
  destruct (negb _); eexists; (split; [reflexivity|]).
  - below_via (14 + 2). apply (fadd_below _ _ 14); [done | | lia].
    simpl. lia.
  - by below_via 14.
Qed.

Lemma to_int_mul_ok f d k :
  below_pow2 k f -> -1000 <= k <= 1000 -> In d [1; 30; 60; 100; 3600] ->
  is_ok (Num.to_int (Num.mul (Num.Float f) d)).
Proof.
  intros Hf Hk Hd.
  change (is_ok (Num.float_to_int (Num.fmul f (Num.of_Z d)))).
  pose proof (small_constant_of_Z d Hd) as Hw.
  destruct (Num.of_Z d) as [?|?| |[|] m e]; try done.
  destruct Hw as [He Hm].
  eapply float_to_int_ok. apply (fmul_below f _ _ _ k); [done | lia | lia].
Qed.

Lemma floordiv_ok x d :
  In d [1; 30; 60; 100; 3600] ->
  moderate x \/ (exists f, x = Num.Float f /\ below_pow2 16 f) ->
  exists q, Num.floordiv x d = Ok q /\ is_ok (Num.to_int q).
Proof.
  intros Hd Hx. destruct x as [z|f].
  - simpl. replace (d =? 0) with false; [by eexists|].
    symmetry. apply Z.eqb_neq. simpl in Hd. intuition lia.
  - assert (Hf : below_pow2 900 f).
    { destruct Hx as [Hx|(f' & [= <-] & Hx)]; [done|].
      by below_via 16. }
    destruct (float_floordiv_below f (Num.of_Z d) 900 Hf
                (small_constant_of_Z d Hd) ltac:(lia)) as (q & Hq & Hb).
    exists (Num.Float q). split; [unfold Num.floordiv; by rewrite Hq|].
    exact (float_to_int_ok _ _ Hb).
Qed.

Lemma modulo_ok x d :
  In d [1; 30; 60; 100; 3600] -> moderate x ->
  exists r, Num.modulo x d = Ok r /\ is_ok (Num.to_int r) /\
            is_ok (Num.to_int (Num.mul r 30)) /\
            (exists q, Num.floordiv r 60 = Ok q /\ is_ok (Num.to_int q)).
Proof.
  intros Hd Hx. destruct x as [z|f].
  - simpl. replace (d =? 0) with false; [by repeat eexists|].
    symmetry. apply Z.eqb_neq. simpl in Hd. intuition lia.
  - destruct (float_mod_below f (Num.of_Z d) 900 Hx
                (small_constant_of_Z d Hd)) as (r & Hr & Hb).
    exists (Num.Float r). split; [unfold Num.modulo; by rewrite Hr|].
    split; [exact (float_to_int_ok _ _ Hb)|]. split.
    + apply (to_int_mul_ok r 30 16); [done | lia | simpl; tauto].
    + apply (floordiv_ok _ 60); [simpl; tauto|]. right. by exists r.
Qed.

Lemma timecode_moderate x : moderate x -> is_ok (timecode x).
Proof.
  intros Hx. unfold timecode.
  destruct (floordiv_ok x 3600 ltac:(simpl; tauto) (or_introl Hx))
    as (q & -> & Hq). simpl.
  destruct (Num.to_int q); [|done]. simpl.
  destruct (modulo_ok x 3600 ltac:(simpl; tauto) Hx)
    as (r & -> & _ & _ & q' & Hq' & Hq'i). simpl. rewrite Hq'. simpl.
  destruct (Num.to_int q'); [|done]. simpl.
  destruct (modulo_ok x 60 ltac:(simpl; tauto) Hx) as (r' & -> & Hr' & _).
  simpl. destruct (Num.to_int r'); [|done]. simpl.
  destruct (modulo_ok x 1 ltac:(simpl; tauto) Hx)
    as (r1 & -> & _ & Hr1 & _). simpl.
  by destruct (Num.to_int (Num.mul r1 30)).
Qed.

Lemma time_str_moderate x : moderate x -> is_ok (time_str x).
Proof.
  intros Hx. unfold time_str.
  destruct (floordiv_ok x 60 ltac:(simpl; tauto) (or_introl Hx))
    as (q & -> & Hq). simpl.
  destruct (Num.to_int q); [|done]. simpl.
  destruct (modulo_ok x 60 ltac:(simpl; tauto) Hx) as (r' & -> & Hr' & _).
  simpl. by destruct (Num.to_int r').
Qed.

Lemma percent_moderate x : moderate x -> is_ok (percent x).
Proof.
  intros Hx. unfold percent. destruct x as [z|f]; [done|]. simpl in Hx.
  pose proof (to_int_mul_ok f 100 900 Hx ltac:(lia) ltac:(simpl; tauto)).
  by destruct (Num.to_int _).
Qed.

End FloatFacts.

(** ** Facts about the documents *)

Section RenderFacts.

Lemma for_each_ext {A B : Type} (f g : A -> result B) xs :
  (forall x, x ∈ xs -> f x = g x) -> for_each f xs = for_each g xs.
Proof.
  induction xs as [|x xs IH]; intros H; simpl; [done|].
  rewrite (H x) by apply list_elem_of_here.
  rewrite IH; [done|]. intros y Hy. apply H. by apply list_elem_of_further.
Qed.

Lemma for_each_ok {A B : Type} (f : A -> result B) xs :
  Forall (fun x => is_ok (f x)) xs -> is_ok (for_each f xs).
Proof.
  induction 1 as [|x xs Hx _ IH]; simpl; [done|].
  destruct (f x); [|done]. simpl. by destruct (for_each f xs).
Qed.

Lemma for_each_elem {A B : Type} (f : A -> result B) xs bs x :
  for_each f xs = Ok bs -> x ∈ xs -> exists b, f x = Ok b /\ b ∈ bs.
Proof.
  revert bs. induction xs as [|y ys IH]; intros bs Hbs Hx.
  { by apply elem_of_nil in Hx. }
  simpl in Hbs. destruct (f y) as [b|] eqn:Ey; [|done]. simpl in Hbs.
  destruct (for_each f ys) as [bs'|] eqn:Eys; [|done].
  simpl in Hbs. injection Hbs as <-.
  apply elem_of_cons in Hx as [->|Hx].
  - exists b. split; [done | apply list_elem_of_here].
  - destruct (IH bs' eq_refl Hx) as (b' & ? & ?).
    exists b'. split; [done | by apply list_elem_of_further].
Qed.

Lemma elem_of_concat {A : Type} (x : A) (xss : list (list A)) :
  x ∈ concat xss <-> exists xs, xs ∈ xss /\ x ∈ xs.
Proof.
  rewrite list_elem_of_In, in_concat.
  by setoid_rewrite list_elem_of_In.
Qed.

Lemma enumerate_from_fmap {A B : Type} (g : A -> B) xs : forall k,
  enumerate_from k (g <$> xs) = prod_map id g <$> enumerate_from k xs.
Proof.
  induction xs as [|x xs IH]; intros k; csimpl; [done|]. by rewrite IH.
Qed.

Lemma enumerate_from_snd {A : Type} (xs : list A) : forall k,
  snd <$> enumerate_from k xs = xs.
Proof.
  induction xs as [|x xs IH]; intros k; csimpl; [done|]. by rewrite IH.
Qed.

Lemma for_each_fmap {A B C : Type} (f : B -> result C) (g : A -> B) xs :
  for_each f (g <$> xs) = for_each (fun x => f (g x)) xs.
Proof. induction xs as [|x xs IH]; csimpl; [done|]. by rewrite IH. Qed.

Lemma insert_sorted_fmap {A K : Type} (lt : K -> K -> bool) (key : A -> K)
    (g : A -> A) x xs :
  (forall a, key (g a) = key a) ->
  insert_sorted lt key (g x) (g <$> xs) = g <$> insert_sorted lt key x xs.
Proof.
  intros Hkey. induction xs as [|y ys IH]; csimpl; [done|].
  rewrite !Hkey. destruct (lt (key y) (key x)); csimpl; [by rewrite IH | done].
Qed.

Lemma py_sorted_fmap {A K : Type} (lt : K -> K -> bool) (key : A -> K)
    (g : A -> A) xs :
  (forall a, key (g a) = key a) ->
  py_sorted lt key (g <$> xs) = g <$> py_sorted lt key xs.
Proof.
  intros Hkey. induction xs as [|x xs IH]; csimpl; [done|].
  by rewrite IH, insert_sorted_fmap.
Qed.

Lemma sorted_up_sots_with_defaults up_sots :
  sorted_up_sots (with_defaults <$> up_sots)
  = with_defaults <$> sorted_up_sots up_sots.
Proof. by apply py_sorted_fmap. Qed.

(** Every generator reads its entries through the same four defaults. *)
Lemma entries_with_defaults {B : Type} (entry : Z -> up_sot -> result B)
    up_sots :
  (forall i u, entry i (with_defaults u) = entry i u) ->
  for_each (fun p => entry (fst p) (snd p))
           (enumerate_from 1 (sorted_up_sots (with_defaults <$> up_sots)))
  = for_each (fun p => entry (fst p) (snd p))
             (enumerate_from 1 (sorted_up_sots up_sots)).
Proof.
  intros H. rewrite sorted_up_sots_with_defaults, enumerate_from_fmap.
  rewrite for_each_fmap. apply for_each_ext. intros [i u] _. apply H.
Qed.

Lemma sorted_up_sots_elem u up_sots :
  u ∈ sorted_up_sots up_sots <-> u ∈ up_sots.
Proof. unfold sorted_up_sots. by rewrite py_sorted_perm. Qed.

Lemma enumerate_from_elem {A : Type} (xs : list A) k i x :
  (i, x) ∈ enumerate_from k xs -> x ∈ xs.
Proof.
  intros H. rewrite <- (enumerate_from_snd xs k).
  apply list_elem_of_fmap. by exists (i, x).
Qed.

Lemma timecode_int (t : Z) :
  timecode (Num.Int t) =
    Ok (Fmt.zero_padded 2 (t / 3600) +:+ ":" +:+
        Fmt.zero_padded 2 (t mod 3600 / 60) +:+ ":" +:+
        Fmt.zero_padded 2 (t mod 60) +:+ ":" +:+ Fmt.zero_padded 2 0).
Proof. unfold timecode. simpl. by rewrite Z.mod_1_r. Qed.

Lemma time_str_int (t : Z) :
  time_str (Num.Int t) =
    Ok (Fmt.zero_padded 2 (t / 60) +:+ ":" +:+ Fmt.zero_padded 2 (t mod 60)).
Proof. reflexivity. Qed.

Lemma moderate_timestamp u :
  absent_or_moderate (get_timestamp u) -> moderate (timestamp_or_0 u).
Proof. unfold timestamp_or_0. by destruct (get_timestamp u). Qed.

Lemma moderate_confidence u :
  absent_or_moderate (get_confidence u) -> moderate (confidence_or_0 u).
Proof. unfold confidence_or_0. by destruct (get_confidence u). Qed.

Lemma edl_entry_ok i u :
  absent_or_moderate (get_timestamp u) ->
  absent_or_moderate (get_confidence u) ->
  is_ok (edl_entry i u).
Proof.
  intros Ht%moderate_timestamp Hc%moderate_confidence. unfold edl_entry.
  pose proof (timecode_moderate _ Ht) as H1.
  pose proof (percent_moderate _ Hc) as H2.
  destruct (timecode _); [|done]. simpl. by destruct (percent _).
Qed.

Lemma txt_entry_ok i u :
  absent_or_moderate (get_timestamp u) ->
  absent_or_moderate (get_confidence u) ->
  is_ok (txt_entry i u).
Proof.
  intros Ht%moderate_timestamp Hc%moderate_confidence. unfold txt_entry.
  pose proof (time_str_moderate _ Ht) as H1.
  pose proof (percent_moderate _ Hc) as H2.
  destruct (time_str _); [|done]. simpl.
  destruct (Num.positive _); [|done]. by destruct (percent _).
Qed.

Lemma markdown_entry_ok i u :
  absent_or_moderate (get_timestamp u) ->
  absent_or_moderate (get_confidence u) ->
  is_ok (markdown_entry i u).
Proof.
  intros Ht%moderate_timestamp Hc%moderate_confidence. unfold markdown_entry.
  pose proof (time_str_moderate _ Ht) as H1.
  pose proof (percent_moderate _ Hc) as H2.
  destruct (time_str _); [|done]. simpl.
  destruct (Num.positive _); [|done]. by destruct (percent _).
Qed.

(** The loop over the sorted entries raises nothing when no entry does. *)
Lemma entries_ok {B : Type} (entry : Z -> up_sot -> result B)
    (P : up_sot -> Prop) up_sots :
  (forall i u, P u -> is_ok (entry i u)) ->
  Forall P up_sots ->
  is_ok (for_each (fun p => entry (fst p) (snd p))
                  (enumerate_from 1 (sorted_up_sots up_sots))).
Proof.
  intros Hentry HP. apply for_each_ok, Forall_forall. intros [i u] Hiu.
  simpl. apply Hentry. rewrite Forall_forall in HP. apply HP.
  apply enumerate_from_elem in Hiu. by apply (proj1 (sorted_up_sots_elem _ _)).
Qed.

(** Where the block of an entry lies in a document. *)
Lemma part_of_concat (block : list string) blocks :
  block ∈ blocks -> part_of block (concat blocks).
Proof.
  intros (pre & post & ->)%list_elem_of_split.
  exists (concat pre), (concat post). by rewrite concat_app.
Qed.

Lemma part_of_cons (block : list string) line lines :
  part_of block lines -> part_of block (line :: lines).
Proof. intros (pre & post & ->). by exists (line :: pre), post. Qed.

Lemma part_of_app_l (block : list string) lines after :
  part_of block lines -> part_of block (lines ++ after).
Proof.
  intros (pre & post & ->). exists pre, (post ++ after).
  by rewrite <- !app_assoc.
Qed.

Lemma entry_part_of (entry : Z -> up_sot -> result (list string))
    up_sots entries i u :
  for_each (fun p => entry (fst p) (snd p))
           (enumerate_from 1 (sorted_up_sots up_sots)) = Ok entries ->
  (i, u) ∈ enumerate_from 1 (sorted_up_sots up_sots) ->
  exists block, entry i u = Ok block /\ part_of block (concat entries).
Proof.
  intros Hentries Hiu.
  destruct (for_each_elem _ _ _ _ Hentries Hiu) as (block & Hblock & Hin).
  exists block. split; [done | by apply part_of_concat].
Qed.

(** The label of a type, character by character. *)
Lemma replace_char_cons a b c s :
  Text.replace_char a b (String c s)
  = String (if Ascii.eqb c a then b else c) (Text.replace_char a b s).
Proof. reflexivity. Qed.

Lemma is_cased_replaced c :
  Text.is_cased (if Ascii.eqb c "_" then " "%char else c) = Text.is_cased c.
Proof. destruct (Ascii.eqb c "_") eqn:E; [|done]. by apply Ascii.eqb_eq in E as ->. Qed.

Lemma title_from_length s : forall prev,
  String.length (Text.title_from prev (Text.replace_char "_" " " s))
  = String.length s.
Proof.
  induction s as [|a s IH]; intros prev; [done|].
  rewrite replace_char_cons. simpl. by rewrite IH.
Qed.

Lemma title_from_get s : forall prev n c,
  String.get n s = Some c ->
  String.get n (Text.title_from prev (Text.replace_char "_" " " s))
  = Some (if Ascii.eqb c "_" then " "%char
          else if match n with
                  | O => prev
                  | S m => match String.get m s with
                           | Some before => Text.is_cased before
                           | None => false
                           end
                  end
               then Text.lower_char c else Text.upper_char c).
Proof.
  induction s as [|a s IH]; intros prev n c Hn; [done|].
  rewrite replace_char_cons.
  cbn [Text.title_from]. destruct n as [|m].
  - cbn [String.get] in *. injection Hn as ->.
    destruct (Ascii.eqb c "_") eqn:E; [by destruct prev | done].
  - cbn [String.get] in Hn |- *.
    rewrite (IH _ m c Hn), is_cased_replaced.
    destruct m as [|k]; [done|]. by cbn [String.get].
Qed.

Lemma type_label_chars up_sot_type :
  String.length (type_label up_sot_type) = String.length up_sot_type /\
  forall n c,
    String.get n up_sot_type = Some c ->
    String.get n (type_label up_sot_type)
    = Some (Spec.label_char up_sot_type n c).
Proof.
  unfold type_label, Text.title. split; [apply title_from_length|].
  intros n c Hn. rewrite (title_from_get _ false n c Hn).
  unfold Spec.label_char, Spec.inside_word. by destruct n.
Qed.

End RenderFacts.

(** ** The specification's timecodes on whole seconds *)

Section SpecFacts.

Local Open Scope Q_scope.






End SpecFacts.

(** ** The two embeddings of the detector agree on 8-bit transcripts *)

Section WideFacts.

Lemma of_string_cons c s :
  Wide.of_string (String c s) = N_of_ascii c :: Wide.of_string s.
Proof. reflexivity. Qed.

Lemma of_string_app a b :
  Wide.of_string (a +:+ b) = Wide.of_string a ++ Wide.of_string b.
Proof.
  induction a as [|c a IH]; [done|].
  change (String c a +:+ b) with (String c (a +:+ b)).
  by rewrite !of_string_cons, IH.
Qed.

Lemma of_string_length s : length (Wide.of_string s) = String.length s.
Proof. induction s as [|c s IH]; [done|]. rewrite of_string_cons. simpl. by rewrite IH. Qed.

Lemma N_of_ascii_eqb a b : (N_of_ascii a =? N_of_ascii b)%N = Ascii.eqb a b.
Proof.
  destruct (Ascii.eqb a b) eqn:E.
  - apply Ascii.eqb_eq in E as ->. apply N.eqb_refl.
  - apply N.eqb_neq. intros H. apply Ascii.eqb_neq in E. apply E.
    by rewrite <- (ascii_N_embedding a), <- (ascii_N_embedding b), H.
Qed.

Lemma wide_is_terminal c :
  Wide.is_terminal (N_of_ascii c) = Text.is_terminal c.
Proof.
  unfold Wide.is_terminal, Text.is_terminal.
  by rewrite <- !N_of_ascii_eqb.
Qed.

Lemma wide_isspace c : Wide.isspace (N_of_ascii c) = Text.isspace c.
Proof. destruct c as [[] [] [] [] [] [] [] []]; reflexivity. Qed.

Lemma wide_split_from s : forall b,
  Wide.split_from b (Wide.of_string s) = Wide.of_string <$> Text.split_from b s.
Proof.
  induction s as [|c s IH]; intros b; [done|].
  rewrite of_string_cons. cbn [Wide.split_from Text.split_from].
  rewrite wide_is_terminal, !IH.
  destruct (Text.is_terminal c); [by destruct b|].
  by destruct (Text.split_from false s).
Qed.

Lemma wide_lstrip s :
  Wide.lstrip (Wide.of_string s) = Wide.of_string (Text.lstrip s).
Proof.
  induction s as [|c s IH]; [done|].
  rewrite of_string_cons. cbn [Wide.lstrip Text.lstrip].
  rewrite wide_isspace. by destruct (Text.isspace c).
Qed.

Lemma wide_rstrip s :
  Wide.rstrip (Wide.of_string s) = Wide.of_string (Text.rstrip s).
Proof.
  induction s as [|c s IH]; [done|].
  rewrite of_string_cons. cbn [Wide.rstrip Text.rstrip].
  rewrite IH, wide_isspace.
  destruct (Text.rstrip s); [by destruct (Text.isspace c) | done].
Qed.

Lemma wide_strip s : Wide.strip (Wide.of_string s) = Wide.of_string (Text.strip s).
Proof. unfold Wide.strip, Text.strip. by rewrite wide_lstrip, wide_rstrip. Qed.

Lemma N_of_ascii_small c : (N_of_ascii c <? 256)%N = true.
Proof. destruct c as [[] [] [] [] [] [] [] []]; reflexivity. Qed.

Lemma wide_lower_char c :
  Wide.lower_char (N_of_ascii c) = Some [N_of_ascii (Text.lower_char c)].
Proof.
  unfold Wide.lower_char. by rewrite N_of_ascii_small, ascii_N_embedding.
Qed.

Lemma wide_lower s :
  Wide.lower (Wide.of_string s) = Some (Wide.of_string (Text.lower s)).
Proof.
  unfold Wide.lower.
  assert (H : mapM Wide.lower_char (Wide.of_string s)
              = Some ((fun c => [N_of_ascii c])
                        <$> list_ascii_of_string (Text.lower s))).
  { apply mapM_Some_2. induction s as [|c s IH]; [constructor|].
    rewrite of_string_cons.
    change (Text.lower (String c s))
      with (String (Text.lower_char c) (Text.lower s)).
    csimpl. constructor; [apply wide_lower_char | exact IH]. }
  unfold Wide.str in H. rewrite H. clear H. csimpl. f_equal.
  induction (Text.lower s) as [|c t IH]; [done|].
  rewrite of_string_cons. csimpl. by rewrite IH.
Qed.

Lemma wide_startswith p : forall s,
  Wide.startswith (Wide.of_string p) (Wide.of_string s) = Text.startswith p s.
Proof.
  induction p as [|a p IH]; intros [|b s]; try done.
  rewrite !of_string_cons. cbn [Wide.startswith Text.startswith].
  by rewrite N_of_ascii_eqb, IH.
Qed.

Lemma wide_contains sub s :
  Wide.contains (Wide.of_string sub) (Wide.of_string s) = Text.contains sub s.
Proof.
  induction s as [|c s IH].
  - cbn [Wide.contains Text.contains]. by rewrite <- wide_startswith.
  - cbn [Text.contains]. rewrite <- IH, <- wide_startswith.
    by rewrite of_string_cons.
Qed.

Lemma wide_take n : forall s,
  take n (Wide.of_string s) = Wide.of_string (Text.take n s).
Proof.
  induction n as [|n IH]; intros [|c s]; try done.
  rewrite of_string_cons. cbn [take Text.take]. by rewrite IH, of_string_cons.
Qed.

Lemma wide_describe label s :
  Wide.describe label (Wide.of_string s) = Wide.of_string (describe label s).
Proof.
  unfold Wide.describe, describe. rewrite of_string_length.
  destruct (100 <? String.length s)%nat;
    by rewrite ?of_string_app, ?wide_take.
Qed.

Lemma append_on_first_widen {A : Type} (test test' : A -> bool) xs item :
  (forall x, test' x = test x) ->
  append_on_first test' xs (widen item) = widen <$> append_on_first test xs item.
Proof.
  intros H. induction xs as [|x xs IH]; [done|]. simpl.
  rewrite H. by destruct (test x).
Qed.

Lemma wide_scan_sentence i raw :
  Wide.scan_sentence i (Wide.of_string raw) = Some (widen <$> scan_sentence i raw).
Proof.
  unfold Wide.scan_sentence, scan_sentence.
  rewrite wide_strip, wide_lower. cbn [mbind option_bind]. f_equal.
  rewrite of_string_length.
  destruct (String.length (Text.lower (Text.strip raw)) <? 10)%nat eqn:E;
    [done|].
  set (sentence := Text.lower (Text.strip raw)).
  cbv zeta. rewrite !fmap_app, !wide_describe.
  f_equal; [|f_equal].
  - apply (append_on_first_widen _ _ _
             (mkUpSot (i * 3) "question" (describe "Question: " sentence)
                      (Num.literal 8 10))).
    intros x. apply wide_contains.
  - apply (append_on_first_widen _ _ _
             (mkUpSot (i * 3) "key_moment" (describe "Key point: " sentence)
                      (Num.literal 7 10))).
    intros x. by rewrite wide_contains.
  - apply (append_on_first_widen _ _ _
             (mkUpSot (i * 3) "topic_transition"
                      (describe "Topic change: " sentence)
                      (Num.literal 9 10))).
    intros x. apply wide_startswith.
Qed.

Lemma wide_scan_blocks units : forall k,
  mapM (fun p => Wide.scan_sentence (fst p) (snd p))
       (enumerate_from k (Wide.of_string <$> units))
  = Some ((fun p => widen <$> scan_sentence (fst p) (snd p))
            <$> enumerate_from k units).
Proof.
  intros k. apply mapM_Some_2. revert k.
  induction units as [|u us IH]; intros k; [constructor|].
  csimpl. constructor; [apply wide_scan_sentence | apply IH].
Qed.

Lemma wide_scan units :
  Wide.scan (Wide.of_string <$> units) = Some (widen <$> scan units).
Proof.
  unfold Wide.scan, scan. rewrite wide_scan_blocks. csimpl. f_equal.
  induction (enumerate_from 0 units) as [|p ps IH]; [done|].
  csimpl. by rewrite fmap_app, IH.
Qed.

Lemma wide_remove_duplicates up_sots : forall seen,
  Wide.remove_duplicates seen (widen <$> up_sots)
  = widen <$> remove_duplicates seen up_sots.
Proof.
  induction up_sots as [|u us IH]; intros seen; [done|]. csimpl.
  destruct (decide (timestamp u ∈ seen)); [apply IH|].
  csimpl. by rewrite IH.
Qed.

Lemma wide_insert_sorted u vs :
  insert_sorted Z.ltb Wide.timestamp (widen u) (widen <$> vs)
  = widen <$> insert_sorted Z.ltb timestamp u vs.
Proof.
  induction vs as [|v vs IH]; [done|]. csimpl.
  change (Wide.timestamp (widen v)) with (timestamp v).
  change (Wide.timestamp (widen u)) with (timestamp u).
  destruct (timestamp v <? timestamp u); csimpl; [by rewrite IH | done].
Qed.

Lemma wide_sorted up_sots :
  py_sorted Z.ltb Wide.timestamp (widen <$> up_sots)
  = widen <$> py_sorted Z.ltb timestamp up_sots.
Proof.
  induction up_sots as [|u us IH]; [done|]. csimpl.
  by rewrite IH, wide_insert_sorted.
Qed.

(** On a transcript of 8-bit characters the detector over code points
    returns what the detector over 8-bit characters returns. *)
Lemma wide_detect_up_sots text :
  Wide.detect_up_sots (Wide.of_string text)
  = Some (widen <$> detect_up_sots text).
Proof.
  unfold Wide.detect_up_sots, detect_up_sots, Wide.re_split, Text.re_split.
  rewrite wide_split_from, wide_scan. csimpl.
  by rewrite wide_remove_duplicates, wide_sorted.
Qed.

(** Where an up-sot of the detector over code points comes from. *)
Lemma wide_remove_duplicates_elem u up_sots : forall seen,
  u ∈ Wide.remove_duplicates seen up_sots -> u ∈ up_sots.
Proof.
  induction up_sots as [|v vs IH]; intros seen; [done|]. simpl.
  destruct (decide (Wide.timestamp v ∈ seen)).
  - intros H%IH. by apply list_elem_of_further.
  - intros [->|H%IH]%elem_of_cons;
      [apply list_elem_of_here | by apply list_elem_of_further].
Qed.

Lemma append_on_first_elem {A B : Type} (test : A -> bool) xs (item u : B) :
  u ∈ append_on_first test xs item -> u = item.
Proof.
  induction xs as [|x xs IH]; simpl; [by intros ?%elem_of_nil|].
  destruct (test x); [by intros ?%list_elem_of_singleton | exact IH].
Qed.

Lemma wide_scan_sentence_elem i raw block u :
  Wide.scan_sentence i raw = Some block -> u ∈ block ->
  exists sentence,
    Wide.lower (Wide.strip raw) = Some sentence /\
    (10 <= length sentence)%nat /\
    Wide.timestamp u = i * 3.
Proof.
  unfold Wide.scan_sentence.
  destruct (Wide.lower (Wide.strip raw)) as [sentence|]; [|done].
  cbn [mbind option_bind]. intros Hblock Hu. exists sentence.
  apply (inj Some) in Hblock. subst block. split; [done|].
  destruct (length sentence <? 10)%nat eqn:E.
  { by apply elem_of_nil in Hu. }
  apply Nat.ltb_ge in E. split; [done|].
  rewrite !elem_of_app in Hu.
  by destruct Hu as [->%append_on_first_elem
                    |[->%append_on_first_elem | ->%append_on_first_elem]].
Qed.

Lemma wide_scan_elem units : forall k blocks u,
  mapM (fun p => Wide.scan_sentence (fst p) (snd p)) (enumerate_from k units)
    = Some blocks ->
  u ∈ concat blocks ->
  exists (n : nat) raw block,
    units !! n = Some raw /\
    Wide.scan_sentence (k + Z.of_nat n) raw = Some block /\ u ∈ block.
Proof.
  induction units as [|x xs IH]; intros k blocks u Hblocks Hu.
  { injection Hblocks as <-. by apply elem_of_nil in Hu. }
  apply mapM_Some_1 in Hblocks. cbn [enumerate_from] in Hblocks.
  apply Forall2_cons_inv_l in Hblocks as (block & rest & Hblock & Hrest & ->).
  cbn [concat] in Hu. apply elem_of_app in Hu as [Hu|Hu].
  - exists 0%nat, x, block. split; [done|].
    by replace (k + Z.of_nat 0) with k by lia.
  - apply mapM_Some_2 in Hrest.
    destruct (IH (k + 1) rest u Hrest Hu) as (n & raw & b & Hn & Hb & Hin).
    exists (S n), raw, b. split; [done|].
    by replace (k + Z.of_nat (S n)) with (k + 1 + Z.of_nat n) by lia.
Qed.

Lemma wide_detect_up_sots_elem text up_sots u :
  Wide.detect_up_sots text = Some up_sots -> u ∈ up_sots ->
  exists (i : nat) raw sentence,
    Wide.re_split text !! i = Some raw /\
    Wide.lower (Wide.strip raw) = Some sentence /\
    (10 <= length sentence)%nat /\
    Wide.timestamp u = 3 * Z.of_nat i.
Proof.
  unfold Wide.detect_up_sots, Wide.scan.
  destruct (mapM _ _) as [blocks|] eqn:Hblocks; [|done].
  cbn [mbind option_bind]. intros [= <-] Hu.
  rewrite (py_sorted_perm Z.ltb Wide.timestamp) in Hu.
  apply wide_remove_duplicates_elem in Hu.
  destruct (wide_scan_elem _ _ _ _ Hblocks Hu)
    as (n & raw & block & Hn & Hblock & Hin).
  destruct (wide_scan_sentence_elem _ _ _ _ Hblock Hin)
    as (sentence & Hs & Hlen & Ht).
  exists n, raw, sentence. repeat split; [done | done | done | lia].
Qed.

End WideFacts.

(** ** The statements about the detector *)

Section DetectorClaims.

Lemma first_of_when {B : Type} (a b c : bool) (x y z : B) :
  first_of (when a x ++ when b y ++ when c z) =
    if a then [x] else if b then [y] else if c then [z] else [].
Proof. by destruct a, b, c. Qed.

(** C1. For every unit of the split list, the output holds at most one
    up-sot stamped with the unit's time, and it is the one of the first
    rule that matches in the order question, key moment, topic transition:
    when the question rule matches, the question up-sot (confidence 0.8) is
    the one kept, and a topic-transition up-sot (confidence 0.9) the same
    unit yields is among the candidates but not in the output. *)
Theorem first_matching_rule_is_kept (text : string) (i : nat) (raw : string) :
  Text.re_split text !! i = Some raw ->
  let sentence := Text.lower (Text.strip raw) in
  let at_i := filter (fun u => timestamp u = Z.of_nat i * 3)
                     (detect_up_sots text) in
  (length at_i <= 1)%nat /\
  ((10 <= String.length sentence)%nat ->
   at_i = (if is_question sentence then [question_of (Z.of_nat i) sentence]
           else if is_key_moment sentence
                then [key_moment_of (Z.of_nat i) sentence]
           else if is_topic_transition sentence
                then [topic_transition_of (Z.of_nat i) sentence]
           else []) /\
   (is_question sentence = true -> is_topic_transition sentence = true ->
    (topic_transition_of (Z.of_nat i) sentence ∈ scan (Text.re_split text)) /\
    (topic_transition_of (Z.of_nat i) sentence ∉ detect_up_sots text) /\
    confidence (topic_transition_of (Z.of_nat i) sentence) = Num.literal 9 10 /\
    confidence (question_of (Z.of_nat i) sentence) = Num.literal 8 10)).
Proof.
  intros Hi sentence at_i.
  assert (Hat : at_i = first_of (scan_sentence (Z.of_nat i) raw))
    by exact (detect_up_sots_at text i raw Hi).
  split; [rewrite Hat; apply first_of_length|].
  intros Hlen. apply Nat.ltb_ge in Hlen.
  assert (Hscan : scan_sentence (Z.of_nat i) raw =
            when (is_question sentence) (question_of (Z.of_nat i) sentence)
            ++ when (is_key_moment sentence)
                    (key_moment_of (Z.of_nat i) sentence)
            ++ when (is_topic_transition sentence)
                    (topic_transition_of (Z.of_nat i) sentence)).
  { rewrite scan_sentence_unfold; cbv zeta. fold sentence. by rewrite Hlen. }
  split; [by rewrite Hat, Hscan, first_of_when|].
  intros Hq Ht. repeat split.
  - apply elem_of_scan. exists i, raw. split; [done|].
    rewrite Hscan, Hq, Ht. unfold when. rewrite !elem_of_app.
    right; right. apply list_elem_of_here.
  - intros Hin.
    assert (Hin' : topic_transition_of (Z.of_nat i) sentence ∈ at_i).
    { apply list_elem_of_filter. split; [done | exact Hin]. }
    rewrite Hat, Hscan, first_of_when, Hq in Hin'.
    apply list_elem_of_singleton in Hin'. discriminate Hin'.
Qed.

(** C2. The returned list is sorted ascending by timestamp and no two of
    its elements share a timestamp. *)
Theorem detect_up_sots_sorted_distinct (text : string) :
  StronglySorted Z.le (timestamp <$> detect_up_sots text) /\
  NoDup (timestamp <$> detect_up_sots text).
Proof.
  pose proof (ascending_timestamps _ (detect_up_sots_ascending text)) as H.
  split; [by apply StronglySorted_lt_le | by apply StronglySorted_lt_NoDup].
Qed.

(** C3, as the specification words it, fails on a transcript beyond the
    8-bit range.  "how does" followed by U+0130 is one unit of 9 code
    points with nothing to trim; lower-casing turns U+0130 into two code
    points, the unit of 10 code points passes the length test, and the
    detector returns a question for it. *)
Lemma lengthened_unit_is_emitted :
  Wide.re_split Wide.how_does_dotted = [Wide.how_does_dotted] /\
  Wide.strip Wide.how_does_dotted = Wide.how_does_dotted /\
  length Wide.how_does_dotted = 9%nat /\
  Wide.lower Wide.how_does_dotted
    = Some (Wide.of_string "how doesi" ++ [775%N]) /\
  Wide.detect_up_sots Wide.how_does_dotted
    = Some [ Wide.mkUpSot 0 "question"
               (Wide.of_string "Question: how doesi" ++ [775%N])
               (Num.literal 8 10) ].
Proof. repeat split. Qed.

(** C3, amended. Every emitted up-sot comes from a unit of the full split
    list whose trimmed, lower-cased form has at least 10 characters, and
    its timestamp is 3 times the index of that unit in the full list.  The
    trimmed form itself has at least 10 characters when the unit is
    ASCII.  The same holds of the detector over code points, on every
    transcript it has the case table of. *)
Theorem emitted_from_long_unit_at_3i :
  (forall (text : string) (u : UpSot),
     u ∈ detect_up_sots text ->
     exists (i : nat) (raw : string),
       Text.re_split text !! i = Some raw /\
       u ∈ scan_sentence (Z.of_nat i) raw /\
       (10 <= String.length (Text.lower (Text.strip raw)))%nat /\
       timestamp u = 3 * Z.of_nat i /\
       (ascii_only raw = true ->
        (10 <= String.length (Text.strip raw))%nat)) /\
  (forall (text : Wide.str) (up_sots : list Wide.UpSot) (u : Wide.UpSot),
     Wide.detect_up_sots text = Some up_sots ->
     u ∈ up_sots ->
     exists (i : nat) (raw sentence : Wide.str),
       Wide.re_split text !! i = Some raw /\
       Wide.lower (Wide.strip raw) = Some sentence /\
       (10 <= length sentence)%nat /\
       Wide.timestamp u = 3 * Z.of_nat i).
Proof.
  split; [|apply wide_detect_up_sots_elem].
  intros text u. rewrite detect_up_sots_kept, elem_of_kept.
  intros (i & raw & Hi & Hu%first_of_subseteq).
  exists i, raw.
  pose proof (scan_sentence_long _ _ _ Hu) as Hlong.
  pose proof (scan_sentence_timestamp _ _ _ Hu).
  repeat split; [done | done | done | lia |].
  intros _. by rewrite lower_length in Hlong.
Qed.

(** C7. When the unit at index 3 of the split list is the background
    question (up to surrounding blanks), the output holds an up-sot with
    timestamp 9, type question, confidence 0.8 and a description that is
    "Question: " followed by the lower-cased trimmed sentence. *)
Theorem background_question_detected (text raw : string) :
  Text.re_split text !! 3%nat = Some raw ->
  Text.strip raw = background_sentence ->
  exists u,
    u ∈ detect_up_sots text /\
    timestamp u = 9 /\
    type u = "question" /\
    confidence u = Num.literal 8 10 /\
    description u = "Question: " +:+ Text.lower background_sentence /\
    Text.startswith "Question: can you tell us" (description u) = true.
Proof.
  intros H3 Hraw.
  exists (question_of 3 (Text.lower background_sentence)).
  split; [|by repeat split].
  rewrite detect_up_sots_kept, elem_of_kept. exists 3%nat, raw.
  split; [done|]. unfold scan_sentence. rewrite Hraw.
  vm_compute. apply list_elem_of_here.
Qed.

(** C9. Distinct units get distinct timestamps, so candidates of different
    units never share a timestamp; every unit that yields a candidate keeps
    its first one, and a candidate missing from the output is a later
    candidate of a unit whose first candidate is in the output. *)
Theorem drop_stays_within_unit (text : string) :
  (forall i j : nat, i <> j -> Z.of_nat i * 3 <> Z.of_nat j * 3) /\
  (forall (i j : nat) u v ri rj,
     i <> j ->
     u ∈ scan_sentence (Z.of_nat i) ri -> v ∈ scan_sentence (Z.of_nat j) rj ->
     timestamp u <> timestamp v) /\
  (forall (i : nat) raw u rest,
     Text.re_split text !! i = Some raw ->
     scan_sentence (Z.of_nat i) raw = u :: rest ->
     u ∈ detect_up_sots text) /\
  (forall c,
     c ∈ scan (Text.re_split text) -> c ∉ detect_up_sots text ->
     exists (i : nat) raw u rest,
       Text.re_split text !! i = Some raw /\
       scan_sentence (Z.of_nat i) raw = u :: rest /\
       c ∈ rest /\
       u ∈ detect_up_sots text /\
       timestamp u = timestamp c).
Proof.
  assert (Hfirst : forall (i : nat) raw u rest,
            Text.re_split text !! i = Some raw ->
            scan_sentence (Z.of_nat i) raw = u :: rest ->
            u ∈ detect_up_sots text).
  { intros i raw u rest Hi Hs. rewrite detect_up_sots_kept, elem_of_kept.
    exists i, raw. split; [done|]. rewrite Hs. apply list_elem_of_here. }
  split; [intros; lia|]. split; [|split; [exact Hfirst|]].
  - intros i j u v ri rj Hij Hu%scan_sentence_timestamp
      Hv%scan_sentence_timestamp. lia.
  - intros c (i & raw & Hi & Hc)%elem_of_scan Hout.
    destruct (scan_sentence (Z.of_nat i) raw) as [|u rest] eqn:Hs.
    { by apply elem_of_nil in Hc. }
    pose proof (Hfirst i raw u rest Hi Hs) as Hu.
    exists i, raw, u, rest.
    split; [done|]. split; [done|]. split; [|split; [done|]].
    + apply elem_of_cons in Hc as [->|Hc]; [done | exact Hc].
    + assert (Hu' : u ∈ scan_sentence (Z.of_nat i) raw)
        by (rewrite Hs; apply list_elem_of_here).
      rewrite <- Hs in Hc.
      apply scan_sentence_timestamp in Hc, Hu'. lia.
Qed.

Lemma first_matching_rule_is_kept_witness :
  filter (fun u => timestamp u = Z.of_nat 0 * 3) (detect_up_sots outlook_text)
    = [question_of 0 outlook_sentence] /\
  (topic_transition_of 0 outlook_sentence ∈ scan (Text.re_split outlook_text)) /\
  (topic_transition_of 0 outlook_sentence ∉ detect_up_sots outlook_text).
Proof.
  destruct (first_matching_rule_is_kept outlook_text 0
              "Looking ahead, what do you see as the biggest opportunities and challenges in the AI space"
              eq_refl) as [_ H].
  destruct H as [H1 H2]; [vm_compute; lia|].
  split; [exact H1|].
  destruct (H2 eq_refl eq_refl) as (Hin & Hout & _).
  split; [exact Hin | exact Hout].
Defined.

Lemma emitted_from_long_unit_at_3i_witness :
  exists (i : nat) (raw : string),
    Text.re_split short_then_question !! i = Some raw /\
    (question_of 1 "can you tell us about it"
       ∈ scan_sentence (Z.of_nat i) raw) /\
    (10 <= String.length (Text.lower (Text.strip raw)))%nat /\
    timestamp (question_of 1 "can you tell us about it") = 3 * Z.of_nat i /\
    (ascii_only raw = true -> (10 <= String.length (Text.strip raw))%nat).
Proof.
  apply (proj1 emitted_from_long_unit_at_3i short_then_question).
  vm_compute. apply list_elem_of_here.
Defined.

Lemma background_question_detected_witness :
  exists u,
    u ∈ detect_up_sots interview_opening /\
    timestamp u = 9 /\
    type u = "question" /\
    confidence u = Num.literal 8 10 /\
    description u = "Question: " +:+ Text.lower background_sentence /\
    Text.startswith "Question: can you tell us" (description u) = true.
Proof.
  apply (background_question_detected interview_opening
           (" " +:+ background_sentence)); reflexivity.
Defined.

Lemma drop_stays_within_unit_witness :
  question_of 0 outlook_sentence ∈ detect_up_sots outlook_text.
Proof.
  destruct (drop_stays_within_unit outlook_text) as (_ & _ & Hfirst & _).
  apply (Hfirst 0%nat
           "Looking ahead, what do you see as the biggest opportunities and challenges in the AI space"
           (question_of 0 outlook_sentence)
           [key_moment_of 0 outlook_sentence;
            topic_transition_of 0 outlook_sentence]); reflexivity.
Defined.

End DetectorClaims.

(** ** The statements about the documents and the EDL route *)

Section RenderClaims.




(** C5. The EDL route answers the validation error (status 400, no
    document) exactly when the request's list of up-sots is empty or
    absent; with a non-empty list it answers a document or the error of a
    caught exception (status 500), whatever becomes of the delivery. *)
Theorem export_edl_validation (send : delivery) (stamp : string)
    (data : export_request) :
  (default [] (req_up_sots data) = [] ->
   export_edl send stamp data = JsonError 400 "No up-sots provided" None) /\
  (default [] (req_up_sots data) <> [] ->
   (forall error cause,
      export_edl send stamp data <> JsonError 400 error cause) /\
   ((exists content, export_edl send stamp data =
       SendFile content
         (default "Interview" (req_project_name data) +:+ "_upsots_" +:+
          stamp +:+ ".edl") "text/plain") \/
    (exists e, export_edl send stamp data =
       JsonError 500 "EDL export failed: " (Some e)))).
Proof.
  unfold export_edl. split.
  - by intros ->.
  - intros Hnonempty.
    destruct (default [] (req_up_sots data)) as [|u us]; [done|].
    destruct (generate_edl _ _) as [content|e].
    + cbv zeta. destruct (send content _) as [e|].
      * split; [intros error cause [=] |]. right. by exists e.
      * split; [done|]. left. by exists content.
    + split; [intros error cause [=] |]. right. by exists e.
Qed.

Lemma export_edl_validation_witness :
  export_edl sent "20240101_000000" (mk_export_request (Some []) None None)
    = JsonError 400 "No up-sots provided" None /\
  (forall error cause,
     export_edl sent "20240101_000000"
                (mk_export_request (Some [entry_at_9]) None None)
     <> JsonError 400 error cause).
Proof.
  split.
  - apply (proj1 (export_edl_validation sent "20240101_000000"
                    (mk_export_request (Some []) None None))).
    reflexivity.
  - apply (proj2 (export_edl_validation sent "20240101_000000"
                    (mk_export_request (Some [entry_at_9]) None None))).
    simpl. discriminate.
Defined.




(** C8. In the markdown document, the heading of an entry whose type is
    none of question, key_moment and topic_transition carries the default
    glyph, which is the glyph of none of the three, and a label.  For an
    ASCII type the label is the type with every underscore replaced by a
    space and in title case: as long as the type, with a space where the
    type has an underscore, a letter in upper case where a word starts and
    in lower case inside a word; so "aside_note" is labelled
    "Aside Note". *)
Theorem unknown_type_heading
    (now now_footer transcription project_name : string)
    (up_sots : list up_sot) (lines : list string)
    (i : Z) (u : up_sot) (up_sot_type : string) :
  markdown_lines now now_footer transcription up_sots project_name
    = Ok lines ->
  (i, u) ∈ enumerate_from 1 (sorted_up_sots up_sots) ->
  get_type u = Some up_sot_type ->
  up_sot_type ∉ ["question"; "key_moment"; "topic_transition"] ->
  (exists time_str_u label,
     time_str (timestamp_or_0 u) = Ok time_str_u /\
     ("### " +:+ Fmt.str i +:+ ". [" +:+ time_str_u +:+ "] " +:+
      default_glyph +:+ " " +:+ label) ∈ lines /\
     (ascii_only up_sot_type = true ->
      String.length label = String.length up_sot_type /\
      forall (n : nat) (c : ascii),
        String.get n up_sot_type = Some c ->
        String.get n label = Some (Spec.label_char up_sot_type n c))) /\
  (default_glyph
     ∉ [question_glyph; key_moment_glyph; topic_transition_glyph]) /\
  type_label "aside_note" = "Aside Note" /\
  type_label "b_ROLL shot" = "B Roll Shot".
Proof.
  intros Hlines Hiu Hty Hunknown.
  split; [|split; [|split; reflexivity]].
  2:{ vm_compute; intros H;
      repeat (apply elem_of_cons in H as [[=]|H]); by apply elem_of_nil in H. }
  assert (Hcolor : type_color up_sot_type = default_glyph).
  { unfold type_color, type_colors.
    rewrite !elem_of_cons, elem_of_nil in Hunknown.
    rewrite !lookup_insert_ne by (intros <-; tauto).
    by rewrite lookup_singleton_ne by (intros <-; tauto). }
  unfold markdown_lines in Hlines.
  destruct up_sots as [|u0 us].
  { simpl in Hiu. by apply elem_of_nil in Hiu. }
  destruct (for_each _ _) as [entries|] eqn:Hentries; [|done].
  simpl in Hlines. injection Hlines as <-.
  destruct (for_each_elem _ _ _ _ Hentries Hiu) as (entry & Hentry & Hin).
  simpl in Hentry. unfold markdown_entry in Hentry.
  destruct (time_str (timestamp_or_0 u)) as [ts|] eqn:Hts; [|done].
  exists ts, (type_label up_sot_type). split; [done|].
  split; [|intros _; apply type_label_chars].
  simpl in Hentry.
  destruct (if Num.positive (confidence_or_0 u) then _ else _)
    as [conf|]; [|done].
  simpl in Hentry. injection Hentry as <-.
  unfold type_or_default, markdown_heading in Hin.
  rewrite Hty in Hin. simpl in Hin. rewrite Hcolor in Hin.
  do 14 apply list_elem_of_further. apply elem_of_app. left.
  apply elem_of_concat. eexists. split; [exact Hin|].
  apply list_elem_of_here.
Qed.

Lemma unknown_type_heading_witness :
  exists time_str_u label,
    time_str (timestamp_or_0 entry_at_90_5) = Ok time_str_u /\
    ("### " +:+ Fmt.str 1 +:+ ". [" +:+ time_str_u +:+ "] " +:+
     default_glyph +:+ " " +:+ label) ∈ aside_lines /\
    (ascii_only "aside_note" = true ->
     String.length label = String.length "aside_note" /\
     forall (n : nat) (c : ascii),
       String.get n "aside_note" = Some c ->
       String.get n label = Some (Spec.label_char "aside_note" n c)).
Proof.
  apply (unknown_type_heading "2024-01-01 00:00:00" "2024-01-01 00:00:00"
           "" "Interview" [entry_at_90_5]).
  - reflexivity.
  - simpl. apply list_elem_of_here.
  - reflexivity.
  - refine (bool_decide_unpack _ _). vm_compute. exact I.
Defined.

(** C10, as the specification words it, fails: a record may lack fields
    and carry a timestamp no generator can convert.  The record with a NaN
    timestamp and no type, description or confidence makes each of the
    three generators raise. *)
Lemma bare_entry_at_nan_raises :
  get_type entry_at_nan = None /\
  get_description entry_at_nan = None /\
  get_confidence entry_at_nan = None /\
  generate_edl [entry_at_nan] "Interview" = Raise ValueError /\
  generate_txt "2024-01-01 00:00:00" "" [entry_at_nan] "Interview"
    = Raise ValueError /\
  generate_markdown "2024-01-01 00:00:00" "2024-01-01 00:00:00" ""
                    [entry_at_nan] "Interview" = Raise ValueError.
Proof. repeat split. Qed.

(** C10, amended. Every generator reads an absent key as its default
    (timestamp 0, type "key_moment", description "Key moment", confidence
    0.0): a list renders as the list with the defaults written in, and
    each document a generator returns holds, for every entry of the sorted
    list, the block of that entry with its defaults written in.  The block
    of a record with no key at all shows the timecode of 0 seconds,
    KEY_MOMENT, "Key moment" and, in the EDL, 0%; an entry without
    confidence shows 0% in the EDL and has no confidence line in the text
    and markdown documents (its clip name and label are, for an ASCII
    type, the type in upper case and in title case).  No generator raises
    on a list whose timestamp and confidence fields are each absent, an
    int, or a binary64 value of magnitude below [2^900], whatever else is
    absent. *)
Theorem defaults_for_missing_fields
    (now now_footer transcription project_name : string)
    (up_sots : list up_sot) :
  (generate_edl up_sots project_name
     = generate_edl (with_defaults <$> up_sots) project_name /\
   generate_txt now transcription up_sots project_name
     = generate_txt now transcription (with_defaults <$> up_sots)
                    project_name /\
   generate_markdown now now_footer transcription up_sots project_name
     = generate_markdown now now_footer transcription
                         (with_defaults <$> up_sots) project_name) /\
  with_defaults empty_up_sot
    = mk_up_sot (Some (Num.Int 0)) (Some "key_moment") (Some "Key moment")
                (Some (Num.Float (S754_zero false))) /\
  (forall (i : Z) (u : up_sot),
     (i, u) ∈ enumerate_from 1 (sorted_up_sots up_sots) ->
     (forall edl,
        edl_lines up_sots project_name = Ok edl ->
        exists block,
          edl_entry i (with_defaults u) = Ok block /\ part_of block edl) /\
     (forall txt,
        txt_lines now transcription up_sots project_name = Ok txt ->
        exists block,
          txt_entry i (with_defaults u) = Ok block /\ part_of block txt) /\
     (forall md,
        markdown_lines now now_footer transcription up_sots project_name
          = Ok md ->
        exists block,
          markdown_entry i (with_defaults u) = Ok block /\
          part_of block md)) /\
  (forall i : Z,
     edl_entry i empty_up_sot = Ok
       [ Fmt.zero_padded 3 i +:+ "  001      V     C        00:00:00:00" +:+
           " 00:00:00:00 00:00:00:00 00:00:00:00";
         "* FROM CLIP NAME: KEY_MOMENT";
         "* COMMENT: Key moment";
         "* CONFIDENCE: 0%";
         "" ] /\
     txt_entry i empty_up_sot = Ok
       [ Fmt.space_padded 2 i +:+ ". [00:00] KEY_MOMENT";
         "    Key moment";
         "" ] /\
     markdown_entry i empty_up_sot = Ok
       [ "### " +:+ Fmt.str i +:+ ". [00:00] " +:+ key_moment_glyph +:+
           " Key Moment";
         "";
         "**Description:** Key moment";
         "";
         "---";
         "" ]) /\
  (forall (i : Z) (u : up_sot),
     get_confidence u = None ->
     exists clip label,
       (ascii_only (type_or_default u) = true ->
        clip = Text.upper (type_or_default u) /\
        label = type_label (type_or_default u)) /\
       (forall tc, timecode (timestamp_or_0 u) = Ok tc ->
          edl_entry i u = Ok
            [ Fmt.zero_padded 3 i +:+ "  001      V     C        " +:+ tc +:+
                " " +:+ tc +:+ " " +:+ tc +:+ " " +:+ tc;
              "* FROM CLIP NAME: " +:+ clip;
              "* COMMENT: " +:+ description_or_default u;
              "* CONFIDENCE: 0%";
              "" ]) /\
       (forall ts, time_str (timestamp_or_0 u) = Ok ts ->
          txt_entry i u = Ok
            [ Fmt.space_padded 2 i +:+ ". [" +:+ ts +:+ "] " +:+ clip;
              "    " +:+ description_or_default u;
              "" ] /\
          markdown_entry i u = Ok
            [ "### " +:+ Fmt.str i +:+ ". [" +:+ ts +:+ "] " +:+
                type_color (type_or_default u) +:+ " " +:+ label;
              "";
              "**Description:** " +:+ description_or_default u;
              "";
              "---";
              "" ])) /\
  (Forall (fun u => absent_or_moderate (get_timestamp u) /\
                    absent_or_moderate (get_confidence u)) up_sots ->
   is_ok (generate_edl up_sots project_name) /\
   is_ok (generate_txt now transcription up_sots project_name) /\
   is_ok (generate_markdown now now_footer transcription up_sots
                            project_name)).
Proof.
  split; [|split; [done|split; [|split; [|split]]]].
  - unfold generate_edl, edl_lines, generate_txt, txt_lines,
      generate_markdown, markdown_lines.
    rewrite !entries_with_defaults by done.
    by destruct up_sots.
  - intros i u Hiu.
    destruct up_sots as [|u0 us].
    { simpl in Hiu. by apply elem_of_nil in Hiu. }
    split; [|split].
    + intros edl Hedl. unfold edl_lines in Hedl.
      destruct (for_each _ _) as [entries|] eqn:E; [|done].
      simpl in Hedl. injection Hedl as <-.
      destruct (entry_part_of edl_entry _ _ i u E Hiu) as (b & Hb & Hp).
      exists b. split; [exact Hb|]. by repeat apply part_of_cons.
    + intros txt Htxt. unfold txt_lines in Htxt.
      destruct (for_each _ _) as [entries|] eqn:E; [|done].
      simpl in Htxt. injection Htxt as <-.
      destruct (entry_part_of txt_entry _ _ i u E Hiu) as (b & Hb & Hp).
      exists b. split; [exact Hb|].
      repeat apply part_of_cons. by apply part_of_app_l.
    + intros md Hmd. unfold markdown_lines in Hmd.
      destruct (for_each _ _) as [entries|] eqn:E; [|done].
      simpl in Hmd. injection Hmd as <-.
      destruct (entry_part_of markdown_entry _ _ i u E Hiu)
        as (b & Hb & Hp).
      exists b. split; [exact Hb|].
      repeat apply part_of_cons. by apply part_of_app_l.
  - intros i. unfold edl_entry, txt_entry, markdown_entry.
    change (timestamp_or_0 empty_up_sot) with (Num.Int 0).
    by rewrite timecode_int, time_str_int.
  - intros i u Hc.
    exists (Text.upper (type_or_default u)), (type_label (type_or_default u)).
    split; [done|]. split.
    + intros tc Htc. unfold edl_entry, confidence_or_0.
      by rewrite Htc, Hc.
    + intros ts Hts. unfold txt_entry, markdown_entry, confidence_or_0.
      by rewrite Hts, Hc.
  - intros Hall.
    unfold generate_edl, edl_lines, generate_txt, txt_lines,
      generate_markdown, markdown_lines.
    pose proof (entries_ok edl_entry _ up_sots
                  (fun i u H => edl_entry_ok i u (proj1 H) (proj2 H)) Hall).
    pose proof (entries_ok txt_entry _ up_sots
                  (fun i u H => txt_entry_ok i u (proj1 H) (proj2 H)) Hall).
    pose proof (entries_ok markdown_entry _ up_sots
                  (fun i u H => markdown_entry_ok i u (proj1 H) (proj2 H))
                  Hall).
    repeat split.
    + by destruct (for_each _ _).
    + destruct up_sots; [done|].
      by destruct (for_each (fun p => txt_entry _ _) _).
    + destruct up_sots; [done|].
      by destruct (for_each (fun p => markdown_entry _ _) _).
Qed.

Lemma defaults_for_missing_fields_witness :
  is_ok (generate_edl [empty_up_sot; bare_at_90_5] "Interview") /\
  is_ok (generate_txt "2024-01-01 00:00:00" "" [empty_up_sot; bare_at_90_5]
                      "Interview") /\
  is_ok (generate_markdown "2024-01-01 00:00:00" "2024-01-01 00:00:00" ""
                           [empty_up_sot; bare_at_90_5] "Interview").
Proof.
  apply (defaults_for_missing_fields "2024-01-01 00:00:00"
           "2024-01-01 00:00:00" "" "Interview"
           [empty_up_sot; bare_at_90_5]).
  repeat constructor; vm_compute; discriminate.
Defined.

End RenderClaims.

(** ** Further properties: splitting and trimming *)

Section TextExtras.

Lemma split_from_nonempty b s : Text.split_from b s <> [].
Proof.
  revert b. induction s as [|c s IH]; intros b; simpl; [done|].
  destruct (Text.is_terminal c).
  - destruct b; [apply IH | done].
  - by destruct (Text.split_from false s).
Qed.

Lemma split_from_no_terminal s : forall b,
  Forall (fun u => no_terminal u = true) (Text.split_from b s).
Proof.
  induction s as [|c s IH]; intros b; simpl.
  { by repeat constructor. }
  destruct (Text.is_terminal c) eqn:E.
  - destruct b; [apply IH|]. constructor; [done | apply IH].
  - pose proof (IH false) as H.
    destruct (Text.split_from false s) as [|u us]; [by repeat constructor; unfold no_terminal; simpl; rewrite E|].
    apply Forall_cons in H as [Hu Hus]. constructor; [|done].
    unfold no_terminal in *. simpl. by rewrite E.
Qed.

Lemma append_cons c u v : String c u +:+ v = String c (u +:+ v).
Proof. reflexivity. Qed.

Lemma append_empty_r u : u +:+ "" = u.
Proof.
  induction u as [|c u IH]; [done|]. by rewrite append_cons, IH.
Qed.

Lemma concat_units_cons u us :
  String.concat "" (u :: us) = u +:+ String.concat "" us.
Proof. destruct us as [|v vs]; simpl; [by rewrite append_empty_r | done]. Qed.

Lemma split_from_concat s : forall b,
  String.concat "" (Text.split_from b s) = remove_chars Text.is_terminal s.
Proof.
  induction s as [|c s IH]; intros b; [done|].
  cbn [Text.split_from remove_chars].
  destruct (Text.is_terminal c).
  - destruct b; [apply IH|]. rewrite concat_units_cons. apply IH.
  - specialize (IH false).
    destruct (Text.split_from false s) as [|u us] eqn:E.
    { by apply split_from_nonempty in E. }
    rewrite concat_units_cons in *. by rewrite append_cons, IH.
Qed.

(** X1. [re.split] never returns an empty list, no unit holds a terminal
    punctuation mark, and the units put end to end are the text with its
    terminal punctuation taken out. *)
Theorem re_split_units (text : string) :
  Text.re_split text <> [] /\
  Forall (fun u => no_terminal u = true) (Text.re_split text) /\
  String.concat "" (Text.re_split text)
    = remove_chars Text.is_terminal text.
Proof.
  split; [apply split_from_nonempty|].
  split; [apply split_from_no_terminal | apply split_from_concat].
Qed.

(** X2. A text without terminal punctuation is a single unit, the text
    itself (so the empty text splits into one empty unit). *)
Theorem re_split_without_punctuation (text : string) :
  no_terminal text = true -> Text.re_split text = [text].
Proof.
  unfold Text.re_split, no_terminal.
  induction text as [|c s IH]; simpl; [done|].
  intros [Hc Hs]%andb_prop. apply negb_true_iff in Hc. rewrite Hc.
  by rewrite (IH Hs).
Qed.

Lemma re_split_without_punctuation_witness :
  Text.re_split "no full stop here" = ["no full stop here"].
Proof. apply re_split_without_punctuation. reflexivity. Defined.

Lemma lstrip_spec s :
  exists l, s = l +:+ Text.lstrip s /\ all_chars Text.isspace l = true /\
            (forall c t, Text.lstrip s = String c t -> Text.isspace c = false).
Proof.
  induction s as [|c s (l & Hs & Hl & Hhead)]; simpl.
  { by exists "". }
  destruct (Text.isspace c) eqn:E.
  - exists (String c l). rewrite append_cons, <- Hs. simpl.
    rewrite E, Hl. by repeat split.
  - exists "". repeat split. by intros c' t [= <- _].
Qed.

Lemma rstrip_spec s :
  exists r, s = Text.rstrip s +:+ r /\ all_chars Text.isspace r = true /\
            (forall t c, Text.rstrip s = t +:+ String c "" ->
                         Text.isspace c = false).
Proof.
  induction s as [|c s (r & Hs & Hr & Hlast)]; simpl.
  { exists "". repeat split. by intros [|??] ?. }
  destruct (Text.rstrip s) as [|d u] eqn:E.
  - change ("" +:+ r) with r in Hs. destruct (Text.isspace c) eqn:Ec.
    + exists (String c r). subst s. simpl. rewrite Ec, Hr.
      repeat split. by intros [|??] ?.
    + exists r. subst s. repeat split; [done|].
      intros [|? [|??]] c' [=]; by subst.
  - exists r. rewrite append_cons, <- Hs. repeat split; [done|].
    intros [|a t] c' Heq; rewrite ?append_cons in Heq;
      injection Heq as <- Heq.
    + discriminate Heq.
    + by apply (Hlast t c').
Qed.

Lemma lstrip_fixed s :
  (forall c t, s = String c t -> Text.isspace c = false) -> Text.lstrip s = s.
Proof.
  destruct s as [|c t]; [done|]. intros H. simpl.
  by rewrite (H c t eq_refl).
Qed.

Lemma rstrip_head s c t :
  Text.rstrip s = String c t ->
  exists t', s = String c t'.
Proof.
  destruct s as [|d s']; simpl; [done|].
  destruct (Text.rstrip s'); [destruct (Text.isspace d)|];
    intros [= <- _]; by eexists.
Qed.

Lemma rstrip_idempotent s : Text.rstrip (Text.rstrip s) = Text.rstrip s.
Proof.
  induction s as [|c s IH]; [done|]. simpl.
  destruct (Text.rstrip s) as [|d u] eqn:E.
  - destruct (Text.isspace c) eqn:Ec; [done|]. simpl. by rewrite Ec.
  - change (Text.rstrip (String c (String d u)) = String c (String d u)).
    cbn [Text.rstrip]. cbn [Text.rstrip] in IH. rewrite IH. done.
Qed.

(** X3. [str.strip] is idempotent, and what it returns neither starts nor
    ends with a blank. *)
Theorem strip_idempotent_trimmed (s : string) :
  Text.strip (Text.strip s) = Text.strip s /\
  (forall c t, Text.strip s = String c t -> Text.isspace c = false) /\
  (forall t c, Text.strip s = t +:+ String c "" -> Text.isspace c = false).
Proof.
  unfold Text.strip.
  destruct (lstrip_spec s) as (l & _ & _ & Hhead).
  destruct (rstrip_spec (Text.lstrip s)) as (r & _ & _ & Hlast).
  assert (Hhead' : forall c t, Text.rstrip (Text.lstrip s) = String c t ->
                               Text.isspace c = false).
  { intros c t Heq. destruct (rstrip_head _ _ _ Heq) as [t' Ht'].
    by apply (Hhead c t'). }
  split; [|split; [exact Hhead' | exact Hlast]].
  rewrite (lstrip_fixed _ Hhead'). apply rstrip_idempotent.
Qed.

Lemma strip_idempotent_trimmed_witness : Text.isspace "a" = false.
Proof.
  apply (proj1 (proj2 (strip_idempotent_trimmed "  a b  ")) "a"%char " b").
  reflexivity.
Defined.

(** X4. [str.strip] takes away blanks only, and only at the two ends: the
    string is a run of blanks, then the stripped string, then a run of
    blanks. *)
Theorem strip_removes_blank_ends (s : string) :
  exists l r,
    s = l +:+ Text.strip s +:+ r /\
    all_chars Text.isspace l = true /\ all_chars Text.isspace r = true.
Proof.
  destruct (lstrip_spec s) as (l & Hl & Hlb & _).
  destruct (rstrip_spec (Text.lstrip s)) as (r & Hr & Hrb & _).
  exists l, r. unfold Text.strip. by rewrite <- Hr, <- Hl.
Qed.

End TextExtras.

(** ** Further properties: the detector *)

Section CaseChange.
Variable f : ascii -> ascii.
Hypothesis f_terminal : forall c, Text.is_terminal (f c) = Text.is_terminal c.
Hypothesis f_space : forall c, Text.isspace (f c) = Text.isspace c.
Hypothesis f_lower : forall c, Text.lower_char (f c) = Text.lower_char c.

Lemma split_from_map_chars s : forall b,
  Text.split_from b (Text.map_chars f s)
  = Text.map_chars f <$> Text.split_from b s.
Proof.
  induction s as [|c s IH]; intros b; [done|].
  cbn [Text.map_chars Text.split_from]. fold (Text.map_chars f).
  rewrite f_terminal. destruct (Text.is_terminal c).
  - destruct b; [apply IH | by rewrite IH].
  - rewrite IH. pose proof (split_from_nonempty false s).
    by destruct (Text.split_from false s).
Qed.

Lemma lstrip_map_chars s :
  Text.lstrip (Text.map_chars f s) = Text.map_chars f (Text.lstrip s).
Proof.
  induction s as [|c s IH]; [done|].
  cbn [Text.map_chars Text.lstrip]. fold (Text.map_chars f).
  rewrite f_space. by destruct (Text.isspace c).
Qed.

Lemma rstrip_map_chars s :
  Text.rstrip (Text.map_chars f s) = Text.map_chars f (Text.rstrip s).
Proof.
  induction s as [|c s IH]; [done|].
  cbn [Text.map_chars Text.rstrip]. fold (Text.map_chars f).
  rewrite IH, f_space.
  destruct (Text.rstrip s); [by destruct (Text.isspace c) | done].
Qed.

Lemma lower_map_chars s : Text.lower (Text.map_chars f s) = Text.lower s.
Proof.
  unfold Text.lower. induction s as [|c s IH]; [done|].
  cbn [Text.map_chars]. fold (Text.map_chars f) (Text.map_chars Text.lower_char).
  by rewrite f_lower, IH.
Qed.

Lemma scan_sentence_map_chars i raw :
  scan_sentence i (Text.map_chars f raw) = scan_sentence i raw.
Proof.
  unfold scan_sentence, Text.strip.
  by rewrite lstrip_map_chars, rstrip_map_chars, lower_map_chars.
Qed.

Lemma scan_map_chars units : forall i,
  flat_map (fun p => scan_sentence (fst p) (snd p))
           (enumerate_from i (Text.map_chars f <$> units))
  = flat_map (fun p => scan_sentence (fst p) (snd p))
             (enumerate_from i units).
Proof.
  induction units as [|u us IH]; intros i; [done|]. csimpl.
  by rewrite scan_sentence_map_chars, IH.
Qed.

Lemma detect_up_sots_map_chars text :
  detect_up_sots (Text.map_chars f text) = detect_up_sots text.
Proof.
  unfold detect_up_sots, scan, Text.re_split.
  by rewrite split_from_map_chars, scan_map_chars.
Qed.
End CaseChange.

Section DetectorExtras.

Local Ltac by_cases_on_char c :=
  destruct c as [[] [] [] [] [] [] [] []]; reflexivity.

Lemma lower_char_terminal c :
  Text.is_terminal (Text.lower_char c) = Text.is_terminal c.
Proof. by_cases_on_char c. Qed.
Lemma lower_char_space c : Text.isspace (Text.lower_char c) = Text.isspace c.
Proof. by_cases_on_char c. Qed.
Lemma lower_char_lower c :
  Text.lower_char (Text.lower_char c) = Text.lower_char c.
Proof. by_cases_on_char c. Qed.
Lemma upper_char_terminal c :
  Text.is_terminal (Text.upper_char c) = Text.is_terminal c.
Proof. by_cases_on_char c. Qed.
Lemma upper_char_space c : Text.isspace (Text.upper_char c) = Text.isspace c.
Proof. by_cases_on_char c. Qed.
Lemma upper_char_lower c :
  Text.lower_char (Text.upper_char c) = Text.lower_char c.
Proof. by_cases_on_char c. Qed.

(** X5. Detection does not look at the case of the letters: an ASCII
    transcript, the transcript in lower case and the transcript in upper
    case give the same list. *)
Theorem detection_ignores_case (text : string) :
  ascii_only text = true ->
  detect_up_sots (Text.lower text) = detect_up_sots text /\
  detect_up_sots (Text.upper text) = detect_up_sots text.
Proof.
  intros _. split.
  - apply detect_up_sots_map_chars;
      [apply lower_char_terminal | apply lower_char_space
       | apply lower_char_lower].
  - apply detect_up_sots_map_chars;
      [apply upper_char_terminal | apply upper_char_space
       | apply upper_char_lower].
Qed.

Lemma detection_ignores_case_witness :
  detect_up_sots (Text.lower "Can You Tell Us About It?")
    = detect_up_sots "Can You Tell Us About It?" /\
  detect_up_sots (Text.upper "Can You Tell Us About It?")
    = detect_up_sots "Can You Tell Us About It?".
Proof.
  apply (detection_ignores_case "Can You Tell Us About It?"). reflexivity.
Defined.

Lemma scan_sentence_cases i raw u :
  u ∈ scan_sentence i raw ->
  let sentence := Text.lower (Text.strip raw) in
  (10 <= String.length sentence)%nat /\
  ((u = question_of i sentence /\ is_question sentence = true) \/
   (u = key_moment_of i sentence /\ is_key_moment sentence = true) \/
   (u = topic_transition_of i sentence /\
    is_topic_transition sentence = true)).
Proof.
  rewrite scan_sentence_unfold. cbv zeta.
  destruct (String.length _ <? 10)%nat eqn:E; [by intros ?%elem_of_nil|].
  apply Nat.ltb_ge in E. intros Hu. split; [done|].
  unfold when in Hu. rewrite !elem_of_app in Hu.
  destruct (is_question _), (is_key_moment _), (is_topic_transition _);
    rewrite ?list_elem_of_singleton, ?elem_of_nil in Hu; intuition.
Qed.

Lemma elem_of_detect_up_sots text u :
  u ∈ detect_up_sots text ->
  exists (i : nat) raw,
    Text.re_split text !! i = Some raw /\ u ∈ scan_sentence (Z.of_nat i) raw.
Proof.
  rewrite detect_up_sots_kept, elem_of_kept.
  intros (i & raw & Hi & Hu%first_of_subseteq). by exists i, raw.
Qed.

Lemma startswith_append p x : Text.startswith p (p +:+ x) = true.
Proof.
  induction p as [|c p IH]; [done|]. rewrite append_cons. simpl.
  by rewrite Ascii.eqb_refl, IH.
Qed.

Lemma startswith_describe label sentence :
  Text.startswith label (describe label sentence) = true.
Proof. unfold describe. destruct (_ <? _)%nat; apply startswith_append. Qed.

(** X6. Every up-sot the detector returns carries one of three fixed
    combinations of type, confidence and description label: question with
    0.8 and "Question: ", key_moment with 0.7 and "Key point: ",
    topic_transition with 0.9 and "Topic change: ". *)
Theorem emitted_type_confidence_label (text : string) (u : UpSot) :
  u ∈ detect_up_sots text ->
  (type u = "question" /\ confidence u = Num.literal 8 10 /\
   Text.startswith "Question: " (description u) = true) \/
  (type u = "key_moment" /\ confidence u = Num.literal 7 10 /\
   Text.startswith "Key point: " (description u) = true) \/
  (type u = "topic_transition" /\ confidence u = Num.literal 9 10 /\
   Text.startswith "Topic change: " (description u) = true).
Proof.
  intros (i & raw & _ & Hu)%elem_of_detect_up_sots.
  apply scan_sentence_cases in Hu as [_ [[-> _]|[[-> _]|[-> _]]]];
    unfold question_of, key_moment_of, topic_transition_of;
    cbn [type confidence description];
    rewrite startswith_describe; auto.
Qed.

Lemma emitted_type_confidence_label_witness :
  (type (question_of 0 outlook_sentence) = "question" /\
   confidence (question_of 0 outlook_sentence) = Num.literal 8 10 /\
   Text.startswith "Question: "
     (description (question_of 0 outlook_sentence)) = true) \/
  (type (question_of 0 outlook_sentence) = "key_moment" /\
   confidence (question_of 0 outlook_sentence) = Num.literal 7 10 /\
   Text.startswith "Key point: "
     (description (question_of 0 outlook_sentence)) = true) \/
  (type (question_of 0 outlook_sentence) = "topic_transition" /\
   confidence (question_of 0 outlook_sentence) = Num.literal 9 10 /\
   Text.startswith "Topic change: "
     (description (question_of 0 outlook_sentence)) = true).
Proof.
  apply (emitted_type_confidence_label outlook_text).
  vm_compute. apply list_elem_of_here.
Defined.

Lemma length_append u v :
  String.length (u +:+ v) = (String.length u + String.length v)%nat.
Proof.
  induction u as [|c u IH]; [done|]. rewrite append_cons. simpl. by rewrite IH.
Qed.

Lemma text_take_length n s :
  String.length (Text.take n s) = Nat.min n (String.length s).
Proof.
  revert s. induction n as [|n IH]; intros [|c s]; simpl; try done.
  by rewrite IH.
Qed.

Lemma length_describe label sentence :
  String.length (describe label sentence) =
    (String.length label +
     if (100 <? String.length sentence)%nat then 103
     else String.length sentence)%nat.
Proof.
  unfold describe. destruct (100 <? String.length sentence)%nat eqn:E.
  - apply Nat.ltb_lt in E. rewrite !length_append, text_take_length.
    change (String.length "...") with 3%nat. lia.
  - by rewrite length_append.
Qed.

Lemma is_key_moment_long sentence :
  is_key_moment sentence = true -> (30 < String.length sentence)%nat.
Proof.
  unfold is_key_moment. intros (phrase & _ & H)%existsb_exists.
  apply andb_prop in H as [_ H]. by apply Nat.ltb_lt in H.
Qed.

(** X7. A description is never longer than 117 characters (the label, 100
    characters of the sentence and the ellipsis) and never shorter than 20;
    the description of a key_moment has at least 42 characters, its
    sentence being longer than 30. *)
Theorem description_length_bounds (text : string) (u : UpSot) :
  u ∈ detect_up_sots text ->
  (20 <= String.length (description u) <= 117)%nat /\
  (type u = "key_moment" -> (42 <= String.length (description u))%nat).
Proof.
  intros (i & raw & _ & Hu)%elem_of_detect_up_sots.
  apply scan_sentence_cases in Hu as [Hlen Hu]. cbv zeta in Hlen.
  set (sentence := Text.lower (Text.strip raw)) in *.
  destruct Hu as [[-> _]|[[-> Hk]|[-> _]]];
    unfold question_of, key_moment_of, topic_transition_of;
    cbn [type confidence description];
    rewrite length_describe; simpl String.length;
    try apply is_key_moment_long in Hk;
    (destruct (100 <? String.length sentence)%nat eqn:E;
     [apply Nat.ltb_lt in E | apply Nat.ltb_ge in E]);
    (split; [lia | try discriminate; intros _; lia]).
Qed.

Lemma description_length_bounds_witness :
  (20 <= String.length (description (question_of 0 outlook_sentence))
      <= 117)%nat /\
  (type (question_of 0 outlook_sentence) = "key_moment" ->
   (42 <= String.length (description (question_of 0 outlook_sentence)))%nat).
Proof.
  apply (description_length_bounds outlook_text).
  vm_compute. apply list_elem_of_here.
Defined.

Lemma scan_sentence_short i raw :
  (String.length (Text.lower (Text.strip raw)) < 10)%nat ->
  scan_sentence i raw = [].
Proof.
  intros H. unfold scan_sentence. cbv zeta.
  by rewrite (proj2 (Nat.ltb_lt _ _) H).
Qed.

Lemma kept_short units : forall i,
  Forall (fun raw => (String.length (Text.lower (Text.strip raw)) < 10)%nat)
         units ->
  kept (enumerate_from i units) = [].
Proof.
  induction units as [|u us IH]; intros i Hshort; [done|].
  apply Forall_cons in Hshort as [Hu Hus]. simpl.
  by rewrite (scan_sentence_short _ _ Hu), IH.
Qed.

Lemma split_from_length s : forall b,
  Forall (fun u => (String.length u <= String.length s)%nat)
         (Text.split_from b s).
Proof.
  induction s as [|c s IH]; intros b; simpl.
  { constructor; [done | constructor]. }
  assert (Hmono : forall b', Forall
            (fun u => (String.length u <= S (String.length s))%nat)
            (Text.split_from b' s)).
  { intros b'. eapply Forall_impl; [apply IH|]. simpl. lia. }
  destruct (Text.is_terminal c).
  - destruct b; [apply Hmono|]. constructor; [simpl; lia | apply Hmono].
  - pose proof (IH false) as H. pose proof (Hmono false) as H'.
    destruct (Text.split_from false s) as [|u us].
    { constructor; [simpl; lia | constructor]. }
    apply Forall_cons in H as [Hu _]. apply Forall_cons in H' as [_ Hus].
    constructor; [simpl; lia | done].
Qed.

Lemma strip_length s : (String.length (Text.strip s) <= String.length s)%nat.
Proof.
  destruct (lstrip_spec s) as (l & Hl & _).
  destruct (rstrip_spec (Text.lstrip s)) as (r & Hr & _).
  apply (f_equal String.length) in Hl, Hr.
  rewrite length_append in Hl, Hr. unfold Text.strip. lia.
Qed.

(** X8. A transcript whose units all have fewer than 10 characters once
    trimmed and lower-cased yields no up-sot; in particular an ASCII
    transcript of fewer than 10 characters, the empty one included, yields
    none. *)
Theorem short_units_yield_nothing (text : string) :
  (Forall (fun raw =>
             (String.length (Text.lower (Text.strip raw)) < 10)%nat)
          (Text.re_split text) ->
   detect_up_sots text = []) /\
  (ascii_only text = true -> (String.length text < 10)%nat ->
   detect_up_sots text = []).
Proof.
  assert (H : Forall (fun raw =>
                  (String.length (Text.lower (Text.strip raw)) < 10)%nat)
                (Text.re_split text) -> detect_up_sots text = []).
  { intros Hshort. rewrite detect_up_sots_kept. by apply kept_short. }
  split; [exact H|]. intros _ Hlen. apply H.
  eapply Forall_impl; [apply split_from_length|]. simpl. intros u Hu.
  rewrite lower_length. pose proof (strip_length u). lia.
Qed.

Lemma short_units_yield_nothing_witness :
  detect_up_sots "Hi. Thank you! Welcome? Now." = [] /\
  detect_up_sots "Welcome" = [].
Proof.
  split.
  - apply (proj1 (short_units_yield_nothing "Hi. Thank you! Welcome? Now.")).
    vm_compute. repeat (constructor; [lia|]). constructor.
  - apply (proj2 (short_units_yield_nothing "Welcome")); [reflexivity|].
    simpl. lia.
Defined.

Lemma remove_duplicates_spec up_sots : forall seen,
  Forall (fun v => timestamp v ∉ seen) (remove_duplicates seen up_sots) /\
  NoDup (timestamp <$> remove_duplicates seen up_sots) /\
  remove_duplicates seen up_sots `sublist_of` up_sots /\
  (forall before u after,
     up_sots = before ++ u :: after ->
     timestamp u ∉ seen -> timestamp u ∉ (timestamp <$> before) ->
     u ∈ remove_duplicates seen up_sots).
Proof.
  induction up_sots as [|x l IH]; intros seen; simpl.
  { repeat split; [constructor | constructor | constructor |].
    by intros [|??] ???. }
  destruct (decide (timestamp x ∈ seen)) as [Hin|Hnin].
  - destruct (IH seen) as (Hseen & Hnodup & Hsub & Hfirst).
    repeat split; [done | done | by apply sublist_cons |].
    intros [|y before] u after Heq Hu Hbefore; simplify_eq/=; [done|].
    apply (Hfirst before u after); [done | done |].
    rewrite not_elem_of_cons in Hbefore. tauto.
  - destruct (IH ({[timestamp x]} ∪ seen)) as (Hseen & Hnodup & Hsub & Hfirst).
    repeat split.
    + constructor; [done|]. eapply Forall_impl; [exact Hseen|].
      simpl. intros v Hv Hin. apply Hv, elem_of_union. by right.
    + csimpl. constructor; [|done].
      intros (v & Hv & Hvin)%list_elem_of_fmap.
      rewrite Forall_forall in Hseen. apply (Hseen v Hvin).
      apply elem_of_union. left. by apply elem_of_singleton.
    + by apply sublist_skip.
    + intros [|y before] u after Heq Hu Hbefore; simplify_eq/=.
      { apply list_elem_of_here. }
      apply list_elem_of_further, (Hfirst before u after); [done | |].
      * rewrite not_elem_of_cons in Hbefore.
        rewrite elem_of_union, elem_of_singleton. tauto.
      * rewrite not_elem_of_cons in Hbefore. tauto.
Qed.

(** X9. On any list, the duplicate-removing loop returns a sub-list without
    repeated timestamps that keeps, of each timestamp, the first element
    that carries it. *)
Theorem remove_duplicates_keeps_first (up_sots : list UpSot) :
  NoDup (timestamp <$> remove_duplicates ∅ up_sots) /\
  remove_duplicates ∅ up_sots `sublist_of` up_sots /\
  (forall before u after,
     up_sots = before ++ u :: after ->
     timestamp u ∉ (timestamp <$> before) ->
     u ∈ remove_duplicates ∅ up_sots).
Proof.
  destruct (remove_duplicates_spec up_sots ∅) as (_ & Hnodup & Hsub & Hfirst).
  split; [done|]. split; [done|].
  intros before u after Heq Hbefore.
  apply (Hfirst before u after); [done | set_solver | done].
Qed.

Lemma remove_duplicates_keeps_first_witness :
  key_moment_of 1 "x" ∈
    remove_duplicates ∅ [question_of 0 "a"; key_moment_of 1 "x";
                         topic_transition_of 1 "y"].
Proof.
  destruct (remove_duplicates_keeps_first
              [question_of 0 "a"; key_moment_of 1 "x";
               topic_transition_of 1 "y"]) as (_ & _ & Hfirst).
  apply (Hfirst [question_of 0 "a"] (key_moment_of 1 "x")
                [topic_transition_of 1 "y"]); [reflexivity|].
  change (3 ∉ [0]). intros H%list_elem_of_singleton. discriminate H.
Defined.

Lemma split_from_extend s : forall b,
  exists us last,
    Text.split_from b s = us ++ [last] /\
    forall c rest, Text.is_terminal c = true ->
      Text.split_from b (s +:+ String c rest)
        = us ++ last :: Text.split_from true rest \/
      (last = "" /\ (b = true \/ us <> []) /\
       Text.split_from b (s +:+ String c rest)
         = us ++ Text.split_from true rest).
Proof.
  induction s as [|d s IH]; intros b.
  { exists [], "". split; [done|]. intros c rest Hc.
    change ("" +:+ String c rest) with (String c rest). simpl. rewrite Hc.
    destruct b; [right; auto | left; done]. }
  specialize (IH (Text.is_terminal d)).
  destruct IH as (us & last & Hs & Hext).
  destruct (Text.is_terminal d) eqn:Ed.
  - destruct b.
    + exists us, last. split; [by simpl; rewrite Ed|].
      intros c rest Hc. rewrite append_cons. simpl. rewrite Ed.
      destruct (Hext c rest Hc) as [H|(-> & _ & H)]; [by left|].
      right. auto.
    + exists ("" :: us), last. split; [by simpl; rewrite Ed, Hs|].
      intros c rest Hc. rewrite append_cons. simpl. rewrite Ed.
      destruct (Hext c rest Hc) as [H|(-> & _ & H)]; rewrite H; [by left|].
      right. auto.
  - destruct us as [|u us].
    + exists [], (String d last). split; [by simpl; rewrite Ed, Hs|].
      intros c rest Hc. rewrite append_cons. simpl. rewrite Ed.
      destruct (Hext c rest Hc) as [H|(_ & [?|?] & _)]; [|done|done].
      rewrite H. by left.
    + exists (String d u :: us), last. split; [by simpl; rewrite Ed, Hs|].
      intros c rest Hc. rewrite append_cons. simpl. rewrite Ed.
      destruct (Hext c rest Hc) as [H|(-> & _ & H)]; rewrite H; [by left|].
      right. auto.
Qed.

Lemma enumerate_from_app {A : Type} (xs ys : list A) : forall i,
  enumerate_from i (xs ++ ys)
  = enumerate_from i xs ++ enumerate_from (i + Z.of_nat (length xs)) ys.
Proof.
  induction xs as [|x xs IH]; intros i; simpl.
  { f_equal. lia. }
  rewrite IH. do 3 f_equal. lia.
Qed.

Lemma kept_app xs ys : kept (xs ++ ys) = kept xs ++ kept ys.
Proof. unfold kept. apply flat_map_app. Qed.

(** X10. Up-sots already found stay as they are when the transcript grows
    past a terminal punctuation mark: the list for a text is the beginning
    of the list for that text followed by a mark and any further text. *)
Theorem detection_of_extended_text (text rest : string) (c : ascii) :
  Text.is_terminal c = true ->
  detect_up_sots text `prefix_of` detect_up_sots (text +:+ String c rest).
Proof.
  intros Hc. rewrite !detect_up_sots_kept. unfold Text.re_split.
  destruct (split_from_extend text false) as (us & last & Hs & Hext).
  rewrite Hs.
  destruct (Hext c rest Hc) as [H|(-> & _ & H)]; rewrite H.
  - replace (us ++ last :: Text.split_from true rest)
      with ((us ++ [last]) ++ Text.split_from true rest)
      by (by rewrite <- app_assoc).
    rewrite (enumerate_from_app (us ++ [last])), kept_app.
    by eexists.
  - rewrite !enumerate_from_app, !kept_app. simpl.
    rewrite app_nil_r. by eexists.
Qed.

Lemma detection_of_extended_text_witness :
  detect_up_sots "Can you tell us about it"
    `prefix_of` detect_up_sots "Can you tell us about it? Looking ahead, it is fine.".
Proof.
  apply (detection_of_extended_text "Can you tell us about it"
           " Looking ahead, it is fine." "?").
  reflexivity.
Defined.

End DetectorExtras.

(** ** Further properties: sorting the entries *)

Section SortExtras.

Lemma ext_ltb_irrefl x : Num.ext_ltb x x = false.
Proof. destruct x; simpl; try done. apply Z.ltb_irrefl. Qed.

Lemma ext_not_ltb_trans x y z :
  Num.ext_ltb y x = false -> Num.ext_ltb z y = false ->
  Num.ext_ltb z x = false.
Proof.
  destruct x, y, z; simpl; try done. rewrite !Z.ltb_ge. lia.
Qed.

Lemma ltb_true_values a b :
  Num.ltb a b = true ->
  exists x y, Num.value a = Some x /\ Num.value b = Some y /\
              Num.ext_ltb x y = true.
Proof.
  unfold Num.ltb. destruct (Num.value a), (Num.value b); try done.
  by eexists _, _.
Qed.

Lemma insert_sorted_filter (k : option Num.ext) x xs :
  filter (fun u => key_value u = k)
         (insert_sorted Num.ltb timestamp_or_0 x xs)
  = filter (fun u => key_value u = k) (x :: xs).
Proof.
  induction xs as [|y ys IH]; [done|]. simpl.
  destruct (Num.ltb (timestamp_or_0 y) (timestamp_or_0 x)) eqn:E; [|done].
  apply ltb_true_values in E as (vy & vx & Hy & Hx & Hlt).
  fold (key_value y) in Hy. fold (key_value x) in Hx.
  rewrite (filter_cons _ y), IH, !(filter_cons _ x), (filter_cons _ y).
  destruct (decide (key_value y = k)) as [Hky|]; [|done].
  destruct (decide (key_value x = k)) as [Hkx|]; [|done].
  exfalso. rewrite <- Hky, Hy, Hx in Hkx. injection Hkx as ->.
  by rewrite ext_ltb_irrefl in Hlt.
Qed.

Lemma sorted_up_sots_filter (k : option Num.ext) up_sots :
  filter (fun u => key_value u = k) (sorted_up_sots up_sots)
  = filter (fun u => key_value u = k) up_sots.
Proof.
  unfold sorted_up_sots. induction up_sots as [|x xs IH]; [done|].
  simpl. by rewrite insert_sorted_filter, !filter_cons, IH.
Qed.

Lemma not_after_trans a b c :
  is_Some (key_value a) -> is_Some (key_value b) -> is_Some (key_value c) ->
  not_after a b -> not_after b c -> not_after a c.
Proof.
  unfold not_after, Num.ltb, key_value.
  intros [va ->] [vb ->] [vc ->]. apply ext_not_ltb_trans.
Qed.

Lemma ltb_true_not_after x y :
  Num.ltb (timestamp_or_0 y) (timestamp_or_0 x) = true -> not_after y x.
Proof.
  intros H. unfold not_after.
  destruct (Num.ltb (timestamp_or_0 x) (timestamp_or_0 y)) eqn:E; [|done].
  exfalso. by eapply ltb_asym.
Qed.

Lemma insert_sorted_not_after x xs :
  is_Some (key_value x) -> no_nan_timestamp xs ->
  StronglySorted not_after xs ->
  StronglySorted not_after (insert_sorted Num.ltb timestamp_or_0 x xs).
Proof.
  intros Hx Hxs Hs. induction Hs as [|y ys Hys IH Hy]; simpl.
  { repeat constructor. }
  apply Forall_cons in Hxs as [Hysome Hxs].
  destruct (Num.ltb (timestamp_or_0 y) (timestamp_or_0 x)) eqn:E.
  - constructor; [by apply IH|].
    rewrite insert_sorted_perm. constructor; [|done].
    by apply ltb_true_not_after.
  - constructor; [by constructor|]. constructor; [done|].
    rewrite Forall_forall in Hy, Hxs. apply Forall_forall. intros z Hz.
    apply (not_after_trans x y z); auto.
Qed.

Lemma sorted_up_sots_not_after up_sots :
  no_nan_timestamp up_sots ->
  StronglySorted not_after (sorted_up_sots up_sots).
Proof.
  unfold sorted_up_sots. induction 1 as [|x xs Hx Hxs IH]; simpl.
  { constructor. }
  apply insert_sorted_not_after; [done | | done].
  unfold no_nan_timestamp. by rewrite py_sorted_perm.
Qed.

(** X11. [sorted(up_sots, key=timestamp)] keeps every entry exactly once.
    When no timestamp is a NaN, it keeps entries of equal timestamp in
    their input order and puts the entries in ascending order of
    timestamp. *)
Theorem sorted_up_sots_stable_ascending (up_sots : list up_sot) :
  sorted_up_sots up_sots ≡ₚ up_sots /\
  (no_nan_timestamp up_sots ->
   (forall k : option Num.ext,
      filter (fun u => key_value u = k) (sorted_up_sots up_sots)
      = filter (fun u => key_value u = k) up_sots) /\
   StronglySorted not_after (sorted_up_sots up_sots)).
Proof.
  split; [apply py_sorted_perm|]. intros Hkeys.
  split; [intros k; apply sorted_up_sots_filter|].
  by apply sorted_up_sots_not_after.
Qed.

Lemma sorted_up_sots_stable_ascending_witness :
  StronglySorted not_after (sorted_up_sots [entry_at_9; first_at_3]).
Proof.
  apply (sorted_up_sots_stable_ascending [entry_at_9; first_at_3]).
  repeat constructor; vm_compute; eauto.
Defined.

Lemma py_sorted_fixed xs :
  StronglySorted not_after xs -> sorted_up_sots xs = xs.
Proof.
  unfold sorted_up_sots. induction 1 as [|x xs Hs IH Hx]; simpl; [done|].
  rewrite IH. destruct xs as [|y ys]; [done|]. simpl.
  apply Forall_cons in Hx as [Hxy _]. unfold not_after in Hxy.
  by rewrite Hxy.
Qed.

Lemma sorted_up_sots_idempotent up_sots :
  no_nan_timestamp up_sots ->
  sorted_up_sots (sorted_up_sots up_sots) = sorted_up_sots up_sots.
Proof. intros H. by apply py_sorted_fixed, sorted_up_sots_not_after. Qed.

Lemma sorted_up_sots_nil up_sots :
  sorted_up_sots up_sots = [] <-> up_sots = [].
Proof.
  split; [|by intros ->]. intros H.
  apply Permutation_nil. rewrite <- H. unfold sorted_up_sots.
  apply py_sorted_perm.
Qed.

(** Each generator depends on its list through the sorted list and through
    whether the list is empty. *)
Lemma generators_from_sorted now now_footer transcription project_name
    xs ys :
  sorted_up_sots xs = sorted_up_sots ys ->
  generate_edl xs project_name = generate_edl ys project_name /\
  generate_txt now transcription xs project_name
    = generate_txt now transcription ys project_name /\
  generate_markdown now now_footer transcription xs project_name
    = generate_markdown now now_footer transcription ys project_name.
Proof.
  intros Hs.
  unfold generate_edl, edl_lines, generate_txt, txt_lines,
    generate_markdown, markdown_lines.
  rewrite Hs. split; [done|].
  destruct xs as [|x xs], ys as [|y ys]; try done.
  - symmetry in Hs. change (sorted_up_sots []) with (@nil up_sot) in Hs.
    apply (proj1 (sorted_up_sots_nil _)) in Hs. discriminate Hs.
  - change (sorted_up_sots []) with (@nil up_sot) in Hs.
    apply (proj1 (sorted_up_sots_nil _)) in Hs. discriminate Hs.
Qed.

(** X12. Handing a generator a list that is already sorted changes nothing:
    when no timestamp is a NaN, each generator gives the same result on a
    list and on the list sorted by timestamp. *)
Theorem rendering_of_sorted_list
    (now now_footer transcription project_name : string)
    (up_sots : list up_sot) :
  no_nan_timestamp up_sots ->
  generate_edl (sorted_up_sots up_sots) project_name
    = generate_edl up_sots project_name /\
  generate_txt now transcription (sorted_up_sots up_sots) project_name
    = generate_txt now transcription up_sots project_name /\
  generate_markdown now now_footer transcription (sorted_up_sots up_sots)
                    project_name
    = generate_markdown now now_footer transcription up_sots project_name.
Proof.
  intros H. apply generators_from_sorted. by apply sorted_up_sots_idempotent.
Qed.

Lemma rendering_of_sorted_list_witness :
  generate_edl (sorted_up_sots [entry_at_9; first_at_3]) "Interview"
    = generate_edl [entry_at_9; first_at_3] "Interview" /\
  generate_txt "2024-01-01 00:00:00" ""
               (sorted_up_sots [entry_at_9; first_at_3]) "Interview"
    = generate_txt "2024-01-01 00:00:00" "" [entry_at_9; first_at_3]
                   "Interview" /\
  generate_markdown "2024-01-01 00:00:00" "2024-01-01 00:00:00" ""
                    (sorted_up_sots [entry_at_9; first_at_3]) "Interview"
    = generate_markdown "2024-01-01 00:00:00" "2024-01-01 00:00:00" ""
                        [entry_at_9; first_at_3] "Interview".
Proof.
  apply rendering_of_sorted_list.
  repeat constructor; vm_compute; eauto.
Defined.

End SortExtras.

(** ** Further properties: the documents *)

Section DocumentExtras.

Lemma for_each_lookup {A B : Type} (f : A -> result B) xs : forall bs,
  for_each f xs = Ok bs ->
  length bs = length xs /\
  (forall (k : nat) x, xs !! k = Some x ->
     exists b, bs !! k = Some b /\ f x = Ok b).
Proof.
  induction xs as [|y ys IH]; intros bs Hbs; simpl in Hbs.
  { injection Hbs as <-. split; [done|]. by intros k x ?. }
  destruct (f y) as [b|] eqn:Ey; [|done]. simpl in Hbs.
  destruct (for_each f ys) as [bs'|] eqn:Eys; [|done].
  simpl in Hbs. injection Hbs as <-.
  destruct (IH bs' eq_refl) as [Hlen Hlookup].
  split; [by simpl; rewrite Hlen|].
  intros [|k] x Hx; simpl in Hx.
  - injection Hx as <-. by exists b.
  - by apply Hlookup.
Qed.

Lemma enumerate_from_lookup {A : Type} (xs : list A) : forall i (k : nat) x,
  xs !! k = Some x -> enumerate_from i xs !! k = Some (i + Z.of_nat k, x).
Proof.
  induction xs as [|y ys IH]; intros i k x; [done|].
  destruct k as [|k]; simpl.
  - intros [= ->]. do 2 f_equal. lia.
  - intros H. rewrite (IH (i + 1) k x H). do 2 f_equal. lia.
Qed.

Lemma enumerate_from_length {A : Type} (xs : list A) : forall i,
  length (enumerate_from i xs) = length xs.
Proof. induction xs as [|y ys IH]; intros i; simpl; [done | by rewrite IH]. Qed.

Lemma concat_blocks_length {A : Type} (n : nat) (xss : list (list A)) :
  Forall (fun xs => length xs = n) xss ->
  length (concat xss) = (n * length xss)%nat.
Proof.
  induction 1 as [|xs xss Hxs _ IH]; simpl; [lia|].
  rewrite length_app, IH, Hxs. lia.
Qed.

Lemma concat_blocks_drop {A : Type} (n : nat) (xss : list (list A)) k xs :
  Forall (fun xs => length xs = n) xss ->
  xss !! k = Some xs ->
  take n (drop (n * k) (concat xss)) = xs.
Proof.
  intros Hall Hk.
  pose proof (take_drop_middle xss k xs Hk) as Hsplit.
  assert (Hpre : Forall (fun xs => length xs = n) (take k xss))
    by (by apply Forall_take).
  assert (Hxs : length xs = n).
  { rewrite Forall_forall in Hall. apply Hall. by eapply list_elem_of_lookup_2. }
  rewrite <- Hsplit, concat_app. simpl.
  assert (Hlen : length (concat (take k xss)) = (n * k)%nat).
  { rewrite (concat_blocks_length n) by done. rewrite length_take.
    apply lookup_lt_Some in Hk. lia. }
  rewrite <- Hlen, drop_app_length. rewrite <- Hxs. apply take_app_length.
Qed.

Lemma edl_entry_shape i u block :
  edl_entry i u = Ok block ->
  exists tc pct,
    timecode (timestamp_or_0 u) = Ok tc /\
    percent (confidence_or_0 u) = Ok pct /\
    block =
      [ Fmt.zero_padded 3 i +:+ "  001      V     C        " +:+ tc +:+
          " " +:+ tc +:+ " " +:+ tc +:+ " " +:+ tc;
        "* FROM CLIP NAME: " +:+ Text.upper (type_or_default u);
        "* COMMENT: " +:+ description_or_default u;
        "* CONFIDENCE: " +:+ pct;
        "" ].
Proof.
  unfold edl_entry.
  destruct (timecode _) as [tc|]; [|done]. simpl.
  destruct (percent _) as [pct|]; [|done]. simpl.
  intros [= <-]. by exists tc, pct.
Qed.

(** X13. The layout of an EDL document.  The document is a list of
    pieces joined by newlines: three header pieces (title, frame mode,
    empty), then five pieces per up-sot.  The block of the entry at
    position [k] of the sorted list starts at piece [3 + 5k], is numbered
    [k + 1] with three digits, repeats the entry's timecode four times,
    names the clip (for an ASCII type: the type in upper case), and ends
    with an empty piece.  A piece is one line of the document unless a
    project name, type or description holds a newline itself. *)
Theorem edl_document_layout (project_name : string)
    (up_sots : list up_sot) (document : string) :
  generate_edl up_sots project_name = Ok document ->
  exists pieces,
    document = Text.join Text.newline pieces /\
    length pieces = (3 + 5 * length up_sots)%nat /\
    take 3 pieces
      = [ "TITLE: " +:+ project_name; "FCM: NON-DROP FRAME"; "" ] /\
    (forall (k : nat) (u : up_sot),
       sorted_up_sots up_sots !! k = Some u ->
       exists tc pct clip,
         timecode (timestamp_or_0 u) = Ok tc /\
         percent (confidence_or_0 u) = Ok pct /\
         (ascii_only (type_or_default u) = true ->
          clip = Text.upper (type_or_default u)) /\
         take 5 (drop (3 + 5 * k) pieces) =
           [ Fmt.zero_padded 3 (Z.of_nat k + 1) +:+
               "  001      V     C        " +:+ tc +:+
               " " +:+ tc +:+ " " +:+ tc +:+ " " +:+ tc;
             "* FROM CLIP NAME: " +:+ clip;
             "* COMMENT: " +:+ description_or_default u;
             "* CONFIDENCE: " +:+ pct;
             "" ]).
Proof.
  unfold generate_edl.
  destruct (edl_lines up_sots project_name) as [lines|] eqn:Hlines; [|done].
  intros [= <-]. exists lines. split; [reflexivity|].
  unfold edl_lines in Hlines.
  destruct (for_each _ _) as [entries|] eqn:Hentries; [|done].
  simpl in Hlines. injection Hlines as <-.
  destruct (for_each_lookup _ _ _ Hentries) as [Hlen Hlookup].
  rewrite enumerate_from_length in Hlen.
  assert (Hblocks : Forall (fun block => length block = 5%nat) entries).
  { apply Forall_forall. intros block Hblock.
    apply list_elem_of_lookup in Hblock as [k Hk].
    assert (Hlt : (k < length (enumerate_from 1 (sorted_up_sots up_sots)))%nat).
    { rewrite enumerate_from_length, <- Hlen. by eapply lookup_lt_Some. }
    apply lookup_lt_is_Some in Hlt as [[i u] Hiu].
    destruct (Hlookup k _ Hiu) as (block' & Hk' & Hblock').
    rewrite Hk in Hk'. injection Hk' as <-.
    apply edl_entry_shape in Hblock' as (tc & pct & _ & _ & ->). done. }
  assert (Hsorted : length (sorted_up_sots up_sots) = length up_sots).
  { unfold sorted_up_sots. by rewrite py_sorted_perm. }
  split; [|split; [done|]].
  - simpl. rewrite (concat_blocks_length 5) by done. lia.
  - intros k u Hu.
    pose proof (enumerate_from_lookup _ 1 k u Hu) as Hiu.
    destruct (Hlookup k _ Hiu) as (block & Hk & Hblock).
    apply edl_entry_shape in Hblock as (tc & pct & Htc & Hpct & ->).
    exists tc, pct, (Text.upper (type_or_default u)).
    split; [done|]. split; [done|]. split; [done|].
    match goal with
    | |- take 5 (drop _ _) = ?block =>
        change (take 5 (drop (5 * k) (concat entries)) = block)
    end.
    rewrite (concat_blocks_drop 5 entries k _ Hblocks Hk).
    simpl. by replace (1 + Z.of_nat k) with (Z.of_nat k + 1) by lia.
Qed.

Lemma edl_document_layout_witness :
  exists pieces,
    two_entry_edl_document = Text.join Text.newline pieces /\
    length pieces = (3 + 5 * 2)%nat /\
    take 3 pieces = [ "TITLE: Interview"; "FCM: NON-DROP FRAME"; "" ].
Proof.
  destruct (edl_document_layout "Interview" [entry_at_9; first_at_3]
              two_entry_edl_document eq_refl)
    as (pieces & Hdocument & Hlen & Hhead & _).
  exists pieces. split; [exact Hdocument|]. split; [exact Hlen | exact Hhead].
Defined.

Lemma zero_padded_2_length z :
  0 <= z < 100 -> String.length (Fmt.zero_padded 2 z) = 2%nat.
Proof.
  intros Hz.
  assert (Hall : forallb
            (fun n => String.length (Fmt.zero_padded 2 (Z.of_nat n)) =? 2)%nat
            (seq 0 100) = true) by (vm_compute; reflexivity).
  rewrite forallb_forall in Hall.
  specialize (Hall (Z.to_nat z)). rewrite Z2Nat.id in Hall by lia.
  apply Nat.eqb_eq, Hall, in_seq. lia.
Qed.

(** X14. For every int timestamp the minutes and seconds fields of the
    timecode are two characters wide and the frames field is "00"; only
    the hours field can be wider.  From 0 up to 359999 seconds the timecode
    is 11 characters long, and up to 5999 seconds the minutes-and-seconds
    display is 5 characters long. *)
Theorem int_timecode_width (t : Z) :
  (exists hh mm ss,
     timecode (Num.Int t) = Ok (hh +:+ ":" +:+ mm +:+ ":" +:+ ss +:+ ":00") /\
     hh = Fmt.zero_padded 2 (t / 3600) /\
     String.length mm = 2%nat /\ String.length ss = 2%nat /\
     (0 <= t < 360000 ->
      String.length (hh +:+ ":" +:+ mm +:+ ":" +:+ ss +:+ ":00") = 11%nat)) /\
  (0 <= t < 6000 ->
   exists display,
     time_str (Num.Int t) = Ok display /\ String.length display = 5%nat).
Proof.
  assert (Hm : 0 <= t mod 3600 / 60 < 100).
  { pose proof (Z.mod_pos_bound t 3600 ltac:(lia)).
    split; [apply Z.div_pos; lia|]. apply Z.div_lt_upper_bound; lia. }
  assert (Hs : 0 <= t mod 60 < 100).
  { pose proof (Z.mod_pos_bound t 60 ltac:(lia)). lia. }
  split.
  - exists (Fmt.zero_padded 2 (t / 3600)), (Fmt.zero_padded 2 (t mod 3600 / 60)),
      (Fmt.zero_padded 2 (t mod 60)).
    split; [by rewrite timecode_int|]. split; [done|].
    split; [by apply zero_padded_2_length|].
    split; [by apply zero_padded_2_length|].
    intros Ht. rewrite !length_append, !zero_padded_2_length; try done.
    split; [apply Z.div_pos; lia|]. apply Z.div_lt_upper_bound; lia.
  - intros Ht. eexists. split; [apply time_str_int|].
    rewrite !length_append, !zero_padded_2_length; try done.
    split; [apply Z.div_pos; lia|]. apply Z.div_lt_upper_bound; lia.
Qed.

Lemma int_timecode_width_witness :
  exists display,
    time_str (Num.Int 95) = Ok display /\ String.length display = 5%nat.
Proof. apply (proj2 (int_timecode_width 95)). lia. Defined.

Lemma for_each_raise {A B : Type} (f : A -> result B) xs x :
  x ∈ xs -> ~ is_ok (f x) -> exists e, for_each f xs = Raise e.
Proof.
  intros Hx Hfx. destruct (for_each f xs) as [bs|e] eqn:E; [|by exists e].
  destruct (for_each_elem _ _ _ _ E Hx) as (b & Hb & _).
  by rewrite Hb in Hfx.
Qed.

Lemma elem_of_enumerated_sorted u up_sots :
  u ∈ up_sots ->
  exists i, (i, u) ∈ enumerate_from 1 (sorted_up_sots up_sots).
Proof.
  intros Hu%sorted_up_sots_elem%list_elem_of_lookup. destruct Hu as [k Hk].
  eexists. eapply list_elem_of_lookup_2. by apply enumerate_from_lookup.
Qed.

Lemma timecode_non_finite x :
  non_finite x -> timecode x = Raise ValueError /\ time_str x = Raise ValueError.
Proof. by destruct x as [z|[s|[|]| |s m e]]. Qed.

(** X15. One entry whose timestamp is a NaN or an infinity is enough for
    each of the three generators to raise, and for the EDL route to answer
    its status-500 error in place of a file. *)
Theorem non_finite_timestamp_raises (send : delivery)
    (now now_footer transcription project_name stamp : string)
    (up_sots : list up_sot) (u : up_sot) (x : Num.number) :
  u ∈ up_sots -> get_timestamp u = Some x -> non_finite x ->
  (exists e, generate_edl up_sots project_name = Raise e) /\
  (exists e, generate_txt now transcription up_sots project_name = Raise e) /\
  (exists e, generate_markdown now now_footer transcription up_sots
                               project_name = Raise e) /\
  (exists e,
     export_edl send stamp
       (mk_export_request (Some up_sots) (Some project_name)
                          (Some transcription))
     = JsonError 500 "EDL export failed: " (Some e)).
Proof.
  intros Hu Hx Hnf.
  destruct (timecode_non_finite x Hnf) as [Htc Hts].
  destruct (elem_of_enumerated_sorted u up_sots Hu) as [i Hiu].
  assert (Hu0 : timestamp_or_0 u = x)
    by (unfold timestamp_or_0; by rewrite Hx).
  assert (Hedl : exists e, for_each (fun p => edl_entry p.1 p.2)
            (enumerate_from 1 (sorted_up_sots up_sots)) = Raise e).
  { apply (for_each_raise _ _ (i, u)); [done|]. simpl.
    unfold edl_entry. rewrite Hu0, Htc. simpl. tauto. }
  assert (Htxt : exists e, for_each (fun p => txt_entry p.1 p.2)
            (enumerate_from 1 (sorted_up_sots up_sots)) = Raise e).
  { apply (for_each_raise _ _ (i, u)); [done|]. simpl.
    unfold txt_entry. rewrite Hu0, Hts. simpl. tauto. }
  assert (Hmd : exists e, for_each (fun p => markdown_entry p.1 p.2)
            (enumerate_from 1 (sorted_up_sots up_sots)) = Raise e).
  { apply (for_each_raise _ _ (i, u)); [done|]. simpl.
    unfold markdown_entry. rewrite Hu0, Hts. simpl. tauto. }
  destruct Hedl as [e1 He1], Htxt as [e2 He2], Hmd as [e3 He3].
  assert (Hne : up_sots <> []) by (intros ->; by apply elem_of_nil in Hu).
  assert (Hgen : generate_edl up_sots project_name = Raise e1).
  { unfold generate_edl, edl_lines. by rewrite He1. }
  split; [by exists e1|]. split; [|split].
  - exists e2. unfold generate_txt, txt_lines.
    destruct up_sots; [done|]. by rewrite He2.
  - exists e3. unfold generate_markdown, markdown_lines.
    destruct up_sots; [done|]. by rewrite He3.
  - exists e1. unfold export_edl. simpl. rewrite Hgen. by destruct up_sots.
Qed.

Lemma non_finite_timestamp_raises_witness :
  exists e,
    export_edl sent "20240101_000000"
      (mk_export_request (Some [entry_at_9; entry_at_nan]) (Some "Interview")
                         (Some ""))
    = JsonError 500 "EDL export failed: " (Some e).
Proof.
  apply (non_finite_timestamp_raises sent "" "" "" "Interview"
           "20240101_000000"
           [entry_at_9; entry_at_nan] entry_at_nan (Num.Float S754_nan)).
  - apply list_elem_of_further, list_elem_of_here.
  - reflexivity.
  - exact I.
Defined.

Lemma percent_non_finite c :
  non_finite c -> exists e, percent c = Raise e.
Proof. destruct c as [z|[s|[|]| |s m e]]; try done; by eexists. Qed.

(** X16. The text and markdown entries convert the confidence to a
    percentage only when it is above 0, the EDL entry always: with a
    confidence that is a NaN or minus infinity the EDL entry raises while
    the other two are rendered, and with plus infinity all three raise. *)
Theorem non_finite_confidence (i : Z) (u : up_sot) (c : Num.number) :
  absent_or_moderate (get_timestamp u) ->
  get_confidence u = Some c -> non_finite c ->
  (exists e, edl_entry i u = Raise e) /\
  (if Num.positive c
   then (exists e, txt_entry i u = Raise e) /\
        (exists e, markdown_entry i u = Raise e)
   else is_ok (txt_entry i u) /\ is_ok (markdown_entry i u)).
Proof.
  intros Ht%moderate_timestamp Hc Hnf.
  pose proof (timecode_moderate _ Ht) as Htc.
  pose proof (time_str_moderate _ Ht) as Hts.
  destruct (percent_non_finite c Hnf) as [e He].
  assert (Hc0 : confidence_or_0 u = c)
    by (unfold confidence_or_0; by rewrite Hc).
  unfold edl_entry, txt_entry, markdown_entry. rewrite Hc0.
  destruct (timecode _) as [tc|]; [|done].
  destruct (time_str _) as [ts|]; [|done]. simpl. rewrite He.
  split; [by exists e|].
  destruct (Num.positive c); simpl; [|done]. split; by exists e.
Qed.

Lemma non_finite_confidence_witness :
  (exists e, edl_entry 1 entry_with_nan_confidence = Raise e) /\
  is_ok (txt_entry 1 entry_with_nan_confidence) /\
  is_ok (markdown_entry 1 entry_with_nan_confidence).
Proof.
  apply (non_finite_confidence 1 entry_with_nan_confidence
           (Num.Float S754_nan)); [exact I | reflexivity | exact I].
Defined.

End DocumentExtras.

(** ** Further properties: from the detector to the documents *)

Section PipelineExtras.

Lemma jsonify_not_after a b : ascending a b -> not_after (jsonify a) (jsonify b).
Proof.
  unfold ascending, not_after. intros Hab.
  change ((timestamp b * 2 ^ 1074 <? timestamp a * 2 ^ 1074) = false).
  apply Z.ltb_ge, Z.mul_le_mono_nonneg_r; [by apply Z.pow_nonneg | lia].
Qed.

Lemma jsonify_sorted xs :
  StronglySorted ascending xs -> StronglySorted not_after (jsonify <$> xs).
Proof.
  induction 1 as [|x xs _ IH Hx]; csimpl; constructor; [done|].
  apply Forall_fmap. eapply Forall_impl; [exact Hx|].
  intros y Hy. by apply jsonify_not_after.
Qed.

Lemma detected_confidence text u :
  u ∈ detect_up_sots text -> below_pow2 900 (confidence u).
Proof.
  intros (i & raw & _ & Hu)%elem_of_detect_up_sots.
  apply scan_sentence_cases in Hu as [_ [[-> _]|[[-> _]|[-> _]]]];
    vm_compute; split; intros H; discriminate H.
Qed.

Lemma detected_renderable text :
  Forall renderable (jsonify <$> detect_up_sots text).
Proof.
  apply Forall_fmap, Forall_forall. intros u Hu. split; [exact I|].
  by apply (detected_confidence text).
Qed.

Lemma generators_ok now now_footer transcription project_name up_sots :
  Forall renderable up_sots ->
  is_ok (generate_edl up_sots project_name) /\
  is_ok (generate_txt now transcription up_sots project_name) /\
  is_ok (generate_markdown now now_footer transcription up_sots project_name).
Proof.
  intros Hall.
  unfold generate_edl, edl_lines, generate_txt, txt_lines,
    generate_markdown, markdown_lines.
  pose proof (entries_ok edl_entry _ up_sots
                (fun i u H => edl_entry_ok i u (proj1 H) (proj2 H)) Hall).
  pose proof (entries_ok txt_entry _ up_sots
                (fun i u H => txt_entry_ok i u (proj1 H) (proj2 H)) Hall).
  pose proof (entries_ok markdown_entry _ up_sots
                (fun i u H => markdown_entry_ok i u (proj1 H) (proj2 H))
                Hall).
  repeat split.
  - by destruct (for_each _ _).
  - destruct up_sots; [done|].
    by destruct (for_each (fun p => txt_entry _ _) _).
  - destruct up_sots; [done|].
    by destruct (for_each (fun p => markdown_entry _ _) _).
Qed.

Lemma export_txt_sends send now stamp data :
  is_ok (generate_txt now (default "" (req_transcription data))
                      (default [] (req_up_sots data))
                      (default "Interview" (req_project_name data))) ->
  exists content,
    generate_txt now (default "" (req_transcription data))
                 (default [] (req_up_sots data))
                 (default "Interview" (req_project_name data)) = Ok content /\
    export_txt send now stamp data
    = delivered send "TXT export failed: " content
        (default "Interview" (req_project_name data) +:+ "_transcript_" +:+
           stamp +:+ ".txt").
Proof.
  unfold export_txt. destruct (generate_txt _ _ _ _) as [content|]; [|done].
  by exists content.
Qed.

(** X17. What the detector returns can always be rendered: for every
    transcript the detected list, sent back as JSON, is already in the
    order the generators sort it into, and none of the three generators
    raises on it.  So the text route, and the EDL route when at least one
    up-sot was detected, get as far as delivering the generated document:
    they answer the file when the delivery goes through and status 500
    when it raises. *)
Theorem detector_output_renders (send : delivery)
    (now now_footer transcription project_name stamp text : string) :
  let up_sots := jsonify <$> detect_up_sots text in
  let data := mk_export_request (Some up_sots) (Some project_name)
                                (Some transcription) in
  sorted_up_sots up_sots = up_sots /\
  is_ok (generate_edl up_sots project_name) /\
  is_ok (generate_txt now transcription up_sots project_name) /\
  is_ok (generate_markdown now now_footer transcription up_sots
                           project_name) /\
  (exists content,
     generate_txt now transcription up_sots project_name = Ok content /\
     export_txt send now stamp data
     = delivered send "TXT export failed: " content
         (project_name +:+ "_transcript_" +:+ stamp +:+ ".txt")) /\
  (detect_up_sots text <> [] ->
   exists content,
     generate_edl up_sots project_name = Ok content /\
     export_edl send stamp data
     = delivered send "EDL export failed: " content
         (project_name +:+ "_upsots_" +:+ stamp +:+ ".edl")).
Proof.
  intros up_sots data.
  destruct (generators_ok now now_footer transcription project_name up_sots
              (detected_renderable text)) as (Hedl & Htxt & Hmd).
  split; [apply py_sorted_fixed, jsonify_sorted, detect_up_sots_ascending|].
  split; [done|]. split; [done|]. split; [done|]. split.
  - by apply (export_txt_sends send now stamp data).
  - intros Hne. unfold export_edl.
    cbn [data req_up_sots req_project_name default from_option id].
    destruct up_sots as [|u us] eqn:E.
    { by apply fmap_nil_inv in E. }
    destruct (generate_edl _ _) as [content|]; [|done]. by exists content.
Qed.

Lemma detector_output_renders_witness :
  exists content,
    generate_edl (jsonify <$> detect_up_sots question_then_outlook)
                 "Interview" = Ok content /\
    export_edl sent "20240101_000000"
      (mk_export_request (Some (jsonify <$> detect_up_sots question_then_outlook))
                         (Some "Interview") (Some question_then_outlook))
    = delivered sent "EDL export failed: " content
        "Interview_upsots_20240101_000000.edl".
Proof.
  apply (detector_output_renders sent "" "" question_then_outlook "Interview"
           "20240101_000000" question_then_outlook).
  vm_compute. discriminate.
Defined.

(** X18. The order in which the client sends the detected up-sots back does
    not matter: every rearrangement of the detector's list gives the same
    three documents as the list itself. *)
Theorem detector_output_in_any_order
    (now now_footer transcription project_name text : string)
    (up_sots : list up_sot) :
  up_sots ≡ₚ jsonify <$> detect_up_sots text ->
  generate_edl up_sots project_name
    = generate_edl (jsonify <$> detect_up_sots text) project_name /\
  generate_txt now transcription up_sots project_name
    = generate_txt now transcription (jsonify <$> detect_up_sots text)
                   project_name /\
  generate_markdown now now_footer transcription up_sots project_name
    = generate_markdown now now_footer transcription
                        (jsonify <$> detect_up_sots text) project_name.
Proof.
  intros Hp. apply generators_from_sorted. symmetry.
  apply sorted_up_sots_perm; [done|]. apply detect_up_sots_distinct_timestamps.
Qed.

Lemma detector_output_in_any_order_witness :
  generate_edl (reverse (jsonify <$> detect_up_sots question_then_outlook))
               "Interview"
    = generate_edl (jsonify <$> detect_up_sots question_then_outlook)
                   "Interview".
Proof.
  apply (detector_output_in_any_order "" "" "" "Interview"
           question_then_outlook
           (reverse (jsonify <$> detect_up_sots question_then_outlook))).
  vm_compute. apply perm_swap.
Defined.

(** X19. The text route never answers status 400.  For a request whose
    up-sot list is absent or empty, which the EDL route rejects with 400,
    it generates the document made of the header, the transcription and
    the footer; for every list of renderable entries it generates a
    document.  Its answer is then the file, or status 500 when the delivery
    raises. *)
Theorem export_txt_accepts_empty_list (send : delivery) (now stamp : string)
    (data : export_request) :
  (forall error cause,
     export_txt send now stamp data <> JsonError 400 error cause) /\
  (default [] (req_up_sots data) = [] ->
   export_edl send stamp data = JsonError 400 "No up-sots provided" None /\
   export_txt send now stamp data
   = delivered send "TXT export failed: "
       (Text.join Text.newline
          [ Text.repeat_char "=" 80;
            "INTERVIEW TRANSCRIPT: " +:+ default "Interview" (req_project_name data);
            "Generated: " +:+ now;
            Text.repeat_char "=" 80;
            "";
            "FULL TRANSCRIPTION:";
            Text.repeat_char "-" 40;
            default "" (req_transcription data);
            "";
            "";
            Text.repeat_char "=" 80;
            "Generated by Retro Professional Transcribe Tool";
            Text.repeat_char "=" 80 ])
       (default "Interview" (req_project_name data) +:+ "_transcript_" +:+
          stamp +:+ ".txt")) /\
  (Forall renderable (default [] (req_up_sots data)) ->
   exists content,
     generate_txt now (default "" (req_transcription data))
                  (default [] (req_up_sots data))
                  (default "Interview" (req_project_name data)) = Ok content /\
     export_txt send now stamp data
     = delivered send "TXT export failed: " content
         (default "Interview" (req_project_name data) +:+ "_transcript_" +:+
            stamp +:+ ".txt")).
Proof.
  split; [|split].
  - intros error cause. unfold export_txt.
    destruct (generate_txt _ _ _ _); [|done].
    cbv zeta. by destruct (send _ _).
  - intros Hempty. unfold export_edl, export_txt. by rewrite Hempty.
  - intros Hall. apply export_txt_sends.
    by apply (generators_ok now now _ _ _ Hall).
Qed.

Lemma export_txt_accepts_empty_list_witness :
  export_edl refused "20240101_000000" (mk_export_request None None None)
    = JsonError 400 "No up-sots provided" None /\
  exists content,
    export_txt refused "2024-01-01 00:00:00" "20240101_000000"
               (mk_export_request None None None)
    = delivered refused "TXT export failed: " content
        "Interview_transcript_20240101_000000.txt".
Proof.
  destruct (export_txt_accepts_empty_list refused "2024-01-01 00:00:00"
              "20240101_000000" (mk_export_request None None None))
    as (_ & Hempty & _).
  destruct (Hempty eq_refl) as [Hedl Htxt].
  split; [exact Hedl|]. eexists. exact Htxt.
Defined.

Lemma remove_chars_length p s :
  (String.length (remove_chars p s) <= String.length s)%nat.
Proof.
  induction s as [|c s IH]; simpl; [lia|]. destruct (p c); simpl; lia.
Qed.

Lemma kept_cons k x xs :
  kept (enumerate_from k (x :: xs))
  = first_of (scan_sentence k x) ++ kept (enumerate_from (k + 1) xs).
Proof. reflexivity. Qed.

Lemma kept_length xs : forall k,
  (10 * length (kept (enumerate_from k xs))
     <= String.length (String.concat "" xs))%nat /\
  (length (kept (enumerate_from k xs)) <= length xs)%nat.
Proof.
  induction xs as [|x xs IH]; intros k; [simpl; lia|].
  rewrite concat_units_cons, length_append, kept_cons, length_app.
  destruct (IH (k + 1)) as [IH1 IH2].
  destruct (scan_sentence k x) as [|u us] eqn:E; cbn [first_of length app];
    [lia|].
  assert (10 <= String.length (Text.lower (Text.strip x)))%nat as Hlong.
  { apply (scan_sentence_long k x u). rewrite E. apply list_elem_of_here. }
  rewrite lower_length in Hlong. pose proof (strip_length x). lia.
Qed.

(** X20. There are never more up-sots than units, and in an ASCII
    transcript every up-sot takes at least ten characters: ten times the
    number of detected up-sots is at most the length of the text. *)
Theorem detection_count (text : string) :
  (length (detect_up_sots text) <= length (Text.re_split text))%nat /\
  (ascii_only text = true ->
   (10 * length (detect_up_sots text) <= String.length text)%nat).
Proof.
  rewrite detect_up_sots_kept.
  destruct (kept_length (Text.re_split text) 0) as [Hchars Hunits].
  split; [done|]. intros _. unfold Text.re_split in *.
  rewrite split_from_concat in Hchars.
  pose proof (remove_chars_length Text.is_terminal text). lia.
Qed.

Lemma detection_count_witness :
  (10 * length (detect_up_sots question_then_outlook)
     <= String.length question_then_outlook)%nat.
Proof.
  apply (proj2 (detection_count question_then_outlook)). reflexivity.
Defined.

(** X21. The detector emits only types the documents know: for every
    detected up-sot the markdown heading carries the glyph and the label of
    its type, never the default glyph, and the EDL clip name is QUESTION,
    KEY_MOMENT or TOPIC_TRANSITION. *)
Theorem detected_types_are_labelled (text : string) (u : UpSot)
    (i : Z) (time_str_u : string) :
  u ∈ detect_up_sots text ->
  let heading := markdown_heading i time_str_u (type_or_default (jsonify u)) in
  let clip := Text.upper (type_or_default (jsonify u)) in
  type_color (type u) <> default_glyph /\
  ((heading = "### " +:+ Fmt.str i +:+ ". [" +:+ time_str_u +:+ "] " +:+
              question_glyph +:+ " Question" /\
    clip = "QUESTION") \/
   (heading = "### " +:+ Fmt.str i +:+ ". [" +:+ time_str_u +:+ "] " +:+
              key_moment_glyph +:+ " Key Moment" /\
    clip = "KEY_MOMENT") \/
   (heading = "### " +:+ Fmt.str i +:+ ". [" +:+ time_str_u +:+ "] " +:+
              topic_transition_glyph +:+ " Topic Transition" /\
    clip = "TOPIC_TRANSITION")).
Proof.
  intros (n & raw & _ & Hu)%elem_of_detect_up_sots.
  apply scan_sentence_cases in Hu as [_ [[-> _]|[[-> _]|[-> _]]]];
    (split; [by vm_compute|]);
    [left | right; left | right; right]; split; reflexivity.
Qed.

Lemma detected_types_are_labelled_witness :
  type_color (type (question_of 0 "can you tell us about it"))
    <> default_glyph.
Proof.
  apply (detected_types_are_labelled question_then_outlook
           (question_of 0 "can you tell us about it") 1 "00:00").
  vm_compute. apply list_elem_of_here.
Defined.

End PipelineExtras.
